(** * pyadjoint: the Taylor verifier and the equation-solve block

    A shallow embedding of [pyadjoint/verification.py] and
    [fenics_adjoint/solving.py].

    Conventions of the embedding.
    - Python exceptions raised by the modelled code ([raise], list
      indexing, [min] of an empty sequence, the binding of arguments to
      parameters, attribute access, [len], [in], subscripting and
      unpacking of a value that does not support it, a division of
      numbers by zero) are results [Raise e]; a computation is a function
      of the world it runs in and returns its result together with the
      world it leaves behind.
    - Numbers are the elements of an abstract [Scalar] structure: the
      operators of the Python number type and [numpy.log] are its
      operations, about which nothing is assumed; the structure says for
      which divisors the operator [/] raises.
    - Objects of the numerical backend (forms, functions, vectors, boundary
      conditions, spaces, meshes) are the elements of an abstract [Backend]
      structure whose operations are the backend calls of the source.
    - What happens inside an operation of these two structures (rounding,
      overflow, a failure of the backend) is not part of the model: apart
      from the division of numbers, the operations are total. *)

From Stdlib Require Import QArith Qabs.
From stdpp Require Import gmap strings list pretty.

Open Scope string_scope.
Open Scope nat_scope.
Open Scope list_scope.

(** ** Exceptions and the computation monad *)

Inductive exn : Type :=
| ValueError (msg : string)
| RuntimeError (msg : string)
| IndexError
| KeyError (key : string)
| UnboundLocalError (name : string)
| TypeError
| ZeroDivisionError
| AttributeError.

Inductive result (A : Type) : Type :=
| Ok (a : A)
| Raise (e : exn).
Arguments Ok {A} a.
Arguments Raise {A} e.

(** Whether a result is a value. *)
Definition is_ok {A} (r : result A) : bool :=
  match r with Ok _ => true | Raise _ => false end.

(** [M W A]: a computation over a world [W] that returns an [A] or raises. *)
Definition M (W A : Type) : Type := W -> result A * W.

Definition ret {W A} (a : A) : M W A := fun w => (Ok a, w).

Definition raise {W A} (e : exn) : M W A := fun w => (Raise e, w).

Definition bind {W A B} (c : M W A) (k : A -> M W B) : M W B :=
  fun w => match c w with
           | (Ok a, w') => k a w'
           | (Raise e, w') => (Raise e, w')
           end.

Definition lift {W A} (r : result A) : M W A := fun w => (r, w).

Definition modify {W} (f : W -> W) : M W unit := fun w => (Ok tt, f w).

Definition gets {W A} (f : W -> A) : M W A := fun w => (Ok (f w), w).

(** [returns c Q]: in every world, [c] does not end in a ValueError, and a
    value it returns satisfies [Q]. *)
Definition returns {W A} (c : M W A) (Q : A -> Prop) : Prop :=
  forall w, match fst (c w) with
            | Ok a => Q a
            | Raise e => forall msg, e <> ValueError msg
            end.

(** Sequencing of results outside any world. *)
Definition result_bind {A B} (r : result A) (k : A -> result B) : result B :=
  match r with
  | Ok a => k a
  | Raise e => Raise e
  end.

Notation "x <~ r ;; k" := (result_bind r (fun x => k))
  (at level 100, r at next level, right associativity).

Notation "x <- c ;; k" := (bind c (fun x => k))
  (at level 100, c at next level, right associativity).
Notation "c ;;; k" := (bind c (fun _ => k))
  (at level 100, k at level 100, right associativity).

(** [for x in xs: acc = body(acc, x)] *)
Fixpoint for_each {W A X} (xs : list X) (body : A -> X -> M W A) (acc : A)
  : M W A :=
  match xs with
  | [] => ret acc
  | x :: rest => acc' <- body acc x ;; for_each rest body acc'
  end.

(** [l[i]] for a non-negative index. *)
Definition getitem {A} (l : list A) (i : nat) : result A :=
  match l !! i with
  | Some a => Ok a
  | None => Raise IndexError
  end.

(** The global annotation switch of [pyadjoint.tape]: a world that carries
    the nesting depth of open [stop_annotating] contexts. *)
Class Annotating (W : Type) := {
  stop_depth : W -> nat;
  set_stop_depth : nat -> W -> W
}.

(** Modelled from the spec: [pyadjoint.tape.stop_annotating], a context
    manager that is not among the sources.  Entering it raises the depth of
    the global switch, leaving it (normally or by an exception) lowers the
    depth again. *)
Definition stop_annotating {W A} `{Annotating W} (body : M W A) : M W A :=
  fun w =>
    let '(r, w') := body (set_stop_depth (S (stop_depth w)) w) in
    (r, set_stop_depth (pred (stop_depth w')) w').

(** ** Numbers *)

Class Scalar (F : Type) := {
  fconst : Q -> F;            (* a numeric literal *)
  fadd : F -> F -> F;
  fsub : F -> F -> F;
  fmul : F -> F -> F;
  fdiv : F -> F -> F;
  fpow : F -> F -> F;
  fabs : F -> F;
  flog : F -> F;              (* numpy.log *)
  flt : F -> F -> bool;       (* < *)
  (* whether [x / y] raises ZeroDivisionError for the divisor [y]: for
     Python's float and int it does when [y == 0] *)
  fzero_divisor : F -> bool
}.

(** [x / y] on numbers: the quotient, or the ZeroDivisionError. *)
Definition py_div {F} `{Scalar F} (x y : F) : result F :=
  if fzero_divisor y then Raise ZeroDivisionError else Ok (fdiv x y).

(** Control-space values with the operations of [OverloadedType] that the
    verifier uses. *)
Class OverloadedType (C F : Type) := {
  _ad_add : C -> C -> C;
  _ad_mul : C -> F -> C;
  _ad_dot : C -> C -> F
}.

(** ** [pyadjoint/verification.py] *)

Module Verification.
Section Verification.

Context {F : Type} `{Scalar F} {C : Type} `{OverloadedType C F}.

(** What [taylor_test] receives as [m] and [h], and what [J.derivative()]
    returns: a list, a tuple, or a single control-space value. *)
Inductive pyobj : Type :=
| PyList (items : list C)
| PyTuple (items : list C)
| PyObj (c : C).

(** [isinstance(x, (list, tuple))] *)
Definition is_list_or_tuple (x : pyobj) : bool :=
  match x with
  | PyList _ | PyTuple _ => true
  | PyObj _ => false
  end.

Inductive event : Type :=
| Print (text : string) (values : list F)
| Warning (text : string)
| CallJ (point : pyobj)
| CallDerivative.

Record World := {
  trace : list event;
  annotate_off : nat
}.

#[global] Instance World_annotating : Annotating World := {
  stop_depth := annotate_off;
  set_stop_depth n w := {| trace := trace w; annotate_off := n |}
}.

Definition emit (e : event) : M World unit :=
  modify (fun w => {| trace := trace w ++ [e]; annotate_off := annotate_off w |}).

(** A reduced functional: its declared controls, and what a call and a
    derivative request return after the events seen so far. *)
Record ReducedFunctional := {
  controls : list C;
  call : list event -> pyobj -> F;
  derivative : list event -> pyobj
}.

Definition J_call (J : ReducedFunctional) (p : pyobj) : M World F :=
  v <- gets (fun w => call J (trace w) p) ;;
  emit (CallJ p) ;;;
  ret v.

Definition J_derivative (J : ReducedFunctional) : M World pyobj :=
  d <- gets (fun w => derivative J (trace w)) ;;
  emit CallDerivative ;;;
  ret d.

(** Modelled from the spec: [pyadjoint.enlisting.Enlist], which is not
    among the sources.  A list or tuple is iterated as it is, anything else
    as a one-element list. *)
Definition Enlist (x : pyobj) : list C :=
  match x with
  | PyList l | PyTuple l => l
  | PyObj c => [c]
  end.

(** Modelled from the spec: [Enlist.delist], the inverse view.  For an
    enlisted list or tuple the list is handed back, otherwise its first
    element. *)
Definition delist (x : pyobj) (l : list C) : result pyobj :=
  if is_list_or_tuple x then Ok (PyList l)
  else match l with
       | c :: _ => Ok (PyObj c)
       | [] => Raise IndexError
       end.

(** [sum(xs)]: the built-in starts from the integer 0. *)
Definition pysum (xs : list F) : F := fold_left fadd xs (fconst 0).

(** [min(xs)]: keeps the first of the smallest elements. *)
Definition pymin (xs : list F) : result F :=
  match xs with
  | [] => Raise (ValueError "min() arg is an empty sequence")
  | x :: rest => Ok (fold_left (fun cur y => if flt y cur then y else cur) rest x)
  end.

(** One turn of the loop of [convergence_rates]:
    [r.append(log(E_values[i]/E_values[i-1])/log(eps_values[i]/eps_values[i-1]))],
    evaluated from left to right.  The two inner quotients are divisions
    of the given numbers and raise for a zero divisor; [numpy.log] returns
    a numpy float, and the quotient of two numpy floats does not raise. *)
Definition rates_step {W} (E_values eps_values : list F) (r : list F) (i : nat)
  : M W (list F) :=
  Ei <- lift (getitem E_values i) ;;
  Eprev <- lift (getitem E_values (i - 1)) ;;
  E_quotient <- lift (py_div Ei Eprev) ;;
  si <- lift (getitem eps_values i) ;;
  sprev <- lift (getitem eps_values (i - 1)) ;;
  eps_quotient <- lift (py_div si sprev) ;;
  ret (r ++ [fdiv (flog E_quotient) (flog eps_quotient)]).

Definition convergence_rates (E_values eps_values : list F) : M World (list F) :=
  r <- for_each (seq 1 (length eps_values - 1)) (rates_step E_values eps_values) [] ;;
  emit (Print "Computed convergence rates: {}" r) ;;;
  ret r.

(** The nested function [perturbe] of [taylor_test]. *)
Definition perturbe (m h : pyobj) (eps : F) : result pyobj :=
  let ms := Enlist m in
  let hs := Enlist h in
  delist m (zip_with (fun mi hi => _ad_add mi (_ad_mul hi eps)) ms hs).

(** [0.01/2**i]: the power of the integer 2 is an integer that is not
    zero, so that this division does not raise. *)
Definition step_size (i : nat) : F :=
  fdiv (fconst 0.01) (fconst (inject_Z (2 ^ Z.of_nat i))).

(** [[0.01/2**i for i in range(4)]] *)
Definition epsilons : list F := map step_size (seq 0 4).

(** [abs(Jp - Jm - eps*dJdm - 0.5*eps**2*Hm)] *)
Definition residual (Jp Jm eps dJdm Hm : F) : F :=
  fabs (fsub (fsub (fsub Jp Jm) (fmul eps dJdm))
             (fmul (fmul (fconst 0.5) (fpow eps (fconst 2))) Hm)).

(** The residuals of the loop of [taylor_test] in closed form: the
    functional has seen the events [t] when it is called at the first of
    the points [ps], and each call becomes one more event. *)
Fixpoint residuals_after (J : ReducedFunctional) (Jm dJdm Hm : F)
    (t : list event) (eps : list F) (ps : list pyobj) : list F :=
  match eps, ps with
  | e :: eps', p :: ps' =>
      residual (call J t p) Jm e dJdm Hm
      :: residuals_after J Jm dJdm Hm (t ++ [CallJ p]) eps' ps'
  | _, _ => []
  end.

Definition controls_error (n : nat) (name : string) : exn :=
  ValueError ("J depends on " +:+ pretty n +:+ " controls but " +:+ name
              +:+ " is not a list or tuple.").

(** [taylor_test(J, m, h, dJdm=None, Hm=0)]; an omitted [dJdm] is [None]. *)
Definition taylor_test (J : ReducedFunctional) (m h : pyobj)
    (dJdm : option F) (Hm : F) : M World F :=
  if (1 <? length (controls J)) && negb (is_list_or_tuple m) then
    raise (controls_error (length (controls J)) "m")
  else if (1 <? length (controls J)) && negb (is_list_or_tuple h) then
    raise (controls_error (length (controls J)) "h")
  else
    emit (Print "Running Taylor test" []) ;;;
    residuals <- stop_annotating (
      let hs := Enlist h in
      Jm <- J_call J m ;;
      dJdm <- match dJdm with
              | None =>
                  d <- J_derivative J ;;
                  let ds := Enlist d in
                  ret (pysum (zip_with _ad_dot hs ds))
              | Some d => ret d
              end ;;
      residuals <- for_each epsilons
        (fun residuals eps =>
           p <- lift (perturbe m h eps) ;;
           Jp <- J_call J p ;;
           ret (residuals ++ [residual Jp Jm eps dJdm Hm]))
        [] ;;
      smallest <- lift (pymin residuals) ;;
      (if flt smallest (fconst 1e-15)
       then emit (Warning "The taylor remainder is close to machine precision.")
       else ret tt) ;;;
      emit (Print "Computed residuals: {}" residuals) ;;;
      ret residuals) ;;
    rates <- convergence_rates residuals epsilons ;;
    lift (pymin rates).

End Verification.

Arguments pyobj C : clear implicits.
Arguments event F C : clear implicits.
Arguments World F C : clear implicits.
Arguments ReducedFunctional F C : clear implicits.

End Verification.

(** ** Python values and the numerical backend *)

(** The classes that the solve block tells apart with [isinstance]. *)
Inductive pyclass : Type :=
| Form            (* ufl.Form *)
| Equation        (* ufl.equation.Equation *)
| Function        (* backend.Function *)
| Constant        (* backend.Constant *)
| ExpressionType  (* compat.ExpressionType *)
| DirichletBC     (* backend.DirichletBC *)
| MeshType.       (* compat.MeshType *)

(** A Python value: the built-in values the code handles itself, and the
    objects [obj] of the backend. *)
#[warnings="-register-all"]
Inductive pyval (obj : Type) : Type :=
| PNone
| PBool (b : bool)
| PInt (z : Z)
| PFloat (q : Q)
| PStr (s : string)
| PObj (o : obj)
| PList (items : list (pyval obj))
| PTuple (items : list (pyval obj))
| PDict (entries : gmap string (pyval obj)).
Arguments PNone {obj}.
Arguments PBool {obj} b.
Arguments PInt {obj} z.
Arguments PFloat {obj} q.
Arguments PStr {obj} s.
Arguments PObj {obj} o.
Arguments PList {obj} items.
Arguments PTuple {obj} items.
Arguments PDict {obj} entries.

(** What the solve block asks of the backend ([backend], [ufl], [compat],
    [numpy] and the methods of their objects).  A constructor or a query
    returns the object it yields; a call that writes into one of its
    arguments returns that argument as it is after the call. *)
Class Backend (obj : Type) := {
  obj_eqb : obj -> obj -> bool;                       (* a == b *)
  instance_of : obj -> pyclass -> bool;               (* isinstance(a, cls) *)
  has_attr : obj -> string -> bool;                   (* hasattr(a, name) *)
  get_attr : obj -> string -> pyval obj;              (* a.name *)
  is_firedrake : bool;                                (* backend.__name__ == "firedrake" *)
  backend_solve : list (pyval obj) -> gmap string (pyval obj) -> pyval obj;
  (* the object written to by a solver call: x_after A x b args kwargs *)
  solution : pyval obj -> pyval obj -> pyval obj -> list (pyval obj)
             -> gmap string (pyval obj) -> obj;
  function_space_of : pyval obj -> obj;               (* a.function_space() *)
  coefficients : pyval obj -> list (pyval obj);       (* a.coefficients() *)
  arguments : pyval obj -> list (pyval obj);          (* a.arguments() *)
  integrals : pyval obj -> list (pyval obj);          (* a.integrals() *)
  form_empty : pyval obj -> bool;                     (* a.empty() *)
  ufl_domain : pyval obj -> obj;                      (* a.ufl_domain() *)
  ufl_cargo : pyval obj -> obj;                       (* a.ufl_cargo() *)
  ufl_shape : pyval obj -> obj;                       (* a.ufl_shape *)
  vector : pyval obj -> obj;                          (* a.vector() *)
  copy : pyval obj -> obj;                            (* a.copy() *)
  _ad_function_space : pyval obj -> list (pyval obj) -> obj;
  bc_apply : pyval obj -> pyval obj -> obj;           (* bc.apply(a): a afterwards *)
  bc_apply2 : pyval obj -> pyval obj -> pyval obj -> obj * obj; (* bc.apply(a, b) *)
  create_checkpoint : pyval obj -> obj;               (* a._ad_create_checkpoint() *)
  neg : pyval obj -> obj;                             (* -a *)
  add : pyval obj -> pyval obj -> obj;                (* a + b *)
  sub : pyval obj -> pyval obj -> obj;                (* a - b *)
  mul : pyval obj -> pyval obj -> obj;                (* a * b *)
  backend_Function : pyval obj -> obj;
  backend_Constant : pyval obj -> obj;
  TrialFunction : pyval obj -> obj;
  TestFunction : pyval obj -> obj;
  SpatialCoordinate : pyval obj -> obj;
  action : pyval obj -> pyval obj -> obj;
  adjoint : pyval obj -> obj;
  derivative : pyval obj -> pyval obj -> pyval obj -> obj;
  inner : pyval obj -> pyval obj -> obj;
  dx : obj;
  assemble : pyval obj -> obj;
  assemble_system : pyval obj -> pyval obj -> list (pyval obj) -> obj * obj;
  lu_solver_methods : list string;                    (* its keys *)
  LUSolver : pyval obj -> obj;
  KrylovSolver : list (pyval obj) -> obj;
  (* solver.parameters.update(p); solver.solve(A, x, b): x afterwards *)
  solver_solve : obj -> pyval obj -> pyval obj -> pyval obj -> pyval obj -> obj;
  ufl_replace : pyval obj -> list (pyval obj * pyval obj) -> obj;
  expand_derivatives : pyval obj -> obj;
  numpy_zeros : pyval obj -> obj;
  create_function : pyval obj -> obj;                 (* compat.create_function *)
  (* compat.create_bc(bc, value=..., homogenize=...) *)
  create_bc : pyval obj -> pyval obj -> pyval obj -> obj;
  assemble_adjoint_value : pyval obj -> gmap string (pyval obj) -> obj;
  function_from_vector : pyval obj -> pyval obj -> obj;
  extract_mesh_from_form : pyval obj -> obj;
  extract_subfunction : pyval obj -> pyval obj -> obj
}.

(** ** [fenics_adjoint/solving.py] *)

Module Solving.
Section Solving.

Context {obj : Type} `{Backend obj}.

Abbreviation value := (pyval obj).
Abbreviation dict := (gmap string (pyval obj)).

(** [isinstance(v, cls)] for one of the backend's classes. *)
Definition isinstance (v : value) (cls : pyclass) : bool :=
  match v with
  | PObj o => instance_of o cls
  | _ => false
  end.

(** [a == b] *)
Definition py_eq (a b : value) : bool :=
  match a, b with
  | PObj x, PObj y => obj_eqb x y
  | PNone, PNone => true
  | PBool x, PBool y => bool_decide (x = y)
  | PInt x, PInt y => bool_decide (x = y)
  | PStr x, PStr y => bool_decide (x = y)
  | _, _ => false
  end.

Definition is_none (v : value) : bool :=
  match v with PNone => true | _ => false end.

(** [hasattr(v, name)]; none of the attribute names that the code reads
    is an attribute of a built-in value. *)
Definition hasattr (v : value) (name : string) : bool :=
  match v with PObj o => has_attr o name | _ => false end.

(** [v.name]: the attribute, or the AttributeError. *)
Definition getattr (v : value) (name : string) : result value :=
  match v with
  | PObj o => if has_attr o name then Ok (get_attr o name) else Raise AttributeError
  | _ => Raise AttributeError
  end.

(** [v.name if hasattr(v, name) else dflt] *)
Definition getattr_or (v : value) (name : string) (dflt : value) : value :=
  match v with
  | PObj o => if has_attr o name then get_attr o name else dflt
  | _ => dflt
  end.

(** The truth value of [v] in a condition. *)
Definition truthy (v : value) : bool :=
  match v with
  | PNone => false
  | PBool b => b
  | PInt z => negb (z =? 0)%Z
  | PFloat q => negb (Qeq_bool q 0)
  | PStr s => negb (bool_decide (s = ""))
  | PObj _ => true
  | PList l | PTuple l => negb (bool_decide (length l = 0))
  | PDict d => negb (bool_decide (size d = 0))
  end.

(** The items of a list or tuple, as for unpacking and [len(v)]. *)
Definition items_of (v : value) : result (list value) :=
  match v with
  | PList l | PTuple l => Ok l
  | _ => Raise TypeError
  end.

(** The entries of a dict, as for keyword unpacking and [key in v]. *)
Definition entries_of (v : value) : result dict :=
  match v with
  | PDict d => Ok d
  | _ => Raise TypeError
  end.

(** [d[key]] *)
Definition subscript (d : value) (key : string) : result value :=
  match d with
  | PDict entries =>
      match entries !! key with
      | Some v => Ok v
      | None => Raise (KeyError key)
      end
  | _ => Raise TypeError
  end.

(** [key in v] for a string [key]: a key of a dict, an item of a list or
    tuple, a substring of a string. *)
Definition py_in (key : string) (v : value) : result bool :=
  match v with
  | PDict d => Ok (bool_decide (is_Some (d !! key)))
  | PList l | PTuple l => Ok (existsb (fun x => py_eq x (PStr key)) l)
  | PStr s => Ok (bool_decide (is_Some (String.index 0 key s)))
  | _ => Raise TypeError
  end.

(** The built-in operations below are those of the built-in values; a
    backend object is taken to be no container: it has no length, no
    items and no entries.  A dict has strings as keys, and the order in
    which its keys were inserted is not recorded. *)

(** [len(v)] *)
Definition py_len (v : value) : result nat :=
  match v with
  | PList l | PTuple l => Ok (length l)
  | PDict d => Ok (size d)
  | PStr s => Ok (String.length s)
  | _ => Raise TypeError
  end.

(** The one-character strings that iterating a string yields. *)
Fixpoint characters (s : string) : list value :=
  match s with
  | EmptyString => []
  | String c rest => PStr (String c EmptyString) :: characters rest
  end.

(** [*v] in a call: the items of an iterable. *)
Definition star_args (v : value) : result (list value) :=
  match v with
  | PList l | PTuple l => Ok l
  | PStr s => Ok (characters s)
  | PDict d => Ok (map (fun kv => PStr (fst kv)) (map_to_list d))
  | _ => Raise TypeError
  end.

(** [v[0]] *)
Definition py_first (v : value) : result value :=
  match v with
  | PList l | PTuple l => getitem l 0
  | PStr s => getitem (characters s) 0
  | PDict _ => Raise (KeyError "0")
  | _ => Raise TypeError
  end.

(** [v.get(key, dflt)] *)
Definition py_get (v : value) (key : string) (dflt : value) : result value :=
  match v with
  | PDict d => Ok (default dflt (d !! key))
  | _ => Raise AttributeError
  end.

(** [kwargs.pop(key, default)]: the value and the remaining dict. *)
Definition dict_pop (key : string) (dflt : value) (kwargs : dict) : value * dict :=
  (default dflt (kwargs !! key), delete key kwargs).

(** [a + b] where [a] may still be the number zero that a sum starts from:
    a form added to zero is the form itself. *)
Definition py_add (a b : value) : value :=
  match a with
  | PInt 0 => b
  | PFloat q => if Qeq_bool q 0 then b else PObj (add a b)
  | _ => PObj (add a b)
  end.

(** Modelled from the spec: [pyadjoint.enlisting.Enlist] on a value. *)
Definition Enlist (v : value) : list value :=
  match v with
  | PList l | PTuple l => l
  | _ => [v]
  end.

(** A block variable: the handle of one value on the tape, with the value
    it stands for, its checkpoint and its tangent-linear value. *)
Record BlockVariable := {
  bv_id : nat;
  output : value;
  saved_output : value;
  tlm_value : value
}.

Inductive block_class : Type :=
| GenericSolveBlock
| SolveLinearSystemBlock
| SolveVarFormBlock.

(** The attributes of a solve block. *)
Record SolveBlock := {
  class_of : block_class;
  adj_cb : value;
  adj_bdy_cb : value;
  adj2_cb : value;
  adj2_bdy_cb : value;
  adj_sol : value;
  forward_args : value;
  forward_kwargs : value;
  adj_args : value;
  adj_kwargs : value;
  assemble_kwargs : dict;
  lhs : value;
  rhs : value;
  func : value;
  function_space : value;
  bcs : list value;
  linear : bool;
  _dependencies : list BlockVariable;
  _outputs : list BlockVariable;
  ident_zeros_tol : value;       (* SolveLinearSystemBlock only *)
  assemble_system_flag : value   (* SolveLinearSystemBlock only *)
}.

Definition get_dependencies (self : SolveBlock) : list BlockVariable :=
  _dependencies self.

Definition get_outputs (self : SolveBlock) : list BlockVariable :=
  _outputs self.

Definition set_adj_sol (v : value) (b : SolveBlock) : SolveBlock :=
  {| class_of := class_of b; adj_cb := adj_cb b; adj_bdy_cb := adj_bdy_cb b;
     adj2_cb := adj2_cb b; adj2_bdy_cb := adj2_bdy_cb b; adj_sol := v;
     forward_args := forward_args b; forward_kwargs := forward_kwargs b;
     adj_args := adj_args b; adj_kwargs := adj_kwargs b;
     assemble_kwargs := assemble_kwargs b; lhs := lhs b; rhs := rhs b;
     func := func b; function_space := function_space b; bcs := bcs b;
     linear := linear b; _dependencies := _dependencies b;
     _outputs := _outputs b; ident_zeros_tol := ident_zeros_tol b;
     assemble_system_flag := assemble_system_flag b |}.

(** Modelled from the spec: [Block.add_output], which is not among the
    sources: the produced block variable is attached to the block, with its
    checkpoint taken at that moment. *)
Definition add_output (bv : BlockVariable) (b : SolveBlock) : SolveBlock :=
  let bv' := {| bv_id := bv_id bv; output := output bv;
                saved_output := PObj (create_checkpoint (output bv));
                tlm_value := tlm_value bv |} in
  {| class_of := class_of b; adj_cb := adj_cb b; adj_bdy_cb := adj_bdy_cb b;
     adj2_cb := adj2_cb b; adj2_bdy_cb := adj2_bdy_cb b; adj_sol := adj_sol b;
     forward_args := forward_args b; forward_kwargs := forward_kwargs b;
     adj_args := adj_args b; adj_kwargs := adj_kwargs b;
     assemble_kwargs := assemble_kwargs b; lhs := lhs b; rhs := rhs b;
     func := func b; function_space := function_space b; bcs := bcs b;
     linear := linear b; _dependencies := _dependencies b;
     _outputs := _outputs b ++ [bv']; ident_zeros_tol := ident_zeros_tol b;
     assemble_system_flag := assemble_system_flag b |}.

(** Modelled from the spec: [Block.add_dependency], which is not among the
    sources: the block variable of [dep] is registered, and skipped when it
    is already present and [no_duplicates] is requested. *)
Definition add_dependency (block_variable : value -> BlockVariable)
    (no_duplicates : bool) (deps : list BlockVariable) (dep : value)
  : list BlockVariable :=
  let bv := block_variable dep in
  if no_duplicates && existsb (fun d => bv_id d =? bv_id bv) deps
  then deps
  else deps ++ [bv].

(** The solver configuration that [_init_solver_parameters] leaves on the
    block.  The four settings that it pops from the keyword arguments are
    stored as they are given, whatever they are. *)
Record solver_parameters := {
  sp_forward_args : value;
  sp_forward_kwargs : value;
  sp_adj_args : value;
  sp_adj_kwargs : value;
  sp_assemble_kwargs : dict
}.

(** [GenericSolveBlock._init_solver_parameters]; the dict that remains of
    [kwargs] is returned with the configuration. *)
Definition generic_init_solver_parameters (args : list value) (kwargs : dict)
  : solver_parameters * dict :=
  let '(fa, kwargs) := dict_pop "forward_args" (PList []) kwargs in
  let '(fk, kwargs) := dict_pop "forward_kwargs" (PDict ∅) kwargs in
  let '(aa, kwargs) := dict_pop "adj_args" (PList []) kwargs in
  let '(ak, kwargs) := dict_pop "adj_kwargs" (PDict ∅) kwargs in
  ({| sp_forward_args := fa; sp_forward_kwargs := fk; sp_adj_args := aa;
      sp_adj_kwargs := ak; sp_assemble_kwargs := ∅ |}, kwargs).

(** [SolveLinearSystemBlock._init_solver_parameters]; [args] is the tuple
    of the remaining positional arguments. *)
Definition linear_system_init_solver_parameters (args : list value) (kwargs : dict)
  : result (solver_parameters * dict) :=
  let '(sp, kwargs) := generic_init_solver_parameters args kwargs in
  n <~ py_len (sp_forward_args sp) ;;
  let fa := if n <=? 0 then PTuple args else sp_forward_args sp in
  n <~ py_len (sp_adj_args sp) ;;
  let aa := if n <=? 0 then fa else sp_adj_args sp in
  Ok ({| sp_forward_args := fa; sp_forward_kwargs := sp_forward_kwargs sp;
         sp_adj_args := aa; sp_adj_kwargs := sp_adj_kwargs sp;
         sp_assemble_kwargs := sp_assemble_kwargs sp |}, kwargs).

(** [SolveVarFormBlock._init_solver_parameters] *)
Definition var_form_init_solver_parameters (args : list value) (kwargs : dict)
  : result (solver_parameters * dict) :=
  let '(sp, kwargs) := generic_init_solver_parameters args kwargs in
  n <~ py_len (sp_forward_args sp) ;;
  let fa := if n <=? 0 then PTuple args else sp_forward_args sp in
  n <~ py_len (sp_forward_kwargs sp) ;;
  let fk := if n <=? 0 then PDict kwargs else sp_forward_kwargs sp in
  has_parameters <~ py_in "solver_parameters" fk ;;
  asm <~ (if has_parameters then
            params <~ subscript fk "solver_parameters" ;;
            has_mat_type <~ py_in "mat_type" params ;;
            if has_mat_type then
              mat_type <~ subscript params "mat_type" ;;
              Ok (<["mat_type" := mat_type]> (sp_assemble_kwargs sp))
            else Ok (sp_assemble_kwargs sp)
          else Ok (sp_assemble_kwargs sp)) ;;
  n <~ py_len (sp_adj_kwargs sp) ;;
  adj <~
    (if n <=? 0 then
       let solver_parameters := default (PDict ∅) (kwargs !! "solver_parameters") in
       has_linear_solver <~ py_in "linear_solver" solver_parameters ;;
       aa <~ (if has_linear_solver then
                linear_solver <~ subscript solver_parameters "linear_solver" ;;
                has_preconditioner <~ py_in "preconditioner" solver_parameters ;;
                if has_preconditioner then
                  preconditioner <~ subscript solver_parameters "preconditioner" ;;
                  Ok (PTuple [linear_solver; preconditioner])
                else Ok (PTuple [linear_solver])
              else Ok (sp_adj_args sp)) ;;
       Ok (aa, solver_parameters)
     else Ok (sp_adj_args sp, sp_adj_kwargs sp)) ;;
  Ok ({| sp_forward_args := fa; sp_forward_kwargs := fk; sp_adj_args := fst adj;
         sp_adj_kwargs := snd adj; sp_assemble_kwargs := asm |}, kwargs).

(** [self._init_solver_parameters(args, kwargs)], by the class of [self]. *)
Definition _init_solver_parameters (cls : block_class) (args : list value)
    (kwargs : dict) : result (solver_parameters * dict) :=
  match cls with
  | GenericSolveBlock => Ok (generic_init_solver_parameters args kwargs)
  | SolveLinearSystemBlock => linear_system_init_solver_parameters args kwargs
  | SolveVarFormBlock => var_form_init_solver_parameters args kwargs
  end.

(** [GenericSolveBlock.__init__(self, lhs, rhs, func, bcs, *args, **kwargs)]
    for a block of class [cls]; [block_variable] is the block variable that
    each object carries. *)
Definition GenericSolveBlock__init__ (cls : block_class)
    (block_variable : value -> BlockVariable)
    (lhs rhs func bcs : value) (args : list value) (kwargs : dict)
  : result SolveBlock :=
  let '(adj_cb, kwargs) := dict_pop "adj_cb" PNone kwargs in
  let '(adj_bdy_cb, kwargs) := dict_pop "adj_bdy_cb" PNone kwargs in
  let '(adj2_cb, kwargs) := dict_pop "adj2_cb" PNone kwargs in
  let '(adj2_bdy_cb, kwargs) := dict_pop "adj2_bdy_cb" PNone kwargs in
  let function_space := PObj (function_space_of func) in
  let bcs := if is_none bcs then [] else Enlist bcs in
  let linear := isinstance lhs Form && isinstance rhs Form in
  let deps :=
    if linear
    then fold_left (add_dependency block_variable true) (coefficients rhs) []
    else [] in
  let deps := fold_left (add_dependency block_variable true) (coefficients lhs) deps in
  let deps := fold_left (add_dependency block_variable true) bcs deps in
  let mesh := if negb is_firedrake
              then PObj (ufl_cargo (PObj (ufl_domain lhs)))
              else PObj (ufl_domain lhs) in
  let deps := add_dependency block_variable false deps mesh in
  r <~ _init_solver_parameters cls args kwargs ;;
  let sp := fst r in
  Ok {| class_of := cls;
        adj_cb := adj_cb; adj_bdy_cb := adj_bdy_cb;
        adj2_cb := adj2_cb; adj2_bdy_cb := adj2_bdy_cb;
        adj_sol := PNone;
        forward_args := sp_forward_args sp; forward_kwargs := sp_forward_kwargs sp;
        adj_args := sp_adj_args sp; adj_kwargs := sp_adj_kwargs sp;
        assemble_kwargs := sp_assemble_kwargs sp;
        lhs := lhs; rhs := rhs; func := func; function_space := function_space;
        bcs := bcs; linear := linear;
        _dependencies := deps; _outputs := [];
        ident_zeros_tol := PNone; assemble_system_flag := PBool false |}.

Definition set_linear_system_attributes (tol flag : value) (b : SolveBlock) : SolveBlock :=
  {| class_of := class_of b; adj_cb := adj_cb b; adj_bdy_cb := adj_bdy_cb b;
     adj2_cb := adj2_cb b; adj2_bdy_cb := adj2_bdy_cb b; adj_sol := adj_sol b;
     forward_args := forward_args b; forward_kwargs := forward_kwargs b;
     adj_args := adj_args b; adj_kwargs := adj_kwargs b;
     assemble_kwargs := assemble_kwargs b; lhs := lhs b; rhs := rhs b;
     func := func b; function_space := function_space b; bcs := bcs b;
     linear := linear b; _dependencies := _dependencies b;
     _outputs := _outputs b; ident_zeros_tol := tol;
     assemble_system_flag := flag |}.

(** [super().__init__(lhs, rhs, func, bcs, *args, **kwargs)]: the four
    parameters are given by position, so that a keyword of one of their
    names would be a second value for it. *)
Definition super__init__ (cls : block_class) (block_variable : value -> BlockVariable)
    (lhs rhs func bcs : value) (args : list value) (kwargs : dict)
  : result SolveBlock :=
  if existsb (fun name => bool_decide (is_Some (kwargs !! name)))
             ["self"; "lhs"; "rhs"; "func"; "bcs"]
  then Raise TypeError
  else GenericSolveBlock__init__ cls block_variable lhs rhs func bcs args kwargs.

(** [SolveLinearSystemBlock.__init__(self, A, u, b, *args, **kwargs)] *)
Definition SolveLinearSystemBlock__init__ (block_variable : value -> BlockVariable)
    (A u b : value) (args : list value) (kwargs : dict) : result SolveBlock :=
  lhs <~ getattr A "form" ;;
  func <~ getattr u "function" ;;
  rhs <~ getattr b "form" ;;
  let bcs := getattr_or A "bcs" (PList []) in
  self <~ super__init__ SolveLinearSystemBlock block_variable
            lhs rhs func bcs args kwargs ;;
  let tol := getattr_or A "ident_zeros_tol" PNone in
  let flag := getattr_or A "assemble_system" (PBool false) in
  Ok (set_linear_system_attributes tol flag self).

(** [SolveVarFormBlock.__init__(self, equation, func, bcs=[], *args, **kwargs)] *)
Definition SolveVarFormBlock__init__ (block_variable : value -> BlockVariable)
    (equation func bcs : value) (args : list value) (kwargs : dict)
  : result SolveBlock :=
  lhs <~ getattr equation "lhs" ;;
  rhs <~ getattr equation "rhs" ;;
  super__init__ SolveVarFormBlock block_variable lhs rhs func bcs args kwargs.

(** The value that a call with [args] and [kwargs] binds to the parameter
    [name] at position [i] (counted after [self]): the positional
    argument, or the keyword, or the default; two values or none are a
    TypeError. *)
Definition parameter (name : string) (i : nat) (dflt : option value)
    (args : list value) (kwargs : dict) : result value :=
  match args !! i, kwargs !! name with
  | Some _, Some _ => Raise TypeError
  | Some v, None => Ok v
  | None, Some v => Ok v
  | None, None =>
      match dflt with
      | Some d => Ok d
      | None => Raise TypeError
      end
  end.

(** [solve_block_type] called with [args] and [kwargs]: the arguments are
    bound to the parameters of the constructor, the remaining ones are its
    [args] and [kwargs]. *)
Definition construct (cls : block_class) (block_variable : value -> BlockVariable)
    (args : list value) (kwargs : dict) : result SolveBlock :=
  if bool_decide (is_Some (kwargs !! "self")) then Raise TypeError
  else
    match cls with
    | SolveVarFormBlock =>
        equation <~ parameter "equation" 0 None args kwargs ;;
        func <~ parameter "func" 1 None args kwargs ;;
        bcs <~ parameter "bcs" 2 (Some (PList [])) args kwargs ;;
        SolveVarFormBlock__init__ block_variable equation func bcs (drop 3 args)
          (delete "bcs" (delete "func" (delete "equation" kwargs)))
    | SolveLinearSystemBlock =>
        A <~ parameter "A" 0 None args kwargs ;;
        u <~ parameter "u" 1 None args kwargs ;;
        b <~ parameter "b" 2 None args kwargs ;;
        SolveLinearSystemBlock__init__ block_variable A u b (drop 3 args)
          (delete "b" (delete "u" (delete "A" kwargs)))
    | GenericSolveBlock =>
        lhs <~ parameter "lhs" 0 None args kwargs ;;
        rhs <~ parameter "rhs" 1 None args kwargs ;;
        func <~ parameter "func" 2 None args kwargs ;;
        bcs <~ parameter "bcs" 3 None args kwargs ;;
        GenericSolveBlock__init__ GenericSolveBlock block_variable lhs rhs func bcs
          (drop 4 args)
          (delete "bcs" (delete "func" (delete "rhs" (delete "lhs" kwargs))))
    end.

(** Calls that leave the block: solver invocations and the user's
    callbacks. *)
Inductive event : Type :=
| BackendSolve (args : list value) (kwargs : dict)  (* backend.solve *)
| LinalgSolve (args : list value) (kwargs : dict)   (* compat.linalg_solve *)
| SolverSolve (solver : value) (parameters : value) (args : list value)
| Callback (f : value) (arg : value).

(** The world of a method call: the block [self] and the calls made. *)
Record Running := {
  self : SolveBlock;
  calls : list event
}.

Definition log (e : event) : M Running unit :=
  modify (fun w => {| self := self w; calls := calls w ++ [e] |}).

(** [dict[key] = v] for a dict keyed by objects, in insertion order. *)
Definition dict_assign (key v : value) (d : list (value * value))
  : list (value * value) :=
  if existsb (fun e => py_eq (fst e) key) d
  then map (fun e => if py_eq (fst e) key then (fst e, v) else e) d
  else d ++ [(key, v)].

Definition _replace_map (self : SolveBlock) (form : value) : list (value * value) :=
  fold_left
    (fun replace_coeffs block_variable =>
       let coeff := output block_variable in
       if existsb (py_eq coeff) (coefficients form)
       then dict_assign coeff (saved_output block_variable) replace_coeffs
       else replace_coeffs)
    (get_dependencies self) [].

Definition _create_F_form (self : SolveBlock) : result value :=
  let tmp_u := if linear self
               then PObj (create_function (function_space self))
               else func self in
  let F_form := if linear self
                then PObj (sub (PObj (action (lhs self) tmp_u)) (rhs self))
                else lhs self in
  let replace_map := _replace_map self F_form in
  out <~ getitem (get_outputs self) 0 ;;
  let replace_map := dict_assign tmp_u (saved_output out) replace_map in
  Ok (PObj (ufl_replace F_form replace_map)).

Definition _homogenize_bcs (self : SolveBlock) : list value :=
  map (fun bc => if isinstance bc DirichletBC
                 then PObj (create_bc bc PNone (PBool true))
                 else bc)
      (bcs self).

Definition _should_compute_boundary_adjoint
    (relevant_dependencies : list (value * BlockVariable)) : bool :=
  existsb (fun dep => isinstance (output (snd dep)) DirichletBC)
          relevant_dependencies.

(** [GenericSolveBlock._assemble_and_solve_adj_eq] *)
Definition generic_assemble_and_solve_adj_eq
    (dFdu_adj_form dJdu : value) (compute_bdy : bool) : M Running (value * value) :=
  self <- gets self ;;
  let dJdu_copy := PObj (copy dJdu) in
  let kwargs := assemble_kwargs self in
  let bcs := _homogenize_bcs self in
  let kwargs := <["bcs" := PList bcs]> kwargs in
  let dFdu := PObj (assemble_adjoint_value dFdu_adj_form kwargs) in
  let dJdu := fold_left (fun v bc => PObj (bc_apply bc v)) bcs dJdu in
  let adj_sol := PObj (create_function (function_space self)) in
  adj_args <- lift (star_args (adj_args self)) ;;
  adj_kwargs <- lift (entries_of (adj_kwargs self)) ;;
  log (LinalgSolve ([dFdu; PObj (vector adj_sol); dJdu] ++ adj_args) adj_kwargs) ;;;
  let adj_sol := PObj (solution dFdu adj_sol dJdu adj_args adj_kwargs) in
  let adj_sol_bdy :=
    if compute_bdy
    then PObj (function_from_vector (function_space self)
                 (PObj (sub dJdu_copy
                          (PObj (assemble_adjoint_value
                                   (PObj (action dFdu_adj_form adj_sol)) ∅)))))
    else PNone in
  ret (adj_sol, adj_sol_bdy).

(** [SolveLinearSystemBlock._assemble_and_solve_adj_eq] *)
Definition linear_system_assemble_and_solve_adj_eq
    (dFdu_adj_form dJdu : value) (compute_bdy : bool) : M Running (value * value) :=
  self <- gets self ;;
  let dJdu_copy := PObj (copy dJdu) in
  let bcs := _homogenize_bcs self in
  A <- (if truthy (assemble_system_flag self) then
          v <- lift (getitem (arguments dFdu_adj_form) 0) ;;
          let rhs_bcs_form :=
            PObj (mul (PObj (inner (PObj (backend_Function (function_space self))) v))
                      (PObj dx)) in
          ret (PObj (fst (assemble_system dFdu_adj_form rhs_bcs_form bcs)))
        else
          ret (fold_left (fun A bc => PObj (bc_apply bc A)) bcs
                         (PObj (assemble dFdu_adj_form)))) ;;
  let dJdu := fold_left (fun v bc => PObj (bc_apply bc v)) bcs dJdu in
  let adj_sol := PObj (create_function (function_space self)) in
  adj_args <- lift (star_args (adj_args self)) ;;
  adj_kwargs <- lift (entries_of (adj_kwargs self)) ;;
  log (LinalgSolve ([A; PObj (vector adj_sol); dJdu] ++ adj_args) adj_kwargs) ;;;
  let adj_sol := PObj (solution A adj_sol dJdu adj_args adj_kwargs) in
  let adj_sol_bdy :=
    if compute_bdy
    then PObj (function_from_vector (function_space self)
                 (PObj (sub dJdu_copy
                          (PObj (assemble_adjoint_value
                                   (PObj (action dFdu_adj_form adj_sol)) ∅)))))
    else PNone in
  ret (adj_sol, adj_sol_bdy).

(** [SolveVarFormBlock._assemble_and_solve_adj_eq] *)
Definition var_form_assemble_and_solve_adj_eq
    (dFdu_adj_form dJdu : value) (compute_bdy : bool) : M Running (value * value) :=
  self <- gets self ;;
  let dJdu_copy := PObj (copy dJdu) in
  let dFdu := PObj (assemble_adjoint_value dFdu_adj_form (assemble_kwargs self)) in
  let bcs := _homogenize_bcs self in
  let applied :=
    fold_left (fun Ab bc => let r := bc_apply2 bc (fst Ab) (snd Ab) in
                            (PObj (fst r), PObj (snd r)))
              bcs (dFdu, dJdu) in
  let dFdu := fst applied in
  let dJdu := snd applied in
  let adj_sol := PObj (create_function (function_space self)) in
  n <- lift (py_len (adj_args self)) ;;
  solver_method <- (if 1 <=? n then lift (py_first (adj_args self))
                    else ret (PStr "default")) ;;
  let solver_method := if py_eq solver_method (PStr "lu")
                       then PStr "default" else solver_method in
  let is_lu := match solver_method with
               | PStr name => bool_decide (name ∈ lu_solver_methods)
               | _ => false
               end in
  configured <-
    (if is_lu then
       solver_parameters <- lift (py_get (adj_kwargs self) "lu_solver" (PDict ∅)) ;;
       ret (LUSolver solver_method, solver_parameters)
     else
       adj_args <- lift (star_args (adj_args self)) ;;
       solver_parameters <- lift (py_get (adj_kwargs self) "krylov_solver" (PDict ∅)) ;;
       ret (KrylovSolver adj_args, solver_parameters)) ;;
  let solver := fst configured in
  let solver_parameters := snd configured in
  log (SolverSolve (PObj solver) solver_parameters
         [dFdu; PObj (vector adj_sol); dJdu]) ;;;
  let adj_sol := PObj (solver_solve solver solver_parameters dFdu adj_sol dJdu) in
  let adj_sol_bdy :=
    if compute_bdy
    then PObj (function_from_vector (function_space self)
                 (PObj (sub dJdu_copy
                          (PObj (assemble_adjoint_value
                                   (PObj (action dFdu_adj_form adj_sol)) ∅)))))
    else PNone in
  ret (adj_sol, adj_sol_bdy).

(** [self._assemble_and_solve_adj_eq(...)], by the class of [self]. *)
Definition _assemble_and_solve_adj_eq
    (dFdu_adj_form dJdu : value) (compute_bdy : bool) : M Running (value * value) :=
  self <- gets self ;;
  match class_of self with
  | GenericSolveBlock => generic_assemble_and_solve_adj_eq dFdu_adj_form dJdu compute_bdy
  | SolveLinearSystemBlock =>
      linear_system_assemble_and_solve_adj_eq dFdu_adj_form dJdu compute_bdy
  | SolveVarFormBlock => var_form_assemble_and_solve_adj_eq dFdu_adj_form dJdu compute_bdy
  end.

(** [callback(arg)] if a callback was given. *)
Definition call_if_given (callback arg : value) (enabled : bool) : M Running unit :=
  if negb (is_none callback) && enabled then log (Callback callback arg) else ret tt.

Definition prepare_evaluate_adj (inputs adj_inputs : list value)
    (relevant_dependencies : list (value * BlockVariable)) : M Running value :=
  self0 <- gets self ;;
  fwd_block_variable <- lift (getitem (get_outputs self0) 0) ;;
  let u := output fwd_block_variable in
  dJdu <- lift (getitem adj_inputs 0) ;;
  F_form <- lift (_create_F_form self0) ;;
  let dFdu := PObj (derivative F_form (saved_output fwd_block_variable)
                      (PObj (TrialFunction (PObj (function_space_of u))))) in
  let dFdu_form := PObj (adjoint dFdu) in
  let dJdu := PObj (copy dJdu) in
  let compute_bdy := _should_compute_boundary_adjoint relevant_dependencies in
  sols <- _assemble_and_solve_adj_eq dFdu_form dJdu compute_bdy ;;
  let adj_sol := fst sols in
  let adj_sol_bdy := snd sols in
  modify (fun w => {| self := set_adj_sol adj_sol (self w); calls := calls w |}) ;;;
  call_if_given (adj_cb self0) adj_sol true ;;;
  call_if_given (adj_bdy_cb self0) adj_sol_bdy compute_bdy ;;;
  ret (PDict (<["form" := F_form]>
              (<["adj_sol" := adj_sol]>
               (<["adj_sol_bdy" := adj_sol_bdy]> ∅)))).

Definition evaluate_adj_component (self : SolveBlock)
    (inputs adj_inputs : list value) (block_variable : BlockVariable) (idx : nat)
    (prepared : value) : result value :=
  if negb (linear self) && py_eq (func self) (output block_variable) then
    (* We are not able to calculate derivatives wrt initial guess. *)
    Ok PNone
  else
    F_form <~ subscript prepared "form" ;;
    adj_sol <~ subscript prepared "adj_sol" ;;
    adj_sol_bdy <~ subscript prepared "adj_sol_bdy" ;;
    let c := output block_variable in
    let c_rep := saved_output block_variable in
    (* the tail shared by the branches that only choose a trial function *)
    let finish (trial_function : value) (c_fs : option value) : result value :=
      let dFdm := PObj (neg (PObj (derivative F_form c_rep trial_function))) in
      let dFdm := PObj (adjoint dFdm) in
      let dFdm := PObj (mul dFdm adj_sol) in
      let dFdm := PObj (assemble_adjoint_value dFdm (assemble_kwargs self)) in
      if isinstance c ExpressionType then
        match c_fs with
        | Some c_fs => Ok (PList [PList [dFdm; c_fs]])
        | None => Raise (UnboundLocalError "c_fs")
        end
      else Ok dFdm in
    if isinstance c Function then
      finish (PObj (TrialFunction (PObj (function_space_of c)))) None
    else if isinstance c Constant then
      let mesh := PObj (extract_mesh_from_form F_form) in
      finish (PObj (TrialFunction (PObj (_ad_function_space c [mesh])))) None
    else if isinstance c ExpressionType then
      let mesh := PObj (ufl_cargo (PObj (ufl_domain F_form))) in
      let c_fs := PObj (_ad_function_space c [mesh]) in
      finish (PObj (TrialFunction c_fs)) (Some c_fs)
    else if isinstance c DirichletBC then
      let tmp_bc :=
        PObj (create_bc c
                (PObj (extract_subfunction adj_sol_bdy (PObj (function_space_of c))))
                PNone) in
      Ok (PList [tmp_bc])
    else if isinstance c MeshType then
      let F_form_tmp := PObj (action F_form adj_sol) in
      let X := PObj (SpatialCoordinate c_rep) in
      let dFdm := PObj (derivative (PObj (neg F_form_tmp)) X
                          (PObj (TestFunction (PObj (_ad_function_space c []))))) in
      let dFdm := PObj (assemble_adjoint_value dFdm (assemble_kwargs self)) in
      Ok dFdm
    else Raise (UnboundLocalError "trial_function").

Definition prepare_evaluate_tlm (self : SolveBlock) (inputs tlm_inputs : list value)
    (relevant_outputs : list (value * BlockVariable)) : result value :=
  fwd_block_variable <~ getitem (get_outputs self) 0 ;;
  let u := output fwd_block_variable in
  F_form <~ _create_F_form self ;;
  let dFdu := PObj (derivative F_form (saved_output fwd_block_variable)
                      (PObj (TrialFunction (PObj (function_space_of u))))) in
  Ok (PDict (<["form" := F_form]> (<["dFdu" := dFdu]> ∅))).

Definition _assembled_solve (lhs rhs func : value) (bcs : list value) (kwargs : dict)
  : M Running value :=
  let rhs := fold_left (fun v bc => PObj (bc_apply bc v)) bcs rhs in
  log (BackendSolve [lhs; PObj (vector func); rhs] kwargs) ;;;
  ret (PObj (solution lhs func rhs [] kwargs)).

Definition _assemble_and_solve_tlm_eq (dFdu dFdm dudm : value) (bcs : list value)
  : M Running value :=
  _assembled_solve dFdu dFdm dudm bcs ∅.

Definition is_float (v : value) : bool :=
  match v with PFloat _ => true | _ => false end.

(** One turn of the loop of [evaluate_tlm_component] over the dependencies;
    the state is the pair of [bcs] and [dFdm]. *)
Definition tlm_step (self : SolveBlock) (F_form : value)
    (state : list value * value) (block_variable : BlockVariable)
  : list value * value :=
  let '(bcs, dFdm) := state in
  let tlm_value := tlm_value block_variable in
  let c := output block_variable in
  let c_rep := saved_output block_variable in
  if isinstance c DirichletBC then
    if is_none tlm_value
    then (bcs ++ [PObj (create_bc c PNone (PBool true))], dFdm)
    else (bcs ++ [tlm_value], dFdm)
  else
    let c_rep := if isinstance c MeshType then PObj (SpatialCoordinate c) else c_rep in
    if is_none tlm_value then (bcs, dFdm)
    else if py_eq c (func self) && negb (linear self) then (bcs, dFdm)
    else (bcs, py_add dFdm (PObj (derivative (PObj (neg F_form)) c_rep tlm_value))).

(** The boundary conditions that the loop over the dependencies collects:
    for each boundary-condition dependency its tangent-linear value, or
    the homogenized condition when it has none. *)
Fixpoint tangent_bcs (deps : list BlockVariable) : list value :=
  match deps with
  | [] => []
  | d :: rest =>
      if isinstance (output d) DirichletBC
      then (if is_none (tlm_value d)
            then PObj (create_bc (output d) PNone (PBool true))
            else tlm_value d) :: tangent_bcs rest
      else tangent_bcs rest
  end.

(** A dependency adds no term when it is a boundary condition, carries no
    tangent-linear value, or is the unknown of a nonlinear residual. *)
Definition adds_no_term (self : SolveBlock) (d : BlockVariable) : Prop :=
  isinstance (output d) DirichletBC = true
  \/ is_none (tlm_value d) = true
  \/ py_eq (output d) (func self) && negb (linear self) = true.

(** A value that is the float zero or a backend object. *)
Definition float_or_object (v : value) : Prop :=
  v = PFloat 0 \/ exists o, v = PObj o.


(** The boundary adjoint solution: the seed as it was handed in, minus the
    action of the transposed Jacobian on the adjoint solution, as a
    function of the space of the unknown. *)
Definition boundary_adjoint (self : SolveBlock) (dFdu_adj_form dJdu adj_sol : value)
  : value :=
  PObj (function_from_vector (function_space self)
          (PObj (sub (PObj (copy dJdu))
                     (PObj (assemble_adjoint_value
                              (PObj (action dFdu_adj_form adj_sol)) ∅))))).

(** The right-hand side that stands in when no dependency contributed:
    [inner(Constant(numpy.zeros(v.ufl_shape)), v) * dx]. *)
Definition zero_rhs (v : value) : value :=
  PObj (mul (PObj (inner (PObj (backend_Constant (PObj (numpy_zeros (PObj (ufl_shape v))))))
                         v))
            (PObj dx)).

Definition evaluate_tlm_component (inputs tlm_inputs : list value)
    (block_variable : BlockVariable) (idx : nat) (prepared : value)
  : M Running value :=
  self <- gets self ;;
  F_form <- lift (subscript prepared "form") ;;
  dFdu <- lift (subscript prepared "dFdu") ;;
  out <- lift (getitem (get_outputs self) idx) ;;
  let V := PObj (function_space_of (output out)) in
  let '(bcs, dFdm) :=
    fold_left (tlm_step self F_form) (get_dependencies self) ([], PFloat 0) in
  dFdm <- (if is_float dFdm then
             v <- lift (getitem (arguments dFdu) 0) ;;
             ret (zero_rhs v)
           else ret dFdm) ;;
  let dFdm := PObj (expand_derivatives dFdm) in
  let dFdm := PObj (assemble_adjoint_value dFdm ∅) in
  let dudm := PObj (backend_Function V) in
  _assemble_and_solve_tlm_eq
    (PObj (assemble_adjoint_value dFdu (<["bcs" := PList bcs]> ∅))) dFdm dudm bcs.

(** One turn of the loop of [_assemble_soa_eq_rhs] over the dependencies. *)
Definition soa_step (self : SolveBlock) (dFdu_form adj_sol : value)
    (b_form : value) (bo : BlockVariable) : value :=
  let c := output bo in
  let c_rep := saved_output bo in
  let tlm_input := tlm_value bo in
  if (py_eq c (func self) && negb (linear self)) || is_none tlm_input then b_form
  else if isinstance c MeshType then
    let X := PObj (SpatialCoordinate c) in
    let dFdu_adj := PObj (action (PObj (adjoint dFdu_form)) adj_sol) in
    let d2Fdudm := PObj (expand_derivatives (PObj (derivative dFdu_adj X tlm_input))) in
    if 0 <? length (integrals d2Fdudm) then PObj (add b_form d2Fdudm) else b_form
  else if negb (isinstance c DirichletBC) then
    let dFdu_adj := PObj (action (PObj (adjoint dFdu_form)) adj_sol) in
    PObj (add b_form (PObj (derivative dFdu_adj c_rep tlm_input)))
  else b_form.

Definition _assemble_soa_eq_rhs (self : SolveBlock)
    (dFdu_form adj_sol hessian_input d2Fdu2 : value) : value :=
  (* Start piecing together the rhs of the soa equation *)
  let b := PObj (copy hessian_input) in
  let b_form := if 0 <? length (integrals d2Fdu2)
                then PObj (action (PObj (adjoint d2Fdu2)) adj_sol)
                else d2Fdu2 in
  let b_form := fold_left (soa_step self dFdu_form adj_sol) (get_dependencies self) b_form in
  let b_form := PObj (expand_derivatives b_form) in
  if 0 <? length (integrals b_form)
  then PObj (sub b (PObj (assemble_adjoint_value b_form ∅)))
  else b.

Definition _assemble_and_solve_soa_eq
    (dFdu_form adj_sol hessian_input d2Fdu2 : value) (compute_bdy : bool)
  : M Running (value * value) :=
  self <- gets self ;;
  let b := _assemble_soa_eq_rhs self dFdu_form adj_sol hessian_input d2Fdu2 in
  let dFdu_form := PObj (adjoint dFdu_form) in
  sols <- _assemble_and_solve_adj_eq dFdu_form b compute_bdy ;;
  let adj_sol2 := fst sols in
  let adj_sol2_bdy := snd sols in
  call_if_given (adj2_cb self) adj_sol2 true ;;;
  call_if_given (adj2_bdy_cb self) adj_sol2_bdy compute_bdy ;;;
  ret (adj_sol2, adj_sol2_bdy).

Definition prepare_evaluate_hessian (inputs hessian_inputs adj_inputs : list value)
    (relevant_dependencies : list (value * BlockVariable)) : M Running value :=
  self <- gets self ;;
  (* First fetch all relevant values *)
  fwd_block_variable <- lift (getitem (get_outputs self) 0) ;;
  hessian_input <- lift (getitem hessian_inputs 0) ;;
  let tlm_output := tlm_value fwd_block_variable in
  if is_none hessian_input then ret PNone
  else if is_none tlm_output then ret PNone
  else
    F_form <- lift (_create_F_form self) ;;
    let dFdu_form := PObj (derivative F_form (saved_output fwd_block_variable) PNone) in
    let d2Fdu2 :=
      PObj (expand_derivatives
              (PObj (derivative dFdu_form (saved_output fwd_block_variable) tlm_output))) in
    let adj_sol := adj_sol self in
    if is_none adj_sol then
      raise (RuntimeError "Hessian computation was run before adjoint.")
    else
      let bdy := _should_compute_boundary_adjoint relevant_dependencies in
      sols <- _assemble_and_solve_soa_eq dFdu_form adj_sol hessian_input d2Fdu2 bdy ;;
      let adj_sol2 := fst sols in
      let adj_sol2_bdy := snd sols in
      ret (PDict (<["adj_sol2" := adj_sol2]>
                  (<["adj_sol2_bdy" := adj_sol2_bdy]>
                   (<["form" := F_form]>
                    (<["adj_sol" := adj_sol]> ∅))))).

(** One turn of the loop of [evaluate_hessian_component] over the relevant
    dependencies, which adds the terms d^2F/dm_1dm_2. *)
Definition cross_term_step (self : SolveBlock) (dFdm_adj : value)
    (d2Fdm2 : value) (dep : value * BlockVariable) : value :=
  let bv := snd dep in
  let c2 := output bv in
  let c2_rep := saved_output bv in
  if isinstance c2 DirichletBC then d2Fdm2
  else
    let tlm_input := tlm_value bv in
    if is_none tlm_input then d2Fdm2
    else if py_eq c2 (func self) && negb (linear self) then d2Fdm2
    else if isinstance c2_rep MeshType then
      let X := PObj (SpatialCoordinate c2_rep) in
      py_add d2Fdm2 (PObj (expand_derivatives (PObj (derivative dFdm_adj X tlm_input))))
    else
      py_add d2Fdm2 (PObj (expand_derivatives (PObj (derivative dFdm_adj c2_rep tlm_input)))).

Definition evaluate_hessian_component (self : SolveBlock)
    (inputs hessian_inputs adj_inputs : list value)
    (block_variable : BlockVariable) (idx : nat)
    (relevant_dependencies : list (value * BlockVariable)) (prepared : value)
  : result value :=
  let c := output block_variable in
  if py_eq c (func self) && negb (linear self) then Ok PNone
  else
    adj_sol2 <~ subscript prepared "adj_sol2" ;;
    adj_sol2_bdy <~ subscript prepared "adj_sol2_bdy" ;;
    F_form <~ subscript prepared "form" ;;
    adj_sol <~ subscript prepared "adj_sol" ;;
    fwd_block_variable <~ getitem (get_outputs self) 0 ;;
    let tlm_output := tlm_value fwd_block_variable in
    let c_rep := saved_output block_variable in
    (* If m = DirichletBC then d^2F(u,m)/dm^2 = 0 and d^2F(u,m)/dudm = 0,
       so we only have the term dF(u,m)/dm * adj_sol2 *)
    if isinstance c DirichletBC then
      let tmp_bc :=
        PObj (create_bc c
                (PObj (extract_subfunction adj_sol2_bdy (PObj (function_space_of c))))
                PNone) in
      Ok (PList [tmp_bc])
    else
      let '(W, X) :=
        if isinstance c_rep Constant then
          let mesh := PObj (extract_mesh_from_form F_form) in
          (PObj (_ad_function_space c [mesh]), None)
        else if isinstance c ExpressionType then
          let mesh := PObj (ufl_cargo (PObj (ufl_domain F_form))) in
          (PObj (_ad_function_space c [mesh]), None)
        else if isinstance c MeshType then
          (PObj (_ad_function_space c []), Some (PObj (SpatialCoordinate c)))
        else (PObj (function_space_of c), None) in
      let dc := PObj (TestFunction W) in
      let form_adj := PObj (action F_form adj_sol) in
      let form_adj2 := PObj (action F_form adj_sol2) in
      wrt <~ (if isinstance c MeshType
              then match X with
                   | Some X => Ok X
                   | None => Raise (UnboundLocalError "X")
                   end
              else Ok c_rep) ;;
      let dFdm_adj := PObj (derivative form_adj wrt dc) in
      let dFdm_adj2 := PObj (derivative form_adj2 wrt dc) in
      let d2Fdudm :=
        PObj (expand_derivatives
                (PObj (derivative dFdm_adj (saved_output fwd_block_variable) tlm_output))) in
      (* We need to add terms from every other dependency *)
      let d2Fdm2 :=
        fold_left (cross_term_step self dFdm_adj) relevant_dependencies (PInt 0) in
      let hessian_form :=
        PObj (expand_derivatives (py_add (py_add d2Fdm2 dFdm_adj2) d2Fdudm)) in
      let hessian_output :=
        if negb (form_empty hessian_form)
        then PObj (sub (PInt 0) (PObj (assemble_adjoint_value hessian_form ∅)))
        else PInt 0 in
      if isinstance c ExpressionType
      then Ok (PList [PTuple [hessian_output; W]])
      else Ok hessian_output.

(** *** The overloaded [solve] *)

(** The process: the working tape, the block objects it refers to, the
    block variable that each object carries, and the calls made. *)
Record World := {
  working_tape : list nat;                  (* addresses of blocks, in order *)
  heap : gmap nat SolveBlock;               (* the block objects *)
  block_variable_of : value -> BlockVariable;
  created_block_variables : nat;
  annotate_off : nat;
  backend_calls : list event
}.

#[global] Instance World_annotating : Annotating World := {
  stop_depth := annotate_off;
  set_stop_depth n w :=
    {| working_tape := working_tape w; heap := heap w;
       block_variable_of := block_variable_of w;
       created_block_variables := created_block_variables w;
       annotate_off := n; backend_calls := backend_calls w |}
}.

(** Modelled from the spec: [pyadjoint.tape.annotate_tape], which is not
    among the sources.  The [annotate] keyword (default [True]) is taken
    out of [kwargs]; inside [stop_annotating] the answer is no. *)
Definition annotate_tape (kwargs : dict) : M World (bool * dict) :=
  let '(annotate, kwargs) := dict_pop "annotate" (PBool true) kwargs in
  depth <- gets annotate_off ;;
  ret (if 0 <? depth then false else truthy annotate, kwargs).

Definition pop_kwargs_keys : list string :=
  ["adj_cb"; "adj_bdy_cb"; "adj2_cb"; "adj2_bdy_cb";
   "forward_args"; "forward_kwargs"; "adj_args"; "adj_kwargs"].

(** Modelled from the spec: [Block.pop_kwargs], which is not among the
    sources: the entries under [pop_kwargs_keys] are moved out of [kwargs]
    into a dict of their own. *)
Definition pop_kwargs (kwargs : dict) : dict * dict :=
  (filter (fun kv => kv.1 ∈ pop_kwargs_keys) kwargs,
   filter (fun kv => kv.1 ∉ pop_kwargs_keys) kwargs).

(** Modelled from the spec: [Tape.add_block], which is not among the
    sources: the block is appended to the tape. *)
Definition add_block (block : SolveBlock) : M World nat :=
  fun w =>
    let address := fresh (dom (heap w)) in
    (Ok address,
     {| working_tape := working_tape w ++ [address];
        heap := <[address := block]> (heap w);
        block_variable_of := block_variable_of w;
        created_block_variables := created_block_variables w;
        annotate_off := annotate_off w; backend_calls := backend_calls w |}).

(** Modelled from the spec: [OverloadedType.create_block_variable], which
    is not among the sources: a new block variable for the object replaces
    the one it carried. *)
Definition create_block_variable (x : value) : M World BlockVariable :=
  fun w =>
    let bv := {| bv_id := created_block_variables w; output := x;
                 saved_output := x; tlm_value := PNone |} in
    (Ok bv,
     {| working_tape := working_tape w; heap := heap w;
        block_variable_of := fun y => if py_eq y x then bv else block_variable_of w y;
        created_block_variables := S (created_block_variables w);
        annotate_off := annotate_off w; backend_calls := backend_calls w |}).

(** [block.add_output(bv)] on the block object at [address]. *)
Definition block_add_output (address : nat) (bv : BlockVariable) : M World unit :=
  modify (fun w =>
    {| working_tape := working_tape w;
       heap := alter (add_output bv) address (heap w);
       block_variable_of := block_variable_of w;
       created_block_variables := created_block_variables w;
       annotate_off := annotate_off w; backend_calls := backend_calls w |}).

(** [backend.solve] called with [args] and [kwargs]. *)
Definition call_backend_solve (args : list value) (kwargs : dict) : M World value :=
  modify (fun w =>
    {| working_tape := working_tape w; heap := heap w;
       block_variable_of := block_variable_of w;
       created_block_variables := created_block_variables w;
       annotate_off := annotate_off w;
       backend_calls := backend_calls w ++ [BackendSolve args kwargs] |}) ;;;
  ret (backend_solve args kwargs).

Definition solve (args : list value) (kwargs : dict) : M World value :=
  r <- annotate_tape kwargs ;;
  let annotate := fst r in
  let kwargs := snd r in
  r <- (if annotate then
          (* tape = get_working_tape() *)
          first <- lift (getitem args 0) ;;
          let solve_block_type :=
            if negb (isinstance first Equation)
            then SolveLinearSystemBlock else SolveVarFormBlock in
          let popped := pop_kwargs kwargs in
          let kwargs := snd popped in
          let sb_kwargs := kwargs ∪ fst popped in
          block_variable <- gets block_variable_of ;;
          block <- lift (construct solve_block_type block_variable args sb_kwargs) ;;
          address <- add_block block ;;
          ret (Some address, kwargs)
        else ret (None, kwargs)) ;;
  let block := fst r in
  let kwargs := snd r in
  output <- stop_annotating (call_backend_solve args kwargs) ;;
  match block with
  | Some address =>
      second <- lift (getitem args 1) ;;
      overloaded <-
        (if hasattr second "create_block_variable" then ret second
         else
           function <- lift (getattr second "function") ;;
           if hasattr function "create_block_variable" then ret function
           else raise AttributeError) ;;
      block_variable <- create_block_variable overloaded ;;
      block_add_output address block_variable
  | None => ret tt
  end ;;;
  ret output.

End Solving.

Arguments BlockVariable obj : clear implicits.
Arguments SolveBlock obj : clear implicits.
Arguments event obj : clear implicits.
Arguments Running obj : clear implicits.
Arguments World obj : clear implicits.

End Solving.

(** ** A symbolic number type

    Numbers as expressions over literals: every operation builds the
    expression it stands for, so a computed value can be read off as the
    formula that produced it.  Comparison is that of the literals. *)

Module Sym.

Inductive num : Type :=
| Lit (q : Q)
| Add (a b : num)
| Sub (a b : num)
| Mul (a b : num)
| Div (a b : num)
| Pow (a b : num)
| Abs (a : num)
| Log (a : num).

Definition lt (a b : num) : bool :=
  match a, b with
  | Lit x, Lit y => if Qlt_le_dec x y then true else false
  | _, _ => false
  end.

(** Arithmetic on literals is carried out on the rationals, in lowest
    terms; anything else stays an expression. *)
Definition lit (q : Q) : num := Lit (Qred q).

Definition binary (op : Q -> Q -> Q) (sym : num -> num -> num) (a b : num) : num :=
  match a, b with
  | Lit x, Lit y => lit (op x y)
  | _, _ => sym a b
  end.

Definition is_zero (a : num) : bool :=
  match a with
  | Lit x => Qeq_bool x 0
  | _ => false
  end.

Definition div (a b : num) : num :=
  if is_zero b then Div a b else binary Qdiv Div a b.

(** A power with an integer exponent. *)
Definition pow (a b : num) : num :=
  match a, b with
  | Lit x, Lit (Qmake n 1) => lit (Qpower x n)
  | _, _ => Pow a b
  end.

Definition abs (a : num) : num :=
  match a with
  | Lit x => lit (Qabs x)
  | _ => Abs a
  end.

(** Numbers that behave as Python's floats do on the inputs used below:
    a division by a literal zero raises. *)
#[global] Instance num_scalar : Scalar num := {
  fconst := lit; fadd := binary Qplus Add; fsub := binary Qminus Sub;
  fmul := binary Qmult Mul; fdiv := div; fpow := pow; fabs := abs;
  flog := Log; flt := lt; fzero_divisor := is_zero
}.

(** Numbers as their own control space, as for a float-valued control. *)
#[global] Instance num_overloaded : OverloadedType num num := {
  _ad_add := Add; _ad_mul := Mul; _ad_dot := Mul
}.

(** The functional [J(m) = m*m] of one control, with derivative [2*m] at
    the point of its latest evaluation. *)
Definition square (p : Verification.pyobj num) : num :=
  match p with
  | Verification.PyObj c => Mul c c
  | Verification.PyList (c :: _) | Verification.PyTuple (c :: _) => Mul c c
  | _ => Lit 0
  end.

Fixpoint latest_point (t : list (Verification.event num num))
  : option (Verification.pyobj num) :=
  match t with
  | [] => None
  | e :: rest =>
      match latest_point rest, e with
      | Some p, _ => Some p
      | None, Verification.CallJ p => Some p
      | None, _ => None
      end
  end.

Definition square_derivative (t : list (Verification.event num num))
  : Verification.pyobj num :=
  match latest_point t with
  | Some (Verification.PyObj c) => Verification.PyObj (Mul (Lit 2) c)
  | _ => Verification.PyObj (Lit 0)
  end.

Definition J_square (n_controls : nat) : Verification.ReducedFunctional num num := {|
  Verification.controls := repeat (Lit 1) n_controls;
  Verification.call := fun _ p => square p;
  Verification.derivative := square_derivative
|}.

(** The functional that is zero everywhere, with derivative zero. *)
Definition J_zero : Verification.ReducedFunctional num num := {|
  Verification.controls := [Lit 0];
  Verification.call := fun _ _ => Lit 0;
  Verification.derivative := fun _ => Verification.PyObj (Lit 0)
|}.

Definition world0 : Verification.World num num :=
  {| Verification.trace := []; Verification.annotate_off := 0 |}.

End Sym.

(** ** A symbolic backend

    Backend objects as terms: an object that the user made is named and
    carries its class and attributes, and every backend call builds the
    term of the call, so that a computed value can be read off as the
    expression that produced it. *)

Module SymBackend.

#[warnings="-register-all"]
Inductive term : Type :=
| Object (cls : option pyclass) (name : string) (attrs : gmap string (pyval term))
| Ap (op : string) (args : list (pyval term)) (kwargs : gmap string (pyval term)).

#[global] Instance pyclass_eq_dec : EqDecision pyclass.
Proof. solve_decision. Defined.

Definition ap (op : string) (args : list (pyval term)) : term := Ap op args ∅.

(** Named objects are equal when they are the same class and name. *)
Definition eqb (a b : term) : bool :=
  match a, b with
  | Object c n _, Object c' n' _ => bool_decide (c = c') && bool_decide (n = n')
  | _, _ => false
  end.

Definition attr (o : term) (name : string) : option (pyval term) :=
  match o with
  | Object _ _ attrs => attrs !! name
  | Ap _ _ _ => None
  end.

Definition list_attr (v : pyval term) (name : string) : list (pyval term) :=
  match v with
  | PObj o => match attr o name with
              | Some (PList l) => l
              | _ => []
              end
  | _ => []
  end.

#[global] Instance backend : Backend term := {
  obj_eqb := eqb;
  instance_of o cls :=
    match o with
    | Object c _ _ => bool_decide (c = Some cls)
    | Ap _ _ _ => false
    end;
  has_attr o name := bool_decide (is_Some (attr o name));
  get_attr o name := default (PObj (ap "getattr" [PObj o; PStr name])) (attr o name);
  is_firedrake := false;
  backend_solve args kwargs := PObj (Ap "backend.solve" args kwargs);
  solution A x b args kwargs := Ap "solution" (A :: x :: b :: args) kwargs;
  function_space_of a := ap "function_space" [a];
  coefficients a := list_attr a "coefficients";
  arguments a := list_attr a "arguments";
  integrals a := list_attr a "integrals";
  form_empty a := bool_decide (length (list_attr a "integrals") = 0);
  ufl_domain a := ap "ufl_domain" [a];
  ufl_cargo a := ap "ufl_cargo" [a];
  ufl_shape a := ap "ufl_shape" [a];
  vector a := ap "vector" [a];
  copy a := ap "copy" [a];
  _ad_function_space a args := ap "_ad_function_space" (a :: args);
  bc_apply bc a := ap "bc.apply" [bc; a];
  bc_apply2 bc a b := (ap "bc.apply:0" [bc; a; b], ap "bc.apply:1" [bc; a; b]);
  create_checkpoint a := ap "_ad_create_checkpoint" [a];
  neg a := ap "neg" [a];
  add a b := ap "add" [a; b];
  sub a b := ap "sub" [a; b];
  mul a b := ap "mul" [a; b];
  backend_Function V := ap "Function" [V];
  backend_Constant v := ap "Constant" [v];
  TrialFunction V := ap "TrialFunction" [V];
  TestFunction V := ap "TestFunction" [V];
  SpatialCoordinate m := ap "SpatialCoordinate" [m];
  action a b := ap "action" [a; b];
  adjoint a := ap "adjoint" [a];
  derivative a b c := ap "derivative" [a; b; c];
  inner a b := ap "inner" [a; b];
  dx := ap "dx" [];
  assemble a := ap "assemble" [a];
  assemble_system a b bcs :=
    (ap "assemble_system:0" [a; b; PList bcs], ap "assemble_system:1" [a; b; PList bcs]);
  lu_solver_methods := ["default"; "umfpack"; "mumps"; "superlu"; "petsc"];
  LUSolver m := ap "LUSolver" [m];
  KrylovSolver args := ap "KrylovSolver" args;
  solver_solve solver parameters A x b :=
    ap "solver.solve" [PObj solver; parameters; A; x; b];
  ufl_replace a m := ap "replace" [a; PList (map (fun kv => PTuple [kv.1; kv.2]) m)];
  expand_derivatives a := ap "expand_derivatives" [a];
  numpy_zeros a := ap "numpy.zeros" [a];
  create_function V := ap "create_function" [V];
  create_bc bc v homogenize := ap "create_bc" [bc; v; homogenize];
  assemble_adjoint_value a kwargs := Ap "assemble_adjoint_value" [a] kwargs;
  function_from_vector V v := ap "function_from_vector" [V; v];
  extract_mesh_from_form a := ap "extract_mesh_from_form" [a];
  extract_subfunction a V := ap "extract_subfunction" [a; V]
}.

(** The degree with which the object named [u] occurs in an expression
    built from sums, products and inner products. *)
Fixpoint degree (u : string) (t : term) : nat :=
  match t with
  | Object _ name _ => if bool_decide (name = u) then 1 else 0
  | Ap op [PObj a] _ =>
      if bool_decide (op = "neg") then degree u a else 0
  | Ap op [PObj a; PObj b] _ =>
      if bool_decide (op ∈ ["mul"; "inner"]) then degree u a + degree u b
      else if bool_decide (op ∈ ["add"; "sub"]) then degree u a `max` degree u b
      else 0
  | Ap _ _ _ => 0
  end.

(** A side of an equation is expression-linear in the unknown named [u]
    when [u] occurs in it with degree at most one; the side is a number, or
    a form, whose expression is its attribute [integrand]. *)
Definition expression_linear (u : string) (side : pyval term) : bool :=
  match side with
  | PInt _ | PFloat _ => true
  | PObj (Object (Some Form) _ attrs) =>
      match attrs !! "integrand" with
      | Some (PObj e) => degree u e <=? 1
      | _ => false
      end
  | _ => false
  end.

(** A named object of an overloaded class: it has the method
    [create_block_variable] and no other attribute. *)
Definition object (cls : pyclass) (name : string) : pyval term :=
  PObj (Object (Some cls) name (<["create_block_variable" := PStr "method"]> ∅)).

(** A form with the given integrand, coefficients and arguments, over one
    integral. *)
Definition form (name : string) (integrand : pyval term)
    (coeffs args : list (pyval term)) : pyval term :=
  PObj (Object (Some Form) name
          (<["integrand" := integrand]>
           (<["coefficients" := PList coeffs]>
            (<["arguments" := PList args]>
             (<["integrals" := PList [integrand]]> ∅))))).

(** An equation [lhs == rhs]. *)
Definition equation (lhs rhs : pyval term) : pyval term :=
  PObj (Object (Some Equation) "equation"
          (<["lhs" := lhs]> (<["rhs" := rhs]> ∅))).

(** The block variable that a named object carries before any solve: it
    holds the object as its value, and is identified by the number listed
    for the name. *)
Definition initial_block_variable (ids : gmap string nat) (x : pyval term)
  : Solving.BlockVariable term :=
  let id := match x with
            | PObj (Object _ name _) => default 0 (ids !! name)
            | _ => 0
            end in
  {| Solving.bv_id := id; Solving.output := x; Solving.saved_output := x;
     Solving.tlm_value := PNone |}.

(** A process in which nothing has been recorded yet. *)
Definition empty_world (ids : gmap string nat) : Solving.World term :=
  {| Solving.working_tape := []; Solving.heap := ∅;
     Solving.block_variable_of := initial_block_variable ids;
     Solving.created_block_variables := size ids;
     Solving.annotate_off := 0; Solving.backend_calls := [] |}.

(** *** Sample objects *)

(** The unknown [u], a test function [v], a source [f], a boundary
    condition and a mesh. *)
Definition u_ : pyval term := object Function "u".
Definition v_ : pyval term := object Function "v".
Definition f_ : pyval term := object Function "f".
Definition bc_ : pyval term := object DirichletBC "bc".
Definition mesh_ : pyval term := object MeshType "mesh".

(** The residual [inner(u, v)*dx], linear in [u], of the problem
    [inner(u, v)*dx == 0]. *)
Definition F_linear : pyval term := form "F" (PObj (inner u_ v_)) [u_] [v_].

(** The forms of the problem [a == L] with [a = inner(w, v)*dx] for the
    trial function [w], and [L = inner(f, v)*dx]. *)
Definition trial_ : pyval term := object Function "w".
Definition a_form : pyval term := form "a" (PObj (inner trial_ v_)) [] [v_; trial_].
Definition L_form : pyval term := form "L" (PObj (inner f_ v_)) [f_] [v_].

(** A Jacobian form with its test and trial function as arguments. *)
Definition dFdu_ : pyval term :=
  form "dFdu" (PObj (inner (object Function "du") v_)) [] [v_; object Function "du"].

Definition block_variable (id : nat) (x tlm : pyval term) : Solving.BlockVariable term :=
  {| Solving.bv_id := id; Solving.output := x; Solving.saved_output := x;
     Solving.tlm_value := tlm |}.

(** A block for [F_linear == 0] with the given flag, dependencies, outputs
    and cached adjoint solution. *)
Definition sample_block (linear : bool)
    (deps outs : list (Solving.BlockVariable term)) (adj : pyval term)
  : Solving.SolveBlock term :=
  {| Solving.class_of := Solving.SolveVarFormBlock;
     Solving.adj_cb := PNone; Solving.adj_bdy_cb := PNone;
     Solving.adj2_cb := PNone; Solving.adj2_bdy_cb := PNone;
     Solving.adj_sol := adj;
     Solving.forward_args := PList []; Solving.forward_kwargs := PDict ∅;
     Solving.adj_args := PList []; Solving.adj_kwargs := PDict ∅;
     Solving.assemble_kwargs := ∅;
     Solving.lhs := F_linear; Solving.rhs := PInt 0; Solving.func := u_;
     Solving.function_space := PObj (function_space_of u_);
     Solving.bcs := [bc_]; Solving.linear := linear;
     Solving._dependencies := deps; Solving._outputs := outs;
     Solving.ident_zeros_tol := PNone;
     Solving.assemble_system_flag := PBool false |}.

Definition running (b : Solving.SolveBlock term) : Solving.Running term :=
  {| Solving.self := b; Solving.calls := [] |}.

End SymBackend.

(** ** The forward replay of [fenics_adjoint/solving.py] *)

(** What the forward replay asks of the backend beyond [Backend]. *)
Class ReplayBackend (obj : Type) := {
  ufl_equation : pyval obj -> pyval obj -> obj;       (* lhs == rhs *)
  function_assign : pyval obj -> pyval obj -> obj;    (* Function.assign(f, v): f afterwards *)
  ident_zeros : pyval obj -> pyval obj -> obj;        (* A.ident_zeros(tol): A afterwards *)
  (* backend.solve(equation, func, bcs, ...): func afterwards *)
  forward_solution : list (pyval obj) -> gmap string (pyval obj) -> pyval obj -> obj;
  py_str : pyval obj -> string                        (* str(a) *)
}.

Module Replay.
Section Replay.

Import Solving.
Context {obj : Type} `{Backend obj} `{ReplayBackend obj}.

Abbreviation value := (pyval obj).
Abbreviation dict := (gmap string (pyval obj)).

(** [GenericSolveBlock.__str__] *)
Definition __str__ (self : SolveBlock obj) : string :=
  py_str (lhs self) +:+ " = " +:+ py_str (rhs self).

Definition _create_initial_guess (self : SolveBlock obj) : value :=
  PObj (backend_Function (function_space self)).

Definition _recover_bcs (self : SolveBlock obj) : list value :=
  fold_left
    (fun bcs block_variable =>
       let c := output block_variable in
       let c_rep := saved_output block_variable in
       if isinstance c DirichletBC then bcs ++ [c_rep] else bcs)
    (get_dependencies self) [].

(** [key in d] and [d[key]] for a dict keyed by objects. *)
Definition dict_member (key : value) (d : list (value * value)) : bool :=
  existsb (fun e => py_eq (fst e) key) d.

Definition dict_item (key : value) (d : list (value * value)) : option value :=
  snd <$> find (fun e => py_eq (fst e) key) d.

(** [_replace_form(form, func)]: the form with the checkpoints put in, and
    [func] as it is afterwards (an initial guess is assigned the checkpoint
    of the unknown when the unknown occurs in the form). *)
Definition _replace_form (self : SolveBlock obj) (form func : value) : value * value :=
  let replace_map := _replace_map self form in
  match dict_item (Solving.func self) replace_map with
  | Some checkpoint =>
      if negb (is_none func) then
        let func := PObj (function_assign func checkpoint) in
        (PObj (ufl_replace form (dict_assign (Solving.func self) func replace_map)), func)
      else (PObj (ufl_replace form replace_map), func)
  | None => (PObj (ufl_replace form replace_map), func)
  end.

Definition _replace_recompute_form (self : SolveBlock obj) : value :=
  let func := _create_initial_guess self in
  let bcs := _recover_bcs self in
  let replaced := _replace_form self (lhs self) func in
  let lhs := fst replaced in
  let func := snd replaced in
  let rhs := if linear self then fst (_replace_form self (rhs self) PNone) else PInt 0 in
  PTuple [lhs; rhs; func; PList bcs].

Definition prepare_recompute_component (self : SolveBlock obj)
    (inputs : list value) (relevant_outputs : list (value * BlockVariable obj))
  : value :=
  _replace_recompute_form self.

(** [GenericSolveBlock._forward_solve] *)
Definition generic_forward_solve (lhs rhs func bcs : value) : M (Running obj) value :=
  self <- gets self ;;
  forward_args <- lift (star_args (forward_args self)) ;;
  forward_kwargs <- lift (entries_of (forward_kwargs self)) ;;
  let args := [PObj (ufl_equation lhs rhs); func; bcs] ++ forward_args in
  log (BackendSolve args forward_kwargs) ;;;
  ret (PObj (forward_solution args forward_kwargs func)).

(** [SolveLinearSystemBlock._forward_solve] *)
Definition linear_system_forward_solve (lhs rhs func bcs : value)
  : M (Running obj) value :=
  self <- gets self ;;
  Ab <- (if truthy (assemble_system_flag self) then
           let r := assemble_system lhs rhs (Enlist bcs) in
           ret (PObj (fst r), PObj (snd r))
         else
           bc_list <- lift (items_of bcs) ;;
           ret (fold_left (fun Ab bc => let r := bc_apply2 bc (fst Ab) (snd Ab) in
                                        (PObj (fst r), PObj (snd r)))
                          bc_list (PObj (assemble lhs), PObj (assemble rhs)))) ;;
  let A := fst Ab in
  let b := snd Ab in
  let A := if negb (is_none (ident_zeros_tol self))
           then PObj (ident_zeros A (ident_zeros_tol self)) else A in
  forward_args <- lift (star_args (forward_args self)) ;;
  forward_kwargs <- lift (entries_of (forward_kwargs self)) ;;
  log (BackendSolve ([A; PObj (vector func); b] ++ forward_args) forward_kwargs) ;;;
  ret (PObj (solution A func b forward_args forward_kwargs)).

(** [self._forward_solve(lhs, rhs, func, bcs)], by the class of [self]. *)
Definition _forward_solve (lhs rhs func bcs : value) : M (Running obj) value :=
  self <- gets self ;;
  match class_of self with
  | SolveLinearSystemBlock => linear_system_forward_solve lhs rhs func bcs
  | _ => generic_forward_solve lhs rhs func bcs
  end.

(** [prepared[i]] for a tuple or list. *)
Definition index (prepared : value) (i : nat) : result value :=
  items <~ items_of prepared ;;
  getitem items i.

Definition recompute_component (inputs : list value)
    (block_variable : BlockVariable obj) (idx : nat) (prepared : value)
  : M (Running obj) value :=
  lhs <- lift (index prepared 0) ;;
  rhs <- lift (index prepared 1) ;;
  func <- lift (index prepared 2) ;;
  bcs <- lift (index prepared 3) ;;
  _forward_solve lhs rhs func bcs.

End Replay.
End Replay.

(** The forward replay over the symbolic backend. *)
Module SymReplay.

Import SymBackend.

Definition show (v : pyval term) : string :=
  match v with
  | PObj (Object _ name _) => name
  | PInt z => pretty z
  | _ => "?"
  end.

#[global] Instance replay_backend : ReplayBackend term := {
  ufl_equation lhs rhs := ap "==" [lhs; rhs];
  function_assign f v := ap "Function.assign" [f; v];
  ident_zeros A tol := ap "ident_zeros" [A; tol];
  forward_solution args kwargs func := Ap "forward_solution" (func :: args) kwargs;
  py_str := show
}.

End SymReplay.

(** Further sample objects over the symbolic backend. *)
Module SymSamples.

Import Solving SymBackend.

(** A block variable whose checkpoint differs from its value. *)
Definition checkpointed (id : nat) (x checkpoint tlm : pyval term)
  : BlockVariable term :=
  {| bv_id := id; output := x; saved_output := checkpoint; tlm_value := tlm |}.

(** A block with the four callbacks set. *)
Definition with_callbacks (cb bdy_cb cb2 bdy_cb2 : pyval term) (b : SolveBlock term)
  : SolveBlock term :=
  {| class_of := class_of b; adj_cb := cb; adj_bdy_cb := bdy_cb;
     adj2_cb := cb2; adj2_bdy_cb := bdy_cb2; adj_sol := adj_sol b;
     forward_args := forward_args b; forward_kwargs := forward_kwargs b;
     adj_args := adj_args b; adj_kwargs := adj_kwargs b;
     assemble_kwargs := assemble_kwargs b; lhs := lhs b; rhs := rhs b;
     func := func b; function_space := function_space b; bcs := bcs b;
     linear := linear b; _dependencies := _dependencies b;
     _outputs := _outputs b; ident_zeros_tol := ident_zeros_tol b;
     assemble_system_flag := assemble_system_flag b |}.

(** The nonlinear sample block with the unknown (checkpointed as [u0])
    and a boundary condition as dependencies, the solution (checkpointed
    as [u1], with tangent-linear value [du]) as output, and callbacks. *)
Definition recorded_block (adj : pyval term) : SolveBlock term :=
  with_callbacks (object Function "cb") (object Function "bdy_cb")
    (object Function "cb2") (object Function "bdy_cb2")
    (sample_block false
       [checkpointed 0 u_ (object Function "u0") PNone;
        checkpointed 2 bc_ (object DirichletBC "bc0") PNone]
       [checkpointed 1 u_ (object Function "u1") (object Function "du")]
       adj).

(** The nonlinear sample block with a source [f] as dependency, which
    carries the tangent-linear value [df]. *)
Definition forced_block (adj : pyval term) : SolveBlock term :=
  sample_block false
    [checkpointed 3 f_ (object Function "f0") (object Function "df")]
    [checkpointed 1 u_ (object Function "u1") PNone]
    adj.

(** Identifiers for the named sample objects. *)
Definition sample_ids : gmap string nat :=
  list_to_map [("u", 1); ("v", 2); ("f", 3); ("bc", 4); ("w", 5); ("mesh", 6)].

End SymSamples.

(** Whether an event is a call of one of the user's callbacks. *)
Definition is_callback {obj} (e : Solving.event obj) : bool :=
  match e with
  | Solving.Callback _ _ => true
  | _ => false
  end.

(** The exceptions of the lookups that the code makes on its own data. *)
Definition lookup_error (e : exn) : Prop :=
  e = IndexError \/ e = TypeError \/ e = AttributeError \/ exists key, e = KeyError key.

(** ** Frames of the verifier

    [frames c]: whatever its outcome, [c] leaves the annotation switch at
    the depth it found and only appends to the trace. *)
Definition frames {F C A} (c : M (Verification.World F C) A) : Prop :=
  forall w,
    Verification.annotate_off (snd (c w)) = Verification.annotate_off w
    /\ exists t, Verification.trace (snd (c w)) = Verification.trace w ++ t.

(** * Properties *)

Section VerificationFacts.

Import Verification.
Context {F : Type} `{Scalar F} {C : Type} `{OverloadedType C F}.

Lemma bind_ok {W A B} (c : M W A) (k : A -> M W B) w a w' :
  c w = (Ok a, w') -> bind c k w = k a w'.
Proof. intros Hc. unfold bind. now rewrite Hc. Qed.

Lemma bind_raise {W A B} (c : M W A) (k : A -> M W B) w e w' :
  c w = (Raise e, w') -> bind c k w = (Raise e, w').
Proof. intros Hc. unfold bind. now rewrite Hc. Qed.

Lemma getitem_lookup {A} (l : list A) i a : l !! i = Some a -> getitem l i = Ok a.
Proof. intros Hl. unfold getitem. now rewrite Hl. Qed.

(** One turn of the loop of [convergence_rates] at an index inside both
    sequences. *)
Lemma rates_step_run (E_values eps_values : list F) (w : World F C)
    (r : list F) (i : nat) (Ei Eprev si sprev : F) :
  E_values !! i = Some Ei -> E_values !! (i - 1) = Some Eprev ->
  eps_values !! i = Some si -> eps_values !! (i - 1) = Some sprev ->
  rates_step E_values eps_values r i w
  = (if fzero_divisor Eprev then Raise ZeroDivisionError
     else if fzero_divisor sprev then Raise ZeroDivisionError
     else Ok (r ++ [fdiv (flog (fdiv Ei Eprev)) (flog (fdiv si sprev))]), w).
Proof.
  intros HEi HEp Hsi Hsp. unfold rates_step, bind, lift, ret, py_div.
  rewrite (getitem_lookup _ _ _ HEi), (getitem_lookup _ _ _ HEp).
  destruct (fzero_divisor Eprev); [reflexivity|].
  rewrite (getitem_lookup _ _ _ Hsi), (getitem_lookup _ _ _ Hsp).
  destruct (fzero_divisor sprev); reflexivity.
Qed.

(** The loop of [convergence_rates] over the indices [a, a+1, ..., a+n-1]
    appends one rate per index, as long as the indices stay inside both
    sequences and no divisor raises. *)
Lemma rates_loop_spec (E_values eps_values : list F) (w : World F C) :
  forall n a r,
    1 <= a -> a + n <= length eps_values -> a + n <= length E_values ->
    (forall j y, a - 1 <= j < a + n - 1 ->
                 E_values !! j = Some y \/ eps_values !! j = Some y ->
                 fzero_divisor y = false) ->
    exists rs,
      for_each (seq a n) (rates_step E_values eps_values) r w = (Ok (r ++ rs), w)
      /\ length rs = n
      /\ forall j Ei Eprev si sprev,
           E_values !! (a + j) = Some Ei ->
           E_values !! (a + j - 1) = Some Eprev ->
           eps_values !! (a + j) = Some si ->
           eps_values !! (a + j - 1) = Some sprev ->
           j < n ->
           rs !! j = Some (fdiv (flog (fdiv Ei Eprev)) (flog (fdiv si sprev))).
Proof.
  induction n as [|n IH]; intros a r Ha Heps HE Hnz.
  - exists []. rewrite app_nil_r.
    split; [reflexivity | split; [reflexivity | intros; lia]].
  - destruct (lookup_lt_is_Some_2 E_values a) as [Ei HEi]; [lia|].
    destruct (lookup_lt_is_Some_2 E_values (a - 1)) as [Ep HEp]; [lia|].
    destruct (lookup_lt_is_Some_2 eps_values a) as [si Hsi]; [lia|].
    destruct (lookup_lt_is_Some_2 eps_values (a - 1)) as [sp Hsp]; [lia|].
    assert (HzE : fzero_divisor Ep = false) by (apply (Hnz (a - 1)); [lia | now left]).
    assert (Hzs : fzero_divisor sp = false) by (apply (Hnz (a - 1)); [lia | now right]).
    destruct (IH (S a) (r ++ [fdiv (flog (fdiv Ei Ep)) (flog (fdiv si sp))]))
      as (rs & Hrun & Hlen & Hnth); [lia..| |].
    { intros j y Hj. apply Hnz. lia. }
    exists (fdiv (flog (fdiv Ei Ep)) (flog (fdiv si sp)) :: rs).
    split; [|split].
    + cbn [seq for_each]. unfold bind at 1.
      rewrite (rates_step_run _ _ _ _ _ _ _ _ _ HEi HEp Hsi Hsp), HzE, Hzs.
      rewrite Hrun. now rewrite <- app_assoc.
    + cbn. now rewrite Hlen.
    + intros [|j] Ej Epj sj spj H1 H2 H3 H4 Hj.
      * rewrite Nat.add_0_r in *. cbn. congruence.
      * cbn. apply Hnth; try lia;
          [ now replace (S a + j) with (a + S j) by lia
          | now replace (S a + j - 1) with (a + S j - 1) by lia
          | now replace (S a + j) with (a + S j) by lia
          | now replace (S a + j - 1) with (a + S j - 1) by lia ].
Qed.

(** The loop stops with the ZeroDivisionError at the first divisor that
    raises. *)
Lemma rates_loop_zero (E_values eps_values : list F) (w : World F C) :
  forall n a r,
    1 <= a -> a + n <= length eps_values -> a + n <= length E_values ->
    (exists j y, a - 1 <= j < a + n - 1
                 /\ (E_values !! j = Some y \/ eps_values !! j = Some y)
                 /\ fzero_divisor y = true) ->
    for_each (seq a n) (rates_step E_values eps_values) r w
    = (Raise ZeroDivisionError, w).
Proof.
  induction n as [|n IH]; intros a r Ha Heps HE (j & y & Hj & Hy & Hz); [lia|].
  destruct (lookup_lt_is_Some_2 E_values a) as [Ei HEi]; [lia|].
  destruct (lookup_lt_is_Some_2 E_values (a - 1)) as [Ep HEp]; [lia|].
  destruct (lookup_lt_is_Some_2 eps_values a) as [si Hsi]; [lia|].
  destruct (lookup_lt_is_Some_2 eps_values (a - 1)) as [sp Hsp]; [lia|].
  cbn [seq for_each]. unfold bind at 1.
  rewrite (rates_step_run _ _ _ _ _ _ _ _ _ HEi HEp Hsi Hsp).
  destruct (fzero_divisor Ep) eqn:HzE; [reflexivity|].
  destruct (fzero_divisor sp) eqn:Hzs; [reflexivity|].
  apply IH; [lia..|].
  exists j, y. split; [|now split].
  destruct (decide (j = a - 1)) as [->|Hne]; [|lia].
  destruct Hy as [Hy|Hy]; congruence.
Qed.

(** [convergence_rates] on sequences of any length: when the residuals are
    at least as many as the step sizes and no divisor raises, one rate is
    returned per pair of consecutive positions, and nothing but the final
    [print] happens. *)
Lemma convergence_rates_spec (E_values eps_values : list F) (w : World F C) :
  length eps_values <= length E_values ->
  (forall j y, j < length eps_values - 1 ->
               E_values !! j = Some y \/ eps_values !! j = Some y ->
               fzero_divisor y = false) ->
  exists r,
    convergence_rates E_values eps_values w =
      (Ok r, {| trace := trace w ++ [Print "Computed convergence rates: {}" r];
                annotate_off := annotate_off w |})
    /\ length r = length eps_values - 1
    /\ forall i Ei Eprev si sprev,
         1 <= i < length eps_values ->
         E_values !! i = Some Ei -> E_values !! (i - 1) = Some Eprev ->
         eps_values !! i = Some si -> eps_values !! (i - 1) = Some sprev ->
         r !! (i - 1) = Some (fdiv (flog (fdiv Ei Eprev)) (flog (fdiv si sprev))).
Proof.
  intros Hlen Hnz.
  destruct (decide (length eps_values = 0)) as [Hz|Hnz0].
  { exists []. destruct eps_values; [|discriminate].
    split; [reflexivity | split; [reflexivity | cbn; intros; lia]]. }
  destruct (rates_loop_spec E_values eps_values w (length eps_values - 1) 1 [])
    as (rs & Hrun & Hn & Hnth); [lia..| |].
  { intros j y Hj. apply Hnz. lia. }
  exists rs. split; [|split; [exact Hn|]].
  - unfold convergence_rates. now rewrite (bind_ok _ _ _ _ _ Hrun).
  - intros i Ei Ep si sp Hi H1 H2 H3 H4.
    apply Hnth; try lia;
      [ now replace (1 + (i - 1)) with i by lia
      | now replace (1 + (i - 1) - 1) with (i - 1) by lia
      | now replace (1 + (i - 1)) with i by lia
      | now replace (1 + (i - 1) - 1) with (i - 1) by lia ].
Qed.

(** With a divisor that raises among the residuals or step sizes that are
    divided by, [convergence_rates] ends in the ZeroDivisionError, and
    nothing is printed. *)
Lemma convergence_rates_zero (E_values eps_values : list F) (w : World F C) :
  length eps_values <= length E_values ->
  (exists j y, j < length eps_values - 1
               /\ (E_values !! j = Some y \/ eps_values !! j = Some y)
               /\ fzero_divisor y = true) ->
  convergence_rates E_values eps_values w = (Raise ZeroDivisionError, w).
Proof.
  intros Hlen (j & y & Hj & Hy & Hz). unfold convergence_rates.
  apply bind_raise. apply rates_loop_zero; [lia..|].
  exists j, y. split; [lia|now split].
Qed.

(** C1, as the code has it: for residuals [E_values] and step sizes
    [eps_values] that both have length 4 and are no divisors that raise at
    the positions 0, 1 and 2, [convergence_rates] returns exactly 3 values,
    and for i = 1, 2, 3 the value for position i is
    log(E_values[i]/E_values[i-1]) / log(eps_values[i]/eps_values[i-1]).
    When one of these six divisors raises, the call ends in the
    ZeroDivisionError and prints nothing. *)
Theorem convergence_rates_four (E_values eps_values : list F) (w : World F C) :
  length E_values = 4 -> length eps_values = 4 ->
  ((forall j y, j < 3 ->
                E_values !! j = Some y \/ eps_values !! j = Some y ->
                fzero_divisor y = false) ->
   exists r,
     convergence_rates E_values eps_values w
     = (Ok r, {| trace := trace w ++ [Print "Computed convergence rates: {}" r];
                 annotate_off := annotate_off w |})
     /\ length r = 3
     /\ forall i Ei Eprev si sprev,
          1 <= i <= 3 ->
          E_values !! i = Some Ei -> E_values !! (i - 1) = Some Eprev ->
          eps_values !! i = Some si -> eps_values !! (i - 1) = Some sprev ->
          r !! (i - 1) = Some (fdiv (flog (fdiv Ei Eprev)) (flog (fdiv si sprev))))
  /\ ((exists j y, j < 3
                   /\ (E_values !! j = Some y \/ eps_values !! j = Some y)
                   /\ fzero_divisor y = true) ->
      convergence_rates E_values eps_values w = (Raise ZeroDivisionError, w)).
Proof.
  intros HE Heps. split.
  - intros Hnz.
    destruct (convergence_rates_spec E_values eps_values w) as (r & Hrun & Hn & Hnth);
      [lia| |].
    { intros j y Hj. apply Hnz. lia. }
    exists r. rewrite Hn, Heps. split; [exact Hrun|]. split; [reflexivity|].
    intros i Ei Ep si sp Hi. apply Hnth. lia.
  - intros (j & y & Hj & Hy & Hz). apply convergence_rates_zero; [lia|].
    exists j, y. split; [lia|now split].
Qed.

(** The perturbed point exists unless a single point is paired with an
    empty direction. *)
Lemma perturbe_defined (m h : pyobj C) (eps : F) :
  is_list_or_tuple m = true \/ Enlist h <> [] ->
  exists p, perturbe m h eps = Ok p.
Proof.
  intros [Hm|Hh]; unfold perturbe, delist.
  - rewrite Hm. eauto.
  - destruct m as [l|l|c]; cbn; eauto.
    destruct (Enlist h) as [|hi hs]; [congruence|]. cbn. eauto.
Qed.

(** For a single point and a single direction the perturbed point is
    [m + eps*h] in the arithmetic of the control space. *)
Lemma perturbe_single (m h : C) (eps : F) :
  perturbe (PyObj m) (PyObj h) eps = Ok (PyObj (_ad_add m (_ad_mul h eps))).
Proof. reflexivity. Qed.

Lemma pymin_cons (x : F) (l : list F) : exists v, pymin (x :: l) = Ok v.
Proof. cbn. eauto. Qed.

Lemma returns_bind {W A B} (c : M W A) (k : A -> M W B) Q R :
  returns c Q -> (forall a, Q a -> returns (k a) R) -> returns (bind c k) R.
Proof.
  intros Hc Hk w. unfold bind.
  specialize (Hc w). destruct (c w) as [[a|e] w']; cbn in *.
  - now apply Hk.
  - exact Hc.
Qed.

Lemma returns_ret {W A} (a : A) (Q : A -> Prop) : Q a -> returns (@ret W A a) Q.
Proof. intros Ha w. exact Ha. Qed.

Lemma returns_weaken {W A} (c : M W A) (Q R : A -> Prop) :
  returns c Q -> (forall a, Q a -> R a) -> returns c R.
Proof.
  intros Hc HQR w. specialize (Hc w). destruct (fst (c w)); auto.
Qed.

Lemma returns_emit (e : event F C) : returns (emit e) (fun _ => True).
Proof. intros w. exact I. Qed.

Lemma returns_gets {W A} (f : W -> A) : returns (gets f) (fun _ => True).
Proof. intros w. exact I. Qed.

Lemma returns_lift {W A} (r : result A) (Q : A -> Prop) :
  match r with Ok a => Q a | Raise e => forall msg, e <> ValueError msg end ->
  returns (@lift W A r) Q.
Proof. intros Hr w. exact Hr. Qed.

Lemma returns_stop_annotating {A} (c : M (World F C) A) Q :
  returns c Q -> returns (stop_annotating c) Q.
Proof.
  intros Hc w. unfold stop_annotating.
  specialize (Hc (set_stop_depth (S (stop_depth w)) w)).
  destruct (c _) as [r w']. exact Hc.
Qed.

(** A loop whose body keeps an invariant indexed by the number of items
    still to come. *)
Lemma returns_for_each {W A X} (body : A -> X -> M W A) (Inv : nat -> A -> Prop) :
  (forall n a x, Inv (S n) a -> returns (body a x) (Inv n)) ->
  forall xs acc, Inv (length xs) acc -> returns (for_each xs body acc) (Inv 0).
Proof.
  intros Hbody. induction xs as [|x xs IH]; intros acc Hacc; cbn [for_each].
  - now apply returns_ret.
  - eapply returns_bind; [apply Hbody, Hacc | exact IH].
Qed.

Lemma returns_J_call (J : ReducedFunctional F C) p : returns (J_call J p) (fun _ => True).
Proof.
  unfold J_call.
  eapply returns_bind; [apply returns_gets | intros v _].
  eapply returns_bind; [apply returns_emit | intros ? _].
  now apply returns_ret.
Qed.

Lemma returns_J_derivative (J : ReducedFunctional F C) :
  returns (J_derivative J) (fun _ => True).
Proof.
  unfold J_derivative.
  eapply returns_bind; [apply returns_gets | intros v _].
  eapply returns_bind; [apply returns_emit | intros ? _].
  now apply returns_ret.
Qed.

Lemma returns_perturbe {W} (m h : pyobj C) (eps : F) :
  returns (@lift W _ (perturbe m h eps)) (fun _ => True).
Proof.
  apply returns_lift. unfold perturbe, delist.
  destruct (is_list_or_tuple m); [exact I|].
  destruct (zip_with _ _ _); [discriminate | exact I].
Qed.

Lemma returns_getitem {W A} (l : list A) i :
  returns (@lift W _ (getitem l i)) (fun _ => True).
Proof.
  apply returns_lift. unfold getitem. destruct (l !! i); [exact I | discriminate].
Qed.

Lemma returns_pymin {W} (l : list F) :
  l <> [] -> returns (@lift W _ (pymin l)) (fun _ => True).
Proof. intros Hl. apply returns_lift. destruct l; [congruence | exact I]. Qed.

Lemma returns_py_div {W} (x y : F) :
  returns (@lift W _ (py_div x y)) (fun _ => True).
Proof.
  apply returns_lift. unfold py_div. destruct (fzero_divisor y); [discriminate | exact I].
Qed.

(** [convergence_rates] returns one value less than there are step sizes. *)
Lemma returns_convergence_rates (E_values eps_values : list F) :
  returns (convergence_rates (C:=C) E_values eps_values)
          (fun r => length r = length eps_values - 1).
Proof.
  unfold convergence_rates.
  eapply returns_bind.
  - apply (returns_for_each _ (fun n r => length r + n = length eps_values - 1)).
    + intros n r i Hr. unfold rates_step.
      eapply returns_bind; [apply returns_getitem | intros Ei _].
      eapply returns_bind; [apply returns_getitem | intros Eprev _].
      eapply returns_bind; [apply (returns_py_div Ei Eprev) | intros ? _].
      eapply returns_bind; [apply returns_getitem | intros si _].
      eapply returns_bind; [apply returns_getitem | intros sprev _].
      eapply returns_bind; [apply (returns_py_div si sprev) | intros ? _].
      apply returns_ret. rewrite length_app. cbn. lia.
    + rewrite length_seq. reflexivity.
  - intros r Hr. cbn beta in Hr.
    eapply returns_bind; [apply returns_emit | intros ? _].
    apply returns_ret. lia.
Qed.

(** Past the validation of the controls, [taylor_test] never ends in a
    ValueError: [min] is only taken of the four residuals and of the three
    rates. *)
Lemma taylor_test_body_no_value_error
    (J : ReducedFunctional F C) (m h : pyobj C) (dJdm : option F) (Hm : F)
    (w : World F C) msg :
  length (controls J) <= 1 ->
  fst (taylor_test J m h dJdm Hm w) <> Raise (ValueError msg).
Proof.
  intros Hn.
  assert (Hret : returns (taylor_test J m h dJdm Hm) (fun _ => True)).
  { unfold taylor_test.
    replace (1 <? length (controls J)) with false
      by (symmetry; apply Nat.ltb_ge; lia).
    cbn [andb].
    eapply returns_bind; [apply returns_emit | intros ? _].
    eapply returns_bind with (Q := fun residuals => length residuals = 4).
    - apply returns_stop_annotating.
      eapply returns_bind; [apply returns_J_call | intros Jm _].
      eapply returns_bind with (Q := fun _ => True).
      { destruct dJdm; [now apply returns_ret|].
        eapply returns_bind; [apply returns_J_derivative | intros d _].
        now apply returns_ret. }
      intros d _.
      eapply returns_bind.
      { apply (returns_for_each _ (fun n r => length r + n = 4)); [|reflexivity].
        intros n r e Hr.
        eapply returns_bind; [apply returns_perturbe | intros p _].
        eapply returns_bind; [apply returns_J_call | intros Jp _].
        apply returns_ret. rewrite length_app. cbn. lia. }
      intros residuals Hres. cbn beta in Hres.
      eapply returns_bind.
      { apply returns_pymin. destruct residuals; [discriminate | congruence]. }
      intros smallest _.
      eapply returns_bind with (Q := fun _ => True).
      { destruct (flt smallest _); [apply returns_emit | now apply returns_ret]. }
      intros ? _.
      eapply returns_bind; [apply returns_emit | intros ? _].
      apply returns_ret. lia.
    - intros residuals Hres.
      eapply returns_bind; [apply returns_convergence_rates | intros rates Hrates].
      apply returns_pymin. cbn in Hrates. destruct rates; [discriminate | congruence]. }
  specialize (Hret w). destruct (fst (taylor_test J m h dJdm Hm w)); [discriminate|].
  intros Heq. injection Heq as ->. now apply (Hret msg).
Qed.

(** C9: when J declares more than one control and [m] or [h] is neither a
    list nor a tuple, [taylor_test] raises a ValueError and leaves the world
    as it was (J has not been called, nothing has been printed); with at
    most one control it never ends in a ValueError. *)
Theorem taylor_test_validates_controls
    (J : ReducedFunctional F C) (m h : pyobj C) (dJdm : option F) (Hm : F)
    (w : World F C) :
  (1 < length (controls J) ->
   is_list_or_tuple m = false \/ is_list_or_tuple h = false ->
   exists msg, taylor_test J m h dJdm Hm w = (Raise (ValueError msg), w))
  /\
  (length (controls J) <= 1 ->
   forall msg, fst (taylor_test J m h dJdm Hm w) <> Raise (ValueError msg)).
Proof.
  split.
  - intros Hn Hbad. unfold taylor_test.
    apply Nat.ltb_lt in Hn. rewrite Hn. cbn [andb].
    destruct (is_list_or_tuple m); cbn [negb].
    + destruct Hbad as [Hbad|Hbad]; [discriminate|]. rewrite Hbad. cbn. eauto.
    + eauto.
  - intros Hn msg. apply taylor_test_body_no_value_error. lia.
Qed.

Lemma residual_loop_spec (J : ReducedFunctional F C) (m h : pyobj C) (Jm d Hm : F) :
  forall eps ps,
    Forall2 (fun e p => perturbe m h e = Ok p) eps ps ->
    forall acc w,
      for_each eps
        (fun residuals e =>
           p <- lift (perturbe m h e) ;;
           Jp <- J_call J p ;;
           ret (residuals ++ [residual Jp Jm e d Hm])) acc w
      = (Ok (acc ++ residuals_after J Jm d Hm (trace w) eps ps),
         {| trace := trace w ++ map CallJ ps; annotate_off := annotate_off w |}).
Proof.
  induction 1 as [|e p eps ps Hp _ IH]; intros acc w.
  - cbn. rewrite !app_nil_r. now destruct w.
  - cbn [for_each]. unfold bind at 1. unfold bind at 1. unfold lift at 1.
    rewrite Hp. cbn -[for_each residuals_after].
    rewrite IH. cbn. now rewrite <- !app_assoc.
Qed.

Lemma advisory_step (b : bool) (text : string) (w : World F C) :
  (if b then emit (Warning text) else ret tt) w
  = (Ok tt, {| trace := trace w ++ (if b then [Warning text] else []);
               annotate_off := annotate_off w |}).
Proof. destruct b, w; cbn; [reflexivity|]. now rewrite app_nil_r. Qed.

(** [taylor_test] up to the call of [convergence_rates]: past the
    validation and with the four perturbed points defined, J is called at
    [m] and at the points, the advisory is logged or not, the residuals
    are printed, and the annotation switch is back where it was. *)
Lemma taylor_test_run
    (J : ReducedFunctional F C) (m h : pyobj C) (dJdm : option F) (Hm : F)
    (w : World F C) (ps : list (pyobj C)) :
  length (controls J) <= 1
    \/ (is_list_or_tuple m = true /\ is_list_or_tuple h = true) ->
  Forall2 (fun e p => perturbe m h e = Ok p) epsilons ps ->
  let t1 := trace w ++ [Print "Running Taylor test" []] in
  let Jm := call J t1 m in
  let t2 := t1 ++ [CallJ m] in
  let d := match dJdm with
           | Some d => d
           | None => pysum (zip_with _ad_dot (Enlist h) (Enlist (derivative J t2)))
           end in
  let t3 := match dJdm with Some _ => t2 | None => t2 ++ [CallDerivative] end in
  let residuals := residuals_after J Jm d Hm t3 epsilons ps in
  exists r0 rest,
    residuals = r0 :: rest /\ length rest = 3
    /\ taylor_test J m h dJdm Hm w
       = (rates <- convergence_rates residuals epsilons ;; lift (pymin rates))
           {| trace := t3 ++ map CallJ ps
                       ++ (if flt (fold_left (fun cur y => if flt y cur then y else cur)
                                             rest r0)
                                  (fconst 1e-15)
                           then [Warning "The taylor remainder is close to machine precision."]
                           else [])
                       ++ [Print "Computed residuals: {}" residuals];
              annotate_off := annotate_off w |}.
Proof.
  intros Hvalid Hall t1 Jm t2 d t3 residuals.
  assert (Hm_ok : (1 <? length (controls J)) && negb (is_list_or_tuple m) = false).
  { destruct Hvalid as [Hn|[-> _]]; [|apply andb_false_r].
    apply andb_false_intro1, Nat.ltb_ge. lia. }
  assert (Hh_ok : (1 <? length (controls J)) && negb (is_list_or_tuple h) = false).
  { destruct Hvalid as [Hn|[_ ->]]; [|apply andb_false_r].
    apply andb_false_intro1, Nat.ltb_ge. lia. }
  assert (Hlen : length residuals = 4).
  { subst residuals. clearbody t3 d Jm.
    assert (Hps : length ps = 4) by (apply Forall2_length in Hall; now rewrite <- Hall).
    do 5 (destruct ps as [|? ps]; try discriminate Hps). reflexivity. }
  destruct residuals as [|r0 rest] eqn:Hres; [discriminate Hlen|].
  exists r0, rest. split; [reflexivity|]. split; [cbn in Hlen; lia|].
  set (smallest := fold_left (fun cur y => if flt y cur then y else cur) rest r0).
  set (advisory := if flt smallest (fconst 1e-15)
                   then [Warning "The taylor remainder is close to machine precision."]
                   else [] : list (event F C)).
  assert (Hloop := residual_loop_spec J m h Jm d Hm _ _ Hall []).
  unfold taylor_test. rewrite Hm_ok, Hh_ok.
  unfold bind at 1. cbn [emit modify].
  unfold bind at 1. unfold stop_annotating.
  unfold bind at 1. cbn [J_call gets bind emit modify ret].
  cbn [set_stop_depth stop_depth World_annotating trace annotate_off].
  fold t1. fold Jm. fold t2.
  assert (Htail : forall w2,
    trace w2 = t3 -> annotate_off w2 = S (annotate_off w) ->
    (let (r, w') :=
       let '(r, w') :=
         (residuals <- for_each epsilons
            (fun residuals eps =>
               p <- lift (perturbe m h eps) ;;
               Jp <- J_call J p ;;
               ret (residuals ++ [residual Jp Jm eps d Hm])) [] ;;
          smallest <- lift (pymin residuals) ;;
          (if flt smallest (fconst 1e-15)
           then emit (Warning "The taylor remainder is close to machine precision.")
           else ret tt) ;;;
          emit (Print "Computed residuals: {}" residuals) ;;;
          ret residuals) w2 in
       (r, {| trace := trace w'; annotate_off := Init.Nat.pred (annotate_off w') |}) in
     match r with
     | Ok a => (rates0 <- convergence_rates a epsilons ;; lift (pymin rates0)) w'
     | Raise e => (Raise e, w')
     end) =
    (rates <- convergence_rates (r0 :: rest) epsilons ;; lift (pymin rates))
      {| trace := t3 ++ map CallJ ps ++ advisory
                  ++ [Print "Computed residuals: {}" (r0 :: rest)];
         annotate_off := annotate_off w |}).
  { intros w2 Ht Ha.
    unfold bind at 1. rewrite Hloop, Ht, Ha. cbn [app]. fold residuals. rewrite Hres.
    unfold bind at 1. cbn [lift pymin]. fold smallest.
    unfold bind at 1. rewrite advisory_step. fold advisory.
    cbn [emit modify ret bind trace annotate_off Init.Nat.pred].
    f_equal. f_equal. now rewrite <- !app_assoc. }
  destruct dJdm as [d0|].
  - unfold bind at 1. cbn [ret]. now apply Htail.
  - unfold bind at 1. cbn [J_derivative gets bind emit modify ret trace annotate_off].
    now apply Htail.
Qed.

(** The same, for names given to the intermediate values. *)
Lemma taylor_test_run_at
    (J : ReducedFunctional F C) (m h : pyobj C) (dJdm : option F) (Hm : F)
    (w : World F C) (ps : list (pyobj C))
    (t1 : list (event F C)) (Jm : F) (t2 : list (event F C)) (d : F)
    (t3 : list (event F C)) :
  length (controls J) <= 1
    \/ (is_list_or_tuple m = true /\ is_list_or_tuple h = true) ->
  Forall2 (fun e p => perturbe m h e = Ok p) epsilons ps ->
  t1 = trace w ++ [Print "Running Taylor test" []] ->
  Jm = call J t1 m ->
  t2 = t1 ++ [CallJ m] ->
  d = match dJdm with
      | Some d => d
      | None => pysum (zip_with _ad_dot (Enlist h) (Enlist (derivative J t2)))
      end ->
  t3 = match dJdm with Some _ => t2 | None => t2 ++ [CallDerivative] end ->
  exists r0 rest,
    residuals_after J Jm d Hm t3 epsilons ps = r0 :: rest /\ length rest = 3
    /\ taylor_test J m h dJdm Hm w
       = (rates <- convergence_rates (r0 :: rest) epsilons ;; lift (pymin rates))
           {| trace := t3 ++ map CallJ ps
                       ++ (if flt (fold_left (fun cur y => if flt y cur then y else cur)
                                             rest r0)
                                  (fconst 1e-15)
                           then [Warning "The taylor remainder is close to machine precision."]
                           else [])
                       ++ [Print "Computed residuals: {}" (r0 :: rest)];
              annotate_off := annotate_off w |}.
Proof.
  intros Hvalid Hall -> -> -> -> ->.
  destruct (taylor_test_run J m h dJdm Hm w ps Hvalid Hall)
    as (r0 & rest & Hres & Hlen & Hrun).
  exists r0, rest. rewrite <- Hres. split; [reflexivity|]. split; [exact Hlen|].
  exact Hrun.
Qed.

(** [convergence_rates] on four residuals and four step sizes, written
    out. *)
Lemma convergence_rates_of_four (e0 e1 e2 e3 s0 s1 s2 s3 : F) (w : World F C) :
  convergence_rates [e0; e1; e2; e3] [s0; s1; s2; s3] w
  = if fzero_divisor e0 || fzero_divisor s0 || fzero_divisor e1
       || fzero_divisor s1 || fzero_divisor e2 || fzero_divisor s2
    then (Raise ZeroDivisionError, w)
    else
      (Ok [fdiv (flog (fdiv e1 e0)) (flog (fdiv s1 s0));
           fdiv (flog (fdiv e2 e1)) (flog (fdiv s2 s1));
           fdiv (flog (fdiv e3 e2)) (flog (fdiv s3 s2))],
       {| trace := trace w
                   ++ [Print "Computed convergence rates: {}"
                         [fdiv (flog (fdiv e1 e0)) (flog (fdiv s1 s0));
                          fdiv (flog (fdiv e2 e1)) (flog (fdiv s2 s1));
                          fdiv (flog (fdiv e3 e2)) (flog (fdiv s3 s2))]];
          annotate_off := annotate_off w |}).
Proof.
  unfold convergence_rates. cbn [length Nat.sub seq for_each].
  unfold bind at 1. unfold bind at 1.
  rewrite (rates_step_run [e0; e1; e2; e3] [s0; s1; s2; s3] w [] 1 e1 e0 s1 s0
             eq_refl eq_refl eq_refl eq_refl).
  destruct (fzero_divisor e0); [reflexivity|].
  destruct (fzero_divisor s0); [reflexivity|].
  unfold bind at 1.
  rewrite (rates_step_run [e0; e1; e2; e3] [s0; s1; s2; s3] w _ 2 e2 e1 s2 s1
             eq_refl eq_refl eq_refl eq_refl).
  destruct (fzero_divisor e1); [reflexivity|].
  destruct (fzero_divisor s1); [reflexivity|].
  unfold bind at 1.
  rewrite (rates_step_run [e0; e1; e2; e3] [s0; s1; s2; s3] w _ 3 e3 e2 s3 s2
             eq_refl eq_refl eq_refl eq_refl).
  destruct (fzero_divisor e2); [reflexivity|].
  destruct (fzero_divisor s2); reflexivity.
Qed.

(** C2, as the code has it.  Past the validation, and for a number type
    in which the quotients 0.01/2^i are the numbers 0.01, 0.005, 0.0025
    and 0.00125, [taylor_test] calls J at [m] and then at the four
    perturbed points for these step sizes, in that order; the residual for
    a step eps is |J(m+eps*h) - J(m) - eps*dJdm - 0.5*eps^2*Hm|.  A [dJdm]
    that is not supplied is the sum, from 0, of [h_i._ad_dot(d_i)] over the
    entries of [J.derivative()], requested right after J(m).  When none of
    the first three residuals and step sizes is a divisor that raises, the
    result is the minimum of the three rates of consecutive residuals;
    when one of them is, the call ends in the ZeroDivisionError after the
    residuals have been printed. *)
Theorem taylor_test_min_rate
    (J : ReducedFunctional F C) (m h : pyobj C) (dJdm : option F) (Hm : F)
    (w : World F C) (p0 p1 p2 p3 : pyobj C) :
  length (controls J) <= 1
    \/ (is_list_or_tuple m = true /\ is_list_or_tuple h = true) ->
  fdiv (fconst 0.01) (fconst 1) = fconst 0.01 ->
  fdiv (fconst 0.01) (fconst 2) = fconst 0.005 ->
  fdiv (fconst 0.01) (fconst 4) = fconst 0.0025 ->
  fdiv (fconst 0.01) (fconst 8) = fconst 0.00125 ->
  perturbe m h (fconst 0.01) = Ok p0 ->
  perturbe m h (fconst 0.005) = Ok p1 ->
  perturbe m h (fconst 0.0025) = Ok p2 ->
  perturbe m h (fconst 0.00125) = Ok p3 ->
  let t1 := trace w ++ [Print "Running Taylor test" []] in
  let Jm := call J t1 m in
  let t2 := t1 ++ [CallJ m] in
  let d := match dJdm with
           | Some d => d
           | None => fold_left fadd
                       (zip_with _ad_dot (Enlist h) (Enlist (derivative J t2)))
                       (fconst 0)
           end in
  let t3 := match dJdm with Some _ => t2 | None => t2 ++ [CallDerivative] end in
  let res Jp eps :=
    fabs (fsub (fsub (fsub Jp Jm) (fmul eps d))
               (fmul (fmul (fconst 0.5) (fpow eps (fconst 2))) Hm)) in
  let r0 := res (call J t3 p0) (fconst 0.01) in
  let r1 := res (call J (t3 ++ [CallJ p0]) p1) (fconst 0.005) in
  let r2 := res (call J (t3 ++ [CallJ p0; CallJ p1]) p2) (fconst 0.0025) in
  let r3 := res (call J (t3 ++ [CallJ p0; CallJ p1; CallJ p2]) p3) (fconst 0.00125) in
  let smaller x y := if flt y x then y else x in
  let advisory :=
    if flt (smaller (smaller (smaller r0 r1) r2) r3) (fconst 1e-15)
    then [Warning "The taylor remainder is close to machine precision."]
    else [] in
  let printed := t3 ++ [CallJ p0; CallJ p1; CallJ p2; CallJ p3] ++ advisory
                 ++ [Print "Computed residuals: {}" [r0; r1; r2; r3]] in
  let rate1 := fdiv (flog (fdiv r1 r0)) (flog (fdiv (fconst 0.005) (fconst 0.01))) in
  let rate2 := fdiv (flog (fdiv r2 r1)) (flog (fdiv (fconst 0.0025) (fconst 0.005))) in
  let rate3 := fdiv (flog (fdiv r3 r2)) (flog (fdiv (fconst 0.00125) (fconst 0.0025))) in
  let raises := fzero_divisor r0 || fzero_divisor (fconst 0.01)
                || fzero_divisor r1 || fzero_divisor (fconst 0.005)
                || fzero_divisor r2 || fzero_divisor (fconst 0.0025) in
  (raises = false ->
   taylor_test J m h dJdm Hm w
   = (Ok (smaller (smaller rate1 rate2) rate3),
      {| trace := printed ++ [Print "Computed convergence rates: {}" [rate1; rate2; rate3]];
         annotate_off := annotate_off w |}))
  /\ (raises = true ->
      taylor_test J m h dJdm Hm w
      = (Raise ZeroDivisionError, {| trace := printed; annotate_off := annotate_off w |})).
Proof.
  intros Hvalid He0 He1 He2 He3 Hp0 Hp1 Hp2 Hp3
    t1 Jm t2 d t3 res r0 r1 r2 r3 smaller advisory printed rate1 rate2 rate3 raises.
  assert (Hs0 : step_size 0 = fconst 0.01) by exact He0.
  assert (Hs1 : step_size 1 = fconst 0.005) by exact He1.
  assert (Hs2 : step_size 2 = fconst 0.0025) by exact He2.
  assert (Hs3 : step_size 3 = fconst 0.00125) by exact He3.
  assert (Heps : epsilons = [fconst 0.01; fconst 0.005; fconst 0.0025; fconst 0.00125]).
  { unfold epsilons. cbn [seq map]. now rewrite Hs0, Hs1, Hs2, Hs3. }
  assert (Hall : Forall2 (fun e p => perturbe m h e = Ok p) epsilons [p0; p1; p2; p3]).
  { rewrite Heps. repeat constructor; assumption. }
  destruct (taylor_test_run_at J m h dJdm Hm w [p0; p1; p2; p3] t1 Jm t2 d t3
              Hvalid Hall eq_refl eq_refl eq_refl eq_refl eq_refl)
    as (r0' & rest & Hres & _ & Hrun).
  rewrite Heps in Hres, Hrun. cbn [residuals_after] in Hres.
  rewrite <- !app_assoc in Hres. cbn [app] in Hres.
  change (residual (call J t3 p0) Jm (fconst 0.01) d Hm) with r0 in Hres.
  change (residual (call J (t3 ++ [CallJ p0]) p1) Jm (fconst 0.005) d Hm) with r1 in Hres.
  change (residual (call J (t3 ++ [CallJ p0; CallJ p1]) p2) Jm (fconst 0.0025) d Hm)
    with r2 in Hres.
  change (residual (call J (t3 ++ [CallJ p0; CallJ p1; CallJ p2]) p3) Jm
            (fconst 0.00125) d Hm) with r3 in Hres.
  injection Hres as <- <-.
  rewrite Hrun. clear Hrun. cbn [fold_left map].
  fold (smaller r0 r1). fold (smaller (smaller r0 r1) r2).
  fold (smaller (smaller (smaller r0 r1) r2) r3). fold advisory. fold printed.
  pose proof (convergence_rates_of_four r0 r1 r2 r3
                (fconst 0.01) (fconst 0.005) (fconst 0.0025) (fconst 0.00125)
                {| trace := printed; annotate_off := annotate_off w |}) as Hconv.
  fold raises rate1 rate2 rate3 in Hconv. cbn [trace annotate_off] in Hconv.
  split; intros Hr; rewrite Hr in Hconv; unfold bind; rewrite Hconv; reflexivity.
Qed.

End VerificationFacts.

Section SolvingFacts.

Import Solving.
Context {obj : Type} `{Backend obj}.

Abbreviation value := (pyval obj).
Abbreviation dict := (gmap string (pyval obj)).

Lemma result_bind_ok {A B} (r : result A) (k : A -> result B) b :
  result_bind r k = Ok b -> exists a, r = Ok a /\ k a = Ok b.
Proof. destruct r as [a|e]; cbn; [eauto | discriminate]. Qed.

(** What the constructor of [GenericSolveBlock] leaves on a new block. *)
Lemma GenericSolveBlock_init_fields cls block_variable
    (lhs rhs func bcs : value) (args : list value) (kwargs : dict) b :
  GenericSolveBlock__init__ cls block_variable lhs rhs func bcs args kwargs = Ok b ->
  linear b = isinstance lhs Form && isinstance rhs Form
  /\ adj_sol b = PNone
  /\ Solving.lhs b = lhs /\ Solving.rhs b = rhs /\ Solving.func b = func
  /\ _outputs b = []
  /\ class_of b = cls.
Proof.
  unfold GenericSolveBlock__init__.
  repeat match goal with |- context [dict_pop ?k ?d ?m] => destruct (dict_pop k d m) end.
  intros Hinit. apply result_bind_ok in Hinit as (sp & _ & Hb).
  injection Hb as <-. cbn. repeat split.
Qed.

(** C8, as the code has it: the [linear] flag of a new block is true if and
    only if both [lhs] and [rhs] are instances of [ufl.Form], whatever the
    expressions are. *)
Theorem linear_flag_iff_both_forms cls block_variable
    (lhs rhs func bcs : value) (args : list value) (kwargs : dict) b :
  GenericSolveBlock__init__ cls block_variable lhs rhs func bcs args kwargs = Ok b ->
  (linear b = true <-> isinstance lhs Form = true /\ isinstance rhs Form = true).
Proof.
  intros Hinit. apply GenericSolveBlock_init_fields in Hinit as (-> & _).
  apply andb_true_iff.
Qed.

Lemma super_init_ok cls block_variable
    (lhs rhs func bcs : value) (args : list value) (kwargs : dict) b :
  super__init__ cls block_variable lhs rhs func bcs args kwargs = Ok b ->
  GenericSolveBlock__init__ cls block_variable lhs rhs func bcs args kwargs = Ok b.
Proof. unfold super__init__. destruct (existsb _ _); [discriminate | auto]. Qed.

(** The block that [solve] constructs holds no adjoint solution, and
    registering its output does not change that. *)
Lemma construct_adj_sol_none cls block_variable (args : list value) (kwargs : dict) b :
  construct cls block_variable args kwargs = Ok b -> adj_sol b = PNone /\ _outputs b = [].
Proof.
  intros Hc.
  assert (Hgen : forall c bvo l r f bc a k b0,
            GenericSolveBlock__init__ c bvo l r f bc a k = Ok b0 ->
            adj_sol b0 = PNone /\ _outputs b0 = []).
  { intros c bvo l r f bc a k b0 Hb0.
    apply GenericSolveBlock_init_fields in Hb0. tauto. }
  unfold construct in Hc. destruct (bool_decide _); [discriminate Hc|].
  destruct cls.
  - do 4 (apply result_bind_ok in Hc as (? & _ & Hc)). now apply Hgen in Hc.
  - do 3 (apply result_bind_ok in Hc as (? & _ & Hc)).
    unfold SolveLinearSystemBlock__init__ in Hc.
    do 3 (apply result_bind_ok in Hc as (? & _ & Hc)).
    apply result_bind_ok in Hc as (b0 & Hb0 & Hb). injection Hb as <-.
    apply super_init_ok, Hgen in Hb0. exact Hb0.
  - do 3 (apply result_bind_ok in Hc as (? & _ & Hc)).
    unfold SolveVarFormBlock__init__ in Hc.
    do 2 (apply result_bind_ok in Hc as (? & _ & Hc)).
    now apply super_init_ok, Hgen in Hc.
Qed.

Lemma add_output_adj_sol bv (b : SolveBlock obj) : adj_sol (add_output bv b) = adj_sol b.
Proof. reflexivity. Qed.

(** C3: on a block whose cached adjoint solution is still [None],
    [prepare_evaluate_hessian] with a hessian seed and a tangent-linear
    value on the output that are not [None] raises the RuntimeError, before
    any solver or callback is called. *)
Theorem prepare_evaluate_hessian_before_adjoint
    (w : Running obj) (inputs hessian_inputs adj_inputs : list value)
    (relevant_dependencies : list (value * BlockVariable obj))
    (fwd : BlockVariable obj) (hessian_input : value) :
  adj_sol (self w) = PNone ->
  get_outputs (self w) !! 0 = Some fwd ->
  hessian_inputs !! 0 = Some hessian_input ->
  is_none hessian_input = false ->
  is_none (tlm_value fwd) = false ->
  prepare_evaluate_hessian inputs hessian_inputs adj_inputs relevant_dependencies w
  = (Raise (RuntimeError "Hessian computation was run before adjoint."), w).
Proof.
  intros Hadj Hout Hin Hseed Htlm.
  unfold prepare_evaluate_hessian.
  unfold bind at 1. cbn [gets].
  rewrite (bind_ok _ _ _ fwd w) by (unfold lift; now rewrite (getitem_lookup _ _ _ Hout)).
  rewrite (bind_ok _ _ _ hessian_input w)
    by (unfold lift; now rewrite (getitem_lookup _ _ _ Hin)).
  rewrite Hseed, Htlm.
  assert (HF : exists F_form, _create_F_form (self w) = Ok F_form).
  { unfold _create_F_form. rewrite (getitem_lookup _ _ _ Hout). cbn. eauto. }
  destruct HF as [F_form HF].
  rewrite (bind_ok _ _ _ F_form w) by (unfold lift; now rewrite HF).
  now rewrite Hadj.
Qed.

(** C4, as the code has it: without a tangent-linear value on the output,
    [prepare_evaluate_hessian] returns [None] and does nothing else,
    whatever the seed and whether or not an adjoint solution is cached. *)
Theorem prepare_evaluate_hessian_without_tlm
    (w : Running obj) (inputs hessian_inputs adj_inputs : list value)
    (relevant_dependencies : list (value * BlockVariable obj))
    (fwd : BlockVariable obj) (hessian_input : value) :
  get_outputs (self w) !! 0 = Some fwd ->
  hessian_inputs !! 0 = Some hessian_input ->
  tlm_value fwd = PNone ->
  prepare_evaluate_hessian inputs hessian_inputs adj_inputs relevant_dependencies w
  = (Ok PNone, w).
Proof.
  intros Hout Hin Htlm.
  unfold prepare_evaluate_hessian.
  unfold bind at 1. cbn [gets].
  rewrite (bind_ok _ _ _ fwd w) by (unfold lift; now rewrite (getitem_lookup _ _ _ Hout)).
  rewrite (bind_ok _ _ _ hessian_input w)
    by (unfold lift; now rewrite (getitem_lookup _ _ _ Hin)).
  rewrite Htlm. cbn. now destruct (is_none hessian_input).
Qed.

(** ** The adjoint solves *)

Lemma bind_gets {W A B} (f : W -> A) (k : A -> M W B) (w : W) :
  bind (gets f) k w = k (f w) w.
Proof. reflexivity. Qed.

Lemma bind_lift_ok {W A B} (a : A) (k : A -> M W B) (w : W) :
  bind (lift (Ok a)) k w = k a w.
Proof. reflexivity. Qed.

Lemma bind_lift_raise {W A B} (e : exn) (k : A -> M W B) (w : W) :
  bind (lift (Raise e)) k w = (Raise e, w).
Proof. reflexivity. Qed.

Lemma bind_ret {W A B} (a : A) (k : A -> M W B) (w : W) :
  bind (ret a) k w = k a w.
Proof. reflexivity. Qed.

Lemma getitem_raise {A} (l : list A) (i : nat) (e : exn) :
  getitem l i = Raise e -> e = IndexError.
Proof. unfold getitem. destruct (l !! i); [discriminate|]. now intros [= <-]. Qed.

Lemma create_F_form_raise (self : SolveBlock obj) (e : exn) :
  _create_F_form self = Raise e -> e = IndexError.
Proof.
  unfold _create_F_form.
  destruct (getitem (get_outputs self) 0) eqn:Hout; cbn; [discriminate|].
  intros [= <-]. now apply getitem_raise in Hout.
Qed.

Lemma py_len_raise (v : value) (e : exn) : py_len v = Raise e -> e = TypeError.
Proof. destruct v; cbn; try discriminate; now intros [= <-]. Qed.

Lemma star_args_raise (v : value) (e : exn) : star_args v = Raise e -> e = TypeError.
Proof. destruct v; cbn; try discriminate; now intros [= <-]. Qed.

Lemma entries_of_raise (v : value) (e : exn) : entries_of v = Raise e -> e = TypeError.
Proof. destruct v; cbn; try discriminate; now intros [= <-]. Qed.

Lemma py_get_raise (v : value) (key : string) (dflt : value) (e : exn) :
  py_get v key dflt = Raise e -> e = AttributeError.
Proof. destruct v; cbn; try discriminate; now intros [= <-]. Qed.

Lemma py_first_raise (v : value) (e : exn) : py_first v = Raise e -> lookup_error e.
Proof.
  unfold lookup_error.
  destruct v; cbn; try (intros [= <-]; tauto);
    try (intros He; apply getitem_raise in He; tauto).
  intros [= <-]. eauto.
Qed.

Lemma call_if_given_run (callback arg : value) (enabled : bool) (w : Running obj) :
  call_if_given callback arg enabled w
  = (Ok tt, {| self := self w;
               calls := calls w ++ (if negb (is_none callback) && enabled
                                    then [Callback callback arg] else []) |}).
Proof.
  unfold call_if_given. destruct (negb (is_none callback) && enabled); cbn.
  - reflexivity.
  - rewrite app_nil_r. now destruct w.
Qed.

(** What the adjoint solve of each class of block can come to: one solver
    call that leaves the block as it is, with the boundary adjoint solution
    computed in the same way by every class and only when it is asked for;
    or an exception of one of the lookups, before anything has been
    called. *)
Lemma assemble_and_solve_adj_eq_cases (w : Running obj)
    (dFdu_adj_form dJdu : value) (compute_bdy : bool) :
  (exists adj ev,
     _assemble_and_solve_adj_eq dFdu_adj_form dJdu compute_bdy w
     = (Ok (adj, if compute_bdy
                 then boundary_adjoint (self w) dFdu_adj_form dJdu adj
                 else PNone),
        {| self := self w; calls := calls w ++ [ev] |})
     /\ is_callback ev = false /\ is_none adj = false)
  \/ (exists e,
        _assemble_and_solve_adj_eq dFdu_adj_form dJdu compute_bdy w = (Raise e, w)
        /\ lookup_error e
        /\ ((exists aa, adj_args (self w) = PList aa \/ adj_args (self w) = PTuple aa) ->
            (exists ak, adj_kwargs (self w) = PDict ak) ->
            e = IndexError
            /\ class_of (self w) = SolveLinearSystemBlock
            /\ truthy (assemble_system_flag (self w)) = true
            /\ arguments dFdu_adj_form = [])).
Proof.
  assert (Hseq : forall e, star_args (adj_args (self w)) = Raise e ->
                 (exists aa, adj_args (self w) = PList aa \/ adj_args (self w) = PTuple aa) ->
                 False).
  { intros e He (aa & [Ha|Ha]); rewrite Ha in He; discriminate He. }
  assert (Hdict : forall e, entries_of (adj_kwargs (self w)) = Raise e ->
                  (exists ak, adj_kwargs (self w) = PDict ak) -> False).
  { intros e He (ak & Ha); rewrite Ha in He; discriminate He. }
  unfold _assemble_and_solve_adj_eq. rewrite bind_gets; cbv beta.
  destruct (class_of (self w)) eqn:Hcls.
  - unfold generic_assemble_and_solve_adj_eq. rewrite bind_gets; cbv beta zeta.
    destruct (star_args (adj_args (self w))) as [aa|e] eqn:Haa.
    2:{ right. exists e. split; [reflexivity|].
        split; [apply star_args_raise in Haa; unfold lookup_error; tauto|].
        intros Hs _. destruct (Hseq _ eq_refl Hs). }
    destruct (entries_of (adj_kwargs (self w))) as [ak|e] eqn:Hak.
    2:{ right. exists e. split; [reflexivity|].
        split; [apply entries_of_raise in Hak; unfold lookup_error; tauto|].
        intros _ Hd. destruct (Hdict _ eq_refl Hd). }
    left. eexists _, _. split; [reflexivity|]. split; reflexivity.
  - unfold linear_system_assemble_and_solve_adj_eq. rewrite bind_gets; cbv beta zeta.
    unfold bind at 1.
    destruct (truthy (assemble_system_flag (self w))) eqn:Hflag.
    + unfold bind at 1. unfold lift at 1.
      destruct (getitem (arguments dFdu_adj_form) 0) as [v|e] eqn:Hv.
      2:{ right. exists e. split; [reflexivity|].
          apply getitem_raise in Hv as He. subst e.
          split; [unfold lookup_error; tauto|]. intros _ _.
          repeat split; try reflexivity.
          unfold getitem in Hv. now destruct (arguments dFdu_adj_form). }
      cbn [ret].
      destruct (star_args (adj_args (self w))) as [aa|e] eqn:Haa.
      2:{ right. exists e. split; [reflexivity|].
          split; [apply star_args_raise in Haa; unfold lookup_error; tauto|].
          intros Hs _. destruct (Hseq _ eq_refl Hs). }
      destruct (entries_of (adj_kwargs (self w))) as [ak|e] eqn:Hak.
      2:{ right. exists e. split; [reflexivity|].
          split; [apply entries_of_raise in Hak; unfold lookup_error; tauto|].
          intros _ Hd. destruct (Hdict _ eq_refl Hd). }
      left. eexists _, _. split; [reflexivity|]. split; reflexivity.
    + cbn [ret].
      destruct (star_args (adj_args (self w))) as [aa|e] eqn:Haa.
      2:{ right. exists e. split; [reflexivity|].
          split; [apply star_args_raise in Haa; unfold lookup_error; tauto|].
          intros Hs _. destruct (Hseq _ eq_refl Hs). }
      destruct (entries_of (adj_kwargs (self w))) as [ak|e] eqn:Hak.
      2:{ right. exists e. split; [reflexivity|].
          split; [apply entries_of_raise in Hak; unfold lookup_error; tauto|].
          intros _ Hd. destruct (Hdict _ eq_refl Hd). }
      left. eexists _, _. split; [reflexivity|]. split; reflexivity.
  - unfold var_form_assemble_and_solve_adj_eq. rewrite bind_gets; cbv beta zeta.
    destruct (py_len (adj_args (self w))) as [n|e] eqn:Hn.
    2:{ right. exists e. split; [reflexivity|].
        split; [apply py_len_raise in Hn; unfold lookup_error; tauto|].
        intros (aa & [Ha|Ha]) _; rewrite Ha in Hn; discriminate Hn. }
    rewrite bind_lift_ok.
    assert (Hfirst : (exists aa, adj_args (self w) = PList aa
                                 \/ adj_args (self w) = PTuple aa) ->
                     (1 <=? n) = true ->
                     forall e, py_first (adj_args (self w)) = Raise e -> False).
    { intros (aa & Ha) Hle e He. apply Nat.leb_le in Hle.
      destruct Ha as [Ha|Ha]; rewrite Ha in Hn, He; cbn in Hn, He;
        injection Hn as <-; (destruct aa; [cbn in Hle; lia | discriminate He]). }
    destruct (1 <=? n) eqn:Hle.
    + destruct (py_first (adj_args (self w))) as [first|e] eqn:Hf.
      2:{ right. exists e. split; [reflexivity|].
          split; [now apply py_first_raise in Hf|].
          intros Hs _. destruct (Hfirst Hs eq_refl e eq_refl). }
      rewrite bind_lift_ok; cbv beta zeta.
      match goal with
      | |- context [bind (if ?c then _ else _) _ w] => destruct c
      end.
      * destruct (py_get (adj_kwargs (self w)) "lu_solver" (PDict ∅)) as [sp|e] eqn:Hg.
        2:{ right. exists e. split; [reflexivity|].
            split; [apply py_get_raise in Hg; unfold lookup_error; tauto|].
            intros _ (ak & Ha); rewrite Ha in Hg; discriminate Hg. }
        left. eexists _, _. split; [reflexivity|]. split; reflexivity.
      * destruct (star_args (adj_args (self w))) as [aa|e] eqn:Haa.
        2:{ right. exists e. split; [reflexivity|].
            split; [apply star_args_raise in Haa; unfold lookup_error; tauto|].
            intros Hs _. destruct (Hseq _ eq_refl Hs). }
        destruct (py_get (adj_kwargs (self w)) "krylov_solver" (PDict ∅)) as [sp|e] eqn:Hg.
        2:{ right. exists e. split; [reflexivity|].
            split; [apply py_get_raise in Hg; unfold lookup_error; tauto|].
            intros _ (ak & Ha); rewrite Ha in Hg; discriminate Hg. }
        left. eexists _, _. split; [reflexivity|]. split; reflexivity.
    + rewrite bind_ret; cbv beta zeta.
      match goal with
      | |- context [bind (if ?c then _ else _) _ w] => destruct c
      end.
      * destruct (py_get (adj_kwargs (self w)) "lu_solver" (PDict ∅)) as [sp|e] eqn:Hg.
        2:{ right. exists e. split; [reflexivity|].
            split; [apply py_get_raise in Hg; unfold lookup_error; tauto|].
            intros _ (ak & Ha); rewrite Ha in Hg; discriminate Hg. }
        left. eexists _, _. split; [reflexivity|]. split; reflexivity.
      * destruct (star_args (adj_args (self w))) as [aa|e] eqn:Haa.
        2:{ right. exists e. split; [reflexivity|].
            split; [apply star_args_raise in Haa; unfold lookup_error; tauto|].
            intros Hs _. destruct (Hseq _ eq_refl Hs). }
        destruct (py_get (adj_kwargs (self w)) "krylov_solver" (PDict ∅)) as [sp|e] eqn:Hg.
        2:{ right. exists e. split; [reflexivity|].
            split; [apply py_get_raise in Hg; unfold lookup_error; tauto|].
            intros _ (ak & Ha); rewrite Ha in Hg; discriminate Hg. }
        left. eexists _, _. split; [reflexivity|]. split; reflexivity.
Qed.

(** With adjoint arguments that are a list or a tuple and adjoint keywords
    that are a dict, the adjoint solve is made. *)
Lemma assemble_and_solve_adj_eq_run (w : Running obj)
    (dFdu_adj_form dJdu : value) (compute_bdy : bool) :
  (exists aa, adj_args (self w) = PList aa \/ adj_args (self w) = PTuple aa) ->
  (exists ak, adj_kwargs (self w) = PDict ak) ->
  (class_of (self w) = SolveLinearSystemBlock ->
   truthy (assemble_system_flag (self w)) = true ->
   arguments dFdu_adj_form <> []) ->
  exists adj ev,
    _assemble_and_solve_adj_eq dFdu_adj_form dJdu compute_bdy w
    = (Ok (adj, if compute_bdy
                then boundary_adjoint (self w) dFdu_adj_form dJdu adj
                else PNone),
       {| self := self w; calls := calls w ++ [ev] |})
    /\ is_callback ev = false
    /\ is_none adj = false.
Proof.
  intros Hs Hd Hargs.
  destruct (assemble_and_solve_adj_eq_cases w dFdu_adj_form dJdu compute_bdy)
    as [Hok|(e & _ & _ & Hwhy)]; [exact Hok|].
  destruct (Hwhy Hs Hd) as (_ & Hc & Hflag & Hnil).
  now destruct (Hargs Hc Hflag).
Qed.

(** The second-order adjoint solve: one solver call, then the callbacks. *)
Lemma assemble_and_solve_soa_eq_cases (w : Running obj)
    (dFdu_form adj hessian_input d2Fdu2 : value) (compute_bdy : bool) :
  (exists adj2 bdy2 ev,
     _assemble_and_solve_soa_eq dFdu_form adj hessian_input d2Fdu2 compute_bdy w
     = (Ok (adj2, bdy2),
        {| self := self w;
           calls := (calls w ++ [ev])
                    ++ (if negb (is_none (adj2_cb (self w))) && true
                        then [Callback (adj2_cb (self w)) adj2] else [])
                    ++ (if negb (is_none (adj2_bdy_cb (self w))) && compute_bdy
                        then [Callback (adj2_bdy_cb (self w)) bdy2] else []) |})
     /\ is_callback ev = false
     /\ is_none adj2 = false
     /\ bdy2 = (if compute_bdy
                then boundary_adjoint (self w) (PObj (adjoint dFdu_form))
                       (_assemble_soa_eq_rhs (self w) dFdu_form adj hessian_input d2Fdu2)
                       adj2
                else PNone))
  \/ (exists e,
        _assemble_and_solve_soa_eq dFdu_form adj hessian_input d2Fdu2 compute_bdy w
        = (Raise e, w)
        /\ lookup_error e
        /\ ((exists aa, adj_args (self w) = PList aa \/ adj_args (self w) = PTuple aa) ->
            (exists ak, adj_kwargs (self w) = PDict ak) ->
            e = IndexError
            /\ class_of (self w) = SolveLinearSystemBlock
            /\ truthy (assemble_system_flag (self w)) = true
            /\ arguments (PObj (adjoint dFdu_form)) = [])).
Proof.
  unfold _assemble_and_solve_soa_eq. rewrite !bind_gets; cbv beta zeta.
  destruct (assemble_and_solve_adj_eq_cases w (PObj (adjoint dFdu_form))
              (_assemble_soa_eq_rhs (self w) dFdu_form adj hessian_input d2Fdu2)
              compute_bdy)
    as [(adj2 & ev & Hrun & Hev & Hadj)|(e & Hrun & Herr & Hwhy)].
  - left. eexists adj2, _, ev. split; [|repeat split; try assumption; reflexivity].
    rewrite (bind_ok _ _ _ _ _ Hrun). cbn [fst snd].
    unfold bind at 1. rewrite call_if_given_run. cbn [self calls].
    unfold bind at 1. rewrite call_if_given_run. cbn [self calls ret].
    rewrite <- !app_assoc. reflexivity.
  - right. exists e. rewrite (bind_raise _ _ _ _ _ Hrun).
    split; [reflexivity|]. split; [exact Herr|].
    intros Hs Hd. destruct (Hwhy Hs Hd) as (-> & Hc & Hflag & Hnil). now repeat split.
Qed.

(** What a call of [prepare_evaluate_adj] can come to. *)
Lemma prepare_evaluate_adj_outcome (w : Running obj) (inputs adj_inputs : list value)
    (relevant_dependencies : list (value * BlockVariable obj)) :
  (exists F_form adj bdy new_calls,
     prepare_evaluate_adj inputs adj_inputs relevant_dependencies w
     = (Ok (PDict (<["form" := F_form]>
                   (<["adj_sol" := adj]> (<["adj_sol_bdy" := bdy]> ∅)))),
        {| self := set_adj_sol adj (self w); calls := calls w ++ new_calls |})
     /\ is_none adj = false)
  \/ (exists e,
        prepare_evaluate_adj inputs adj_inputs relevant_dependencies w = (Raise e, w)
        /\ lookup_error e
        /\ ((exists aa, adj_args (self w) = PList aa \/ adj_args (self w) = PTuple aa) ->
            (exists ak, adj_kwargs (self w) = PDict ak) ->
            e = IndexError)).
Proof.
  unfold prepare_evaluate_adj. rewrite !bind_gets; cbv beta.
  destruct (getitem (get_outputs (self w)) 0) as [fwd|e] eqn:Hout.
  2:{ right. apply getitem_raise in Hout as He. subst e. exists IndexError.
      split; [apply bind_raise; reflexivity|].
      split; [unfold lookup_error; tauto | reflexivity]. }
  rewrite (bind_ok _ _ _ fwd w) by reflexivity.
  destruct (getitem adj_inputs 0) as [dJdu|e] eqn:Hin.
  2:{ right. apply getitem_raise in Hin as He. subst e. exists IndexError.
      split; [apply bind_raise; reflexivity|].
      split; [unfold lookup_error; tauto | reflexivity]. }
  rewrite (bind_ok _ _ _ dJdu w) by reflexivity.
  destruct (_create_F_form (self w)) as [F_form|e] eqn:HF.
  2:{ right. apply create_F_form_raise in HF as He. subst e. exists IndexError.
      split; [apply bind_raise; reflexivity|].
      split; [unfold lookup_error; tauto | reflexivity]. }
  rewrite (bind_ok _ _ _ F_form w) by reflexivity.
  match goal with
  | |- context [_assemble_and_solve_adj_eq ?form ?seed ?c] =>
      destruct (assemble_and_solve_adj_eq_cases w form seed c)
        as [(adj & ev & Hrun & Hev & Hadj)|(e & Hrun & Herr & Hwhy)]
  end.
  - left. eexists F_form, adj, _, _. split; [|exact Hadj].
    rewrite (bind_ok _ _ _ _ _ Hrun).
    cbn [fst snd]. unfold bind at 1. cbn [modify self calls].
    unfold bind at 1. rewrite call_if_given_run. cbn [self calls].
    unfold bind at 1. rewrite call_if_given_run. cbn [self calls ret].
    rewrite <- !app_assoc. reflexivity.
  - right. exists e. rewrite (bind_raise _ _ _ _ _ Hrun).
    split; [reflexivity|]. split; [exact Herr|].
    intros Hs Hd. now destruct (Hwhy Hs Hd).
Qed.

(** What a call of [prepare_evaluate_hessian] can come to. *)
Lemma prepare_evaluate_hessian_outcome (w : Running obj)
    (inputs hessian_inputs adj_inputs : list value)
    (relevant_dependencies : list (value * BlockVariable obj)) :
  prepare_evaluate_hessian inputs hessian_inputs adj_inputs relevant_dependencies w
  = (Ok PNone, w)
  \/ (exists F_form adj2 bdy2 new_calls,
        prepare_evaluate_hessian inputs hessian_inputs adj_inputs relevant_dependencies w
        = (Ok (PDict (<["adj_sol2" := adj2]>
                      (<["adj_sol2_bdy" := bdy2]>
                       (<["form" := F_form]>
                        (<["adj_sol" := adj_sol (self w)]> ∅))))),
           {| self := self w; calls := calls w ++ new_calls |})
        /\ is_none (adj_sol (self w)) = false)
  \/ (exists e,
        prepare_evaluate_hessian inputs hessian_inputs adj_inputs relevant_dependencies w
        = (Raise e, w)
        /\ lookup_error e
        /\ ((exists aa, adj_args (self w) = PList aa \/ adj_args (self w) = PTuple aa) ->
            (exists ak, adj_kwargs (self w) = PDict ak) ->
            e = IndexError))
  \/ (prepare_evaluate_hessian inputs hessian_inputs adj_inputs relevant_dependencies w
      = (Raise (RuntimeError "Hessian computation was run before adjoint."), w)
      /\ is_none (adj_sol (self w)) = true).
Proof.
  unfold prepare_evaluate_hessian. rewrite !bind_gets; cbv beta.
  destruct (getitem (get_outputs (self w)) 0) as [fwd|e] eqn:Hout.
  2:{ right; right; left. apply getitem_raise in Hout as He. subst e. exists IndexError.
      split; [apply bind_raise; reflexivity|].
      split; [unfold lookup_error; tauto | reflexivity]. }
  rewrite (bind_ok _ _ _ fwd w) by reflexivity.
  destruct (getitem hessian_inputs 0) as [hi|e] eqn:Hin.
  2:{ right; right; left. apply getitem_raise in Hin as He. subst e. exists IndexError.
      split; [apply bind_raise; reflexivity|].
      split; [unfold lookup_error; tauto | reflexivity]. }
  rewrite (bind_ok _ _ _ hi w) by reflexivity.
  destruct (is_none hi); [now left|].
  destruct (is_none (tlm_value fwd)); [now left|].
  destruct (_create_F_form (self w)) as [F_form|e] eqn:HF.
  2:{ right; right; left. apply create_F_form_raise in HF as He. subst e.
      exists IndexError.
      split; [apply bind_raise; reflexivity|].
      split; [unfold lookup_error; tauto | reflexivity]. }
  rewrite (bind_ok _ _ _ F_form w) by reflexivity.
  destruct (is_none (adj_sol (self w))) eqn:Hadj.
  { right; right; right. split; reflexivity. }
  match goal with
  | |- context [_assemble_and_solve_soa_eq ?a ?b ?c ?d ?e] =>
      destruct (assemble_and_solve_soa_eq_cases w a b c d e)
        as [(adj2 & bdy2 & ev & Hrun & _)|(e' & Hrun & Herr & Hwhy)]
  end.
  - right; left. eexists F_form, adj2, bdy2, _. split; [|reflexivity].
    rewrite (bind_ok _ _ _ _ _ Hrun). cbn [fst snd ret].
    rewrite <- !app_assoc. reflexivity.
  - right; right; left. exists e'. rewrite (bind_raise _ _ _ _ _ Hrun).
    split; [reflexivity|]. split; [exact Herr|].
    intros Hs Hd. now destruct (Hwhy Hs Hd).
Qed.

(** The loop body of the tangent-linear pass leaves its state alone for a
    dependency that is the unknown of a nonlinear residual. *)
Lemma tlm_step_unknown (self : SolveBlock obj) (F_form : value)
    (state : list value * value) (bv : BlockVariable obj) :
  linear self = false ->
  py_eq (output bv) (func self) = true ->
  snd (tlm_step self F_form state bv) = snd state
  /\ (isinstance (output bv) DirichletBC = false ->
      tlm_step self F_form state bv = state).
Proof.
  intros Hlin Heq. destruct state as [bcs dFdm]. unfold tlm_step.
  rewrite Hlin, Heq. cbn [negb andb].
  split.
  - destruct (isinstance (output bv) DirichletBC);
      destruct (is_none (tlm_value bv)); reflexivity.
  - intros ->. destruct (is_none (tlm_value bv)); reflexivity.
Qed.

(** The same holds for the right-hand side of the second-order adjoint
    equation and for the cross terms of the Hessian component. *)
Lemma soa_step_unknown (self : SolveBlock obj) (dFdu_form adj b_form : value)
    (bv : BlockVariable obj) :
  linear self = false -> py_eq (output bv) (func self) = true ->
  soa_step self dFdu_form adj b_form bv = b_form.
Proof. intros Hlin Heq. unfold soa_step. now rewrite Hlin, Heq. Qed.

Lemma cross_term_step_unknown (self : SolveBlock obj) (dFdm_adj d2Fdm2 idx : value)
    (bv : BlockVariable obj) :
  linear self = false -> py_eq (output bv) (func self) = true ->
  cross_term_step self dFdm_adj d2Fdm2 (idx, bv) = d2Fdm2.
Proof.
  intros Hlin Heq. unfold cross_term_step. cbn [snd]. rewrite Hlin, Heq.
  destruct (isinstance _ _); [reflexivity|].
  destruct (is_none _); reflexivity.
Qed.

(** C5: in a block with a nonlinear residual, a dependency whose value is
    the unknown [self.func] contributes to no pass, and none of them
    raises: the adjoint and the Hessian component are [None], and the loop
    of the tangent-linear pass adds no term for it, so that the pass runs as
    if the dependency were not there. *)
Theorem unknown_dependency_contributes_nothing
    (self : SolveBlock obj) (inputs adj_inputs hessian_inputs : list value)
    (bv : BlockVariable obj) (idx : nat)
    (relevant_dependencies : list (value * BlockVariable obj)) (prepared : value) :
  linear self = false ->
  py_eq (func self) (output bv) = true ->
  py_eq (output bv) (func self) = true ->
  evaluate_adj_component self inputs adj_inputs bv idx prepared = Ok PNone
  /\ evaluate_hessian_component self inputs hessian_inputs adj_inputs bv idx
       relevant_dependencies prepared = Ok PNone
  /\ (forall F_form state, snd (tlm_step self F_form state bv) = snd state)
  /\ (forall F_form before after state,
        isinstance (output bv) DirichletBC = false ->
        fold_left (tlm_step self F_form) (before ++ bv :: after) state
        = fold_left (tlm_step self F_form) (before ++ after) state).
Proof.
  intros Hlin Heq1 Heq2. repeat split.
  - unfold evaluate_adj_component. now rewrite Hlin, Heq1.
  - unfold evaluate_hessian_component. now rewrite Hlin, Heq2.
  - intros F_form state. now apply tlm_step_unknown.
  - intros F_form before after state Hbc.
    rewrite !fold_left_app. cbn [fold_left]. f_equal.
    now apply tlm_step_unknown.
Qed.

(** The loop of the tangent-linear pass collects exactly [tangent_bcs]. *)
Lemma tlm_loop_bcs (self : SolveBlock obj) (F_form : value) :
  forall deps bcs dFdm,
    fst (fold_left (tlm_step self F_form) deps (bcs, dFdm)) = bcs ++ tangent_bcs deps.
Proof.
  induction deps as [|d deps IH]; intros bcs dFdm; cbn [fold_left tangent_bcs].
  - now rewrite app_nil_r.
  - unfold tlm_step at 2.
    destruct (isinstance (output d) DirichletBC).
    + destruct (is_none (tlm_value d)); rewrite IH; now rewrite <- app_assoc.
    + destruct (is_none (tlm_value d)); [apply IH|].
      destruct (py_eq _ _ && _); apply IH.
Qed.

Lemma tlm_loop_zero (self : SolveBlock obj) (F_form : value) :
  forall deps bcs,
    Forall (adds_no_term self) deps ->
    snd (fold_left (tlm_step self F_form) deps (bcs, PFloat 0)) = PFloat 0.
Proof.
  induction deps as [|d deps IH]; intros bcs Hall; [reflexivity|].
  inversion Hall as [|? ? Hd Hdeps]; subst. cbn [fold_left]. unfold tlm_step at 2.
  destruct (isinstance (output d) DirichletBC) eqn:Hbc.
  - destruct (is_none (tlm_value d)); now apply IH.
  - destruct (is_none (tlm_value d)) eqn:Hnone; [now apply IH|].
    destruct Hd as [Hd|[Hd|Hd]]; try congruence.
    rewrite Hd. now apply IH.
Qed.

(** Whatever the dependencies, what the loop leaves in [dFdm] is the
    float it started from or a backend object: a sum that has received a
    term is no float any more. *)
Lemma tlm_loop_float_or_object (self : SolveBlock obj) (F_form : value) :
  forall deps bcs dFdm,
    float_or_object dFdm ->
    float_or_object (snd (fold_left (tlm_step self F_form) deps (bcs, dFdm))).
Proof.
  induction deps as [|d deps IH]; intros bcs dFdm Hd; [exact Hd|].
  cbn [fold_left]. unfold tlm_step at 2.
  destruct (isinstance (output d) DirichletBC).
  - destruct (is_none (tlm_value d)); now apply IH.
  - destruct (is_none (tlm_value d)); [now apply IH|].
    destruct (py_eq _ _ && _); [now apply IH|].
    apply IH. right.
    destruct Hd as [->|[o ->]]; cbn; eauto.
Qed.

(** C7: when no dependency adds a term (each is a boundary condition,
    carries no tangent-linear value, or is the unknown of a nonlinear
    residual), [evaluate_tlm_component] takes
    [inner(Constant(numpy.zeros(v.ufl_shape)), v) * dx], with [v] the first
    argument of the Jacobian form, as right-hand side, and calls the
    backend solve once with it (expanded, assembled, and with the collected
    boundary conditions applied). *)
Theorem evaluate_tlm_component_zero_rhs
    (w : Running obj) (inputs tlm_inputs : list value) (bv : BlockVariable obj)
    (idx : nat) (prepared F_form dFdu v : value) (out : BlockVariable obj) :
  subscript prepared "form" = Ok F_form ->
  subscript prepared "dFdu" = Ok dFdu ->
  get_outputs (self w) !! idx = Some out ->
  arguments dFdu !! 0 = Some v ->
  Forall (adds_no_term (self w)) (get_dependencies (self w)) ->
  let bcs := tangent_bcs (get_dependencies (self w)) in
  let zero := PObj (mul (PObj (inner (PObj (backend_Constant
                                       (PObj (numpy_zeros (PObj (ufl_shape v)))))) v))
                        (PObj dx)) in
  let rhs := fold_left (fun r bc => PObj (bc_apply bc r)) bcs
               (PObj (assemble_adjoint_value (PObj (expand_derivatives zero)) ∅)) in
  let A := PObj (assemble_adjoint_value dFdu (<["bcs" := PList bcs]> ∅)) in
  let dudm := PObj (backend_Function (PObj (function_space_of (output out)))) in
  evaluate_tlm_component inputs tlm_inputs bv idx prepared w
  = (Ok (PObj (solution A dudm rhs [] ∅)),
     {| self := self w;
        calls := calls w ++ [BackendSolve [A; PObj (vector dudm); rhs] ∅] |}).
Proof.
  intros Hform HdFdu Hout Hv Hall bcs zero rhs A dudm.
  unfold evaluate_tlm_component.
  unfold bind at 1. cbn [gets].
  rewrite (bind_ok _ _ _ F_form w) by (unfold lift; now rewrite Hform).
  rewrite (bind_ok _ _ _ dFdu w) by (unfold lift; now rewrite HdFdu).
  rewrite (bind_ok _ _ _ out w) by (unfold lift; now rewrite (getitem_lookup _ _ _ Hout)).
  pose proof (tlm_loop_bcs (self w) F_form (get_dependencies (self w)) [] (PFloat 0)) as Hb.
  pose proof (tlm_loop_zero (self w) F_form (get_dependencies (self w)) [] Hall) as Hz.
  destruct (fold_left (tlm_step _ _) _ _) as [bcs' dFdm].
  cbn [fst snd] in Hb, Hz. subst bcs' dFdm.
  cbn [is_float app].
  rewrite (bind_ok _ _ _ zero w).
  2:{ rewrite (bind_ok _ _ _ v w) by (unfold lift; now rewrite (getitem_lookup _ _ _ Hv)).
      reflexivity. }
  reflexivity.
Qed.



Lemma should_compute_boundary_adjoint_iff
    (relevant_dependencies : list (value * BlockVariable obj)) :
  _should_compute_boundary_adjoint relevant_dependencies = true
  <-> Exists (fun dep => isinstance (output dep.2) DirichletBC = true)
             relevant_dependencies.
Proof.
  unfold _should_compute_boundary_adjoint.
  rewrite existsb_exists, Exists_exists.
  split; intros (dep & Hin & Hdep); exists dep; split; try assumption;
    now apply list_elem_of_In.
Qed.


(** The Hessian pass, once its solve has been made. *)
Lemma prepare_evaluate_hessian_run (w : Running obj)
    (inputs hessian_inputs adj_inputs : list value)
    (relevant_dependencies : list (value * BlockVariable obj))
    (fwd : BlockVariable obj) (hessian_input F_form adj2 bdy2 : value)
    (w' : Running obj) :
  get_outputs (self w) !! 0 = Some fwd ->
  hessian_inputs !! 0 = Some hessian_input ->
  is_none hessian_input = false ->
  is_none (tlm_value fwd) = false ->
  _create_F_form (self w) = Ok F_form ->
  is_none (adj_sol (self w)) = false ->
  _assemble_and_solve_soa_eq
    (PObj (derivative F_form (saved_output fwd) PNone))
    (adj_sol (self w)) hessian_input
    (PObj (expand_derivatives
             (PObj (derivative (PObj (derivative F_form (saved_output fwd) PNone))
                      (saved_output fwd) (tlm_value fwd)))))
    (_should_compute_boundary_adjoint relevant_dependencies) w
  = (Ok (adj2, bdy2), w') ->
  prepare_evaluate_hessian inputs hessian_inputs adj_inputs relevant_dependencies w
  = (Ok (PDict (<["adj_sol2" := adj2]>
                (<["adj_sol2_bdy" := bdy2]>
                 (<["form" := F_form]>
                  (<["adj_sol" := adj_sol (self w)]> ∅))))), w').
Proof.
  intros Hout Hin Hhi Htlm HF Hadj Hrun.
  unfold prepare_evaluate_hessian. rewrite !bind_gets; cbv beta.
  rewrite (bind_ok _ _ _ fwd w) by (unfold lift; now rewrite (getitem_lookup _ _ _ Hout)).
  rewrite (bind_ok _ _ _ hessian_input w)
    by (unfold lift; now rewrite (getitem_lookup _ _ _ Hin)).
  rewrite Hhi, Htlm.
  rewrite (bind_ok _ _ _ F_form w) by (unfold lift; now rewrite HF).
  cbv zeta. rewrite Hadj. rewrite (bind_ok _ _ _ _ _ Hrun). reflexivity.
Qed.


(** The keyword arguments that reach the backend: [annotate] is taken out
    by [annotate_tape], and the keywords of the block by [pop_kwargs] when
    the call is annotated. *)
Lemma annotate_tape_run (kwargs : dict) (w : World obj) :
  annotate_tape kwargs w
  = (Ok (if 0 <? annotate_off w then false
         else truthy (default (PBool true) (kwargs !! "annotate")),
         delete "annotate" kwargs), w).
Proof. reflexivity. Qed.

(** C10, as the code has it.  [solve] calls the backend solve exactly once,
    with the positional arguments as given and with the keyword arguments
    that are left once [annotate] has been taken out, and, in an annotated
    call, the keywords of the block as well.  When annotation is off, the
    tape, the blocks and the block variables are as before.  When it is on
    and the block can be constructed, one block is appended to the tape;
    then, if the second argument has [create_block_variable], or has a
    [function] that has it, one block variable is created for that object
    and it is the one output of the block; and if it has neither, the call
    ends in an AttributeError after the backend solve, and the block stays
    on the tape without an output. *)
Theorem solve_annotation_effects (args : list value) (kwargs : dict) (w : World obj) :
  let annotate := if 0 <? annotate_off w then false
                  else truthy (default (PBool true) (kwargs !! "annotate")) in
  let kwargs1 := delete "annotate" kwargs in
  (annotate = false ->
   solve args kwargs w
   = (Ok (backend_solve args kwargs1),
      {| working_tape := working_tape w; heap := heap w;
         block_variable_of := block_variable_of w;
         created_block_variables := created_block_variables w;
         annotate_off := annotate_off w;
         backend_calls := backend_calls w ++ [BackendSolve args kwargs1] |}))
  /\
  (annotate = true ->
   forall first second block,
     args !! 0 = Some first -> args !! 1 = Some second ->
     construct (if negb (isinstance first Equation)
                then SolveLinearSystemBlock else SolveVarFormBlock)
               (block_variable_of w) args
               ((pop_kwargs kwargs1).2 ∪ (pop_kwargs kwargs1).1) = Ok block ->
     let kwargs2 := (pop_kwargs kwargs1).2 in
     let address := fresh (dom (heap w)) in
     (forall target,
        (hasattr second "create_block_variable" = true /\ target = second)
        \/ (hasattr second "create_block_variable" = false
            /\ getattr second "function" = Ok target
            /\ hasattr target "create_block_variable" = true) ->
        let bv := {| bv_id := created_block_variables w; output := target;
                     saved_output := target; tlm_value := PNone |} in
        exists w',
          solve args kwargs w = (Ok (backend_solve args kwargs2), w')
          /\ backend_calls w' = backend_calls w ++ [BackendSolve args kwargs2]
          /\ working_tape w' = working_tape w ++ [address]
          /\ heap w !! address = None
          /\ heap w' = <[address := add_output bv block]> (heap w)
          /\ length (_outputs (add_output bv block)) = 1
          /\ created_block_variables w' = S (created_block_variables w)
          /\ block_variable_of w'
             = (fun y => if py_eq y target then bv else block_variable_of w y)
          /\ annotate_off w' = annotate_off w)
     /\
     (hasattr second "create_block_variable" = false ->
      (forall function, getattr second "function" = Ok function ->
                        hasattr function "create_block_variable" = false) ->
      solve args kwargs w
      = (Raise AttributeError,
         {| working_tape := working_tape w ++ [address];
            heap := <[address := block]> (heap w);
            block_variable_of := block_variable_of w;
            created_block_variables := created_block_variables w;
            annotate_off := annotate_off w;
            backend_calls := backend_calls w ++ [BackendSolve args kwargs2] |})
      /\ heap w !! address = None
      /\ _outputs block = [])).
Proof.
  intros annotate kwargs1. split.
  - intros Hoff. unfold solve.
    rewrite (bind_ok _ _ _ _ _ (annotate_tape_run kwargs w)). cbn [fst snd].
    fold annotate. rewrite Hoff. reflexivity.
  - intros Hon first second block Hfirst Hsecond Hblock kwargs2 address.
    destruct (construct_adj_sol_none _ _ _ _ _ Hblock) as [_ Houts].
    assert (Hfresh : heap w !! address = None).
    { apply not_elem_of_dom. apply is_fresh. }
    assert (Hrun : forall k : value -> M (World obj) (BlockVariable obj * nat),
      solve args kwargs w
      = (output <- ret (backend_solve args kwargs2) ;;
         (overloaded <-
            (if hasattr second "create_block_variable" then ret second
             else
               function <- lift (getattr second "function") ;;
               if hasattr function "create_block_variable" then ret function
               else raise AttributeError) ;;
          block_variable <- create_block_variable overloaded ;;
          block_add_output address block_variable) ;;;
         ret output)
          {| working_tape := working_tape w ++ [address];
             heap := <[address := block]> (heap w);
             block_variable_of := block_variable_of w;
             created_block_variables := created_block_variables w;
             annotate_off := annotate_off w;
             backend_calls := backend_calls w ++ [BackendSolve args kwargs2] |}).
    { intros _. unfold solve.
      rewrite (bind_ok _ _ _ _ _ (annotate_tape_run kwargs w)). cbn [fst snd].
      fold annotate. rewrite Hon. fold kwargs1.
      unfold bind at 1. unfold bind at 1. unfold lift at 1.
      rewrite (getitem_lookup _ _ _ Hfirst).
      unfold bind at 1. cbn [gets]. unfold bind at 1. unfold lift at 1.
      rewrite Hblock.
      unfold bind at 1. cbn [add_block ret fst snd].
      unfold bind at 1. unfold stop_annotating, call_backend_solve.
      cbn [bind modify ret set_stop_depth stop_depth World_annotating
           working_tape heap block_variable_of created_block_variables
           annotate_off backend_calls Init.Nat.pred].
      unfold bind at 1. unfold bind at 1. unfold bind at 1. unfold lift at 1.
      rewrite (getitem_lookup _ _ _ Hsecond).
      fold kwargs2 address. destruct w; reflexivity. }
    specialize (Hrun (fun _ => raise AttributeError)).
    split.
    + intros target Htarget bv.
      assert (Hlen : length (_outputs (add_output bv block)) = 1).
      { cbn. now rewrite Houts. }
      rewrite Hrun. rewrite bind_ret.
      destruct Htarget as [(Hhas & ->)|(Hhas & Hfun & Hhas')]; rewrite Hhas.
      * cbn [create_block_variable block_add_output bind modify ret
             working_tape heap block_variable_of created_block_variables
             annotate_off backend_calls].
        eexists; split; [reflexivity|].
        cbn [working_tape heap block_variable_of created_block_variables
             annotate_off backend_calls].
        repeat split; try assumption. now rewrite alter_insert_eq.
      * rewrite Hfun. cbv [bind lift]. rewrite Hhas'.
        cbn [create_block_variable block_add_output bind modify ret
             working_tape heap block_variable_of created_block_variables
             annotate_off backend_calls].
        eexists; split; [reflexivity|].
        cbn [working_tape heap block_variable_of created_block_variables
             annotate_off backend_calls].
        repeat split; try assumption. now rewrite alter_insert_eq.
    + intros Hhas Hnone. split; [|split; assumption].
      rewrite Hrun. rewrite bind_ret. rewrite Hhas.
      destruct (getattr second "function") as [function|e] eqn:Hfun.
      * cbv [bind lift]. rewrite (Hnone function eq_refl). reflexivity.
      * assert (e = AttributeError) as ->.
        { unfold getattr in Hfun. destruct second; try (now injection Hfun as <-).
          destruct (has_attr _ _); [discriminate|]. now injection Hfun as <-. }
        reflexivity.
Qed.

End SolvingFacts.


(** * Concrete runs *)

Section VerificationRuns.

Import Verification Sym.

(** Residuals 8, 4, 2, 1 over the step sizes 1, 1/2, 1/4, 1/8. *)
Lemma convergence_rates_four_run :
  exists r,
    convergence_rates (C:=num) [Lit 8; Lit 4; Lit 2; Lit 1]
      [Lit 1; Lit 0.5; Lit 0.25; Lit 0.125] world0
    = (Ok r, {| trace := [Print "Computed convergence rates: {}" r];
                annotate_off := 0 |})
    /\ length r = 3
    /\ r !! 0 = Some (fdiv (flog (fdiv (Lit 4) (Lit 8))) (flog (fdiv (Lit 0.5) (Lit 1)))).
Proof.
  destruct (proj1 (convergence_rates_four (C:=num) [Lit 8; Lit 4; Lit 2; Lit 1]
                     [Lit 1; Lit 0.5; Lit 0.25; Lit 0.125] world0 eq_refl eq_refl))
    as (r & Hr & Hlen & Hnth).
  { intros j y Hj [Hy|Hy];
      (do 3 (destruct j as [|j]; [cbn in Hy; injection Hy as <-; reflexivity|]));
      lia. }
  exists r. split; [exact Hr|]. split; [exact Hlen|].
  apply (Hnth 1); [lia | reflexivity..].
Defined.

(** C1 fails as stated: with a first residual that is zero,
    [E_values[1]/E_values[0]] raises, and [convergence_rates] returns no
    sequence at all. *)
Lemma convergence_rates_zero_residual :
  length [Lit 0; Lit 1; Lit 1; Lit 1] = 4
  /\ length [Lit 1; Lit 0.5; Lit 0.25; Lit 0.125] = 4
  /\ py_div (Lit 1) (Lit 0) = Raise ZeroDivisionError
  /\ convergence_rates (C:=num) [Lit 0; Lit 1; Lit 1; Lit 1]
       [Lit 1; Lit 0.5; Lit 0.25; Lit 0.125] world0
     = (Raise ZeroDivisionError, world0).
Proof. repeat split; vm_compute; reflexivity. Qed.

(** [J(m) = m*m] at [m = 1] in the direction [h = 1] with [dJdm = 2]. *)
Lemma taylor_test_min_rate_run :
  exists rate printed rates,
    taylor_test (J_square 1) (PyObj (Lit 1)) (PyObj (Lit 1)) (Some (Lit 2))
      (Lit 0) world0
    = (Ok rate,
       {| trace := printed ++ [Print "Computed convergence rates: {}" rates];
          annotate_off := 0 |})
    /\ length rates = 3.
Proof.
  assert (He0 : fdiv (F:=num) (fconst 0.01) (fconst 1) = fconst 0.01)
    by (vm_compute; reflexivity).
  assert (He1 : fdiv (F:=num) (fconst 0.01) (fconst 2) = fconst 0.005)
    by (vm_compute; reflexivity).
  assert (He2 : fdiv (F:=num) (fconst 0.01) (fconst 4) = fconst 0.0025)
    by (vm_compute; reflexivity).
  assert (He3 : fdiv (F:=num) (fconst 0.01) (fconst 8) = fconst 0.00125)
    by (vm_compute; reflexivity).
  eexists _, _, _. split.
  - apply (proj1 (taylor_test_min_rate (J_square 1) (PyObj (Lit 1)) (PyObj (Lit 1))
                    (Some (Lit 2)) (Lit 0) world0 _ _ _ _
                    (or_introl (le_n 1)) He0 He1 He2 He3
                    eq_refl eq_refl eq_refl eq_refl)).
    vm_compute. reflexivity.
  - reflexivity.
Defined.

(** C2 fails as stated: for the functional that is zero everywhere, with
    [dJdm = 0] and [Hm = 0], every residual is zero; the quotient of the
    first two raises, and [taylor_test] returns no rate. *)
Lemma taylor_test_zero_residual :
  length (controls J_zero) <= 1
  /\ (forall eps, In eps epsilons ->
        exists p, perturbe (PyObj (Lit 0)) (PyObj (Lit 1)) eps = Ok p)
  /\ fst (taylor_test J_zero (PyObj (Lit 0)) (PyObj (Lit 1)) (Some (Lit 0))
            (Lit 0) world0)
     = Raise ZeroDivisionError.
Proof.
  split; [cbn; lia|]. split.
  - intros eps _. eexists. reflexivity.
  - vm_compute. reflexivity.
Qed.

(** Two declared controls with a point that is no list, and one declared
    control. *)
Lemma taylor_test_validates_controls_run :
  (exists msg,
      taylor_test (J_square 2) (PyObj (Lit 1)) (PyList [Lit 1; Lit 1]) None (Lit 0) world0
      = (Raise (ValueError msg), world0))
  /\ (forall msg,
        fst (taylor_test (J_square 1) (PyObj (Lit 1)) (PyObj (Lit 1)) None (Lit 0) world0)
        <> Raise (ValueError msg)).
Proof.
  split.
  - apply (proj1 (taylor_test_validates_controls (J_square 2) (PyObj (Lit 1))
                    (PyList [Lit 1; Lit 1]) None (Lit 0) world0)).
    + cbn. lia.
    + left. reflexivity.
  - apply (proj2 (taylor_test_validates_controls (J_square 1) (PyObj (Lit 1))
                    (PyObj (Lit 1)) None (Lit 0) world0)).
    cbn. lia.
Defined.

End VerificationRuns.

Section SolvingRuns.

Import Solving SymBackend.

(** C8 fails as stated: both sides of [inner(u, v)*dx == 0] are
    expression-linear in the unknown [u], and the block constructed for it
    has its [linear] flag false. *)
Lemma linear_flag_not_linearity :
  exists b,
    GenericSolveBlock__init__ SolveVarFormBlock (initial_block_variable ∅)
      F_linear (PInt 0) u_ (PList [bc_]) [] ∅ = Ok b
    /\ expression_linear "u" (lhs b) = true
    /\ expression_linear "u" (rhs b) = true
    /\ linear b = false.
Proof.
  assert (Hok : is_ok (GenericSolveBlock__init__ SolveVarFormBlock
                         (initial_block_variable ∅) F_linear (PInt 0) u_
                         (PList [bc_]) [] ∅) = true) by (vm_compute; reflexivity).
  destruct (GenericSolveBlock__init__ SolveVarFormBlock (initial_block_variable ∅)
              F_linear (PInt 0) u_ (PList [bc_]) [] ∅) as [b|e] eqn:Hinit;
    [|discriminate Hok].
  exists b. split; [reflexivity|].
  apply GenericSolveBlock_init_fields in Hinit as (-> & _ & -> & -> & _).
  repeat split; vm_compute; reflexivity.
Qed.

(** The block for [a == L] is flagged linear. *)
Lemma linear_flag_iff_both_forms_run :
  exists b,
    GenericSolveBlock__init__ SolveVarFormBlock (initial_block_variable ∅)
      a_form L_form u_ (PList [bc_]) [] ∅ = Ok b
    /\ (linear b = true
        <-> isinstance a_form Form = true /\ isinstance L_form Form = true).
Proof.
  assert (Hok : is_ok (GenericSolveBlock__init__ SolveVarFormBlock
                         (initial_block_variable ∅) a_form L_form u_
                         (PList [bc_]) [] ∅) = true) by (vm_compute; reflexivity).
  destruct (GenericSolveBlock__init__ SolveVarFormBlock (initial_block_variable ∅)
              a_form L_form u_ (PList [bc_]) [] ∅) as [b|e] eqn:Hinit;
    [|discriminate Hok].
  exists b. split; [reflexivity|].
  exact (linear_flag_iff_both_forms _ _ _ _ _ _ _ _ _ Hinit).
Defined.

(** A block with an output that carries a tangent-linear value and no
    cached adjoint solution. *)
Lemma prepare_evaluate_hessian_before_adjoint_run :
  prepare_evaluate_hessian [] [object Function "seed"] [] []
    (running (sample_block false [] [block_variable 1 u_ (object Function "du")] PNone))
  = (Raise (RuntimeError "Hessian computation was run before adjoint."),
     running (sample_block false [] [block_variable 1 u_ (object Function "du")] PNone)).
Proof.
  apply (prepare_evaluate_hessian_before_adjoint _ [] _ [] []
           (block_variable 1 u_ (object Function "du")) (object Function "seed"));
    reflexivity.
Defined.

(** C4 fails as stated: with a seed and no tangent-linear value on the
    output, [prepare_evaluate_hessian] returns [None]; nothing is raised,
    even though no adjoint solution is cached either. *)
Lemma prepare_evaluate_hessian_none_is_no_failure :
  prepare_evaluate_hessian [] [object Function "seed"] [] []
    (running (sample_block false [] [block_variable 1 u_ PNone] PNone))
  = (Ok PNone, running (sample_block false [] [block_variable 1 u_ PNone] PNone)).
Proof. vm_compute. reflexivity. Qed.

Lemma prepare_evaluate_hessian_without_tlm_run :
  prepare_evaluate_hessian [] [object Function "seed"] [] []
    (running (sample_block true [] [block_variable 1 u_ PNone] (object Function "adj")))
  = (Ok PNone,
     running (sample_block true [] [block_variable 1 u_ PNone] (object Function "adj"))).
Proof.
  apply (prepare_evaluate_hessian_without_tlm _ [] _ [] []
           (block_variable 1 u_ PNone) (object Function "seed"));
    reflexivity.
Defined.

(** The unknown [u] as a dependency of the nonlinear block. *)
Lemma unknown_dependency_contributes_nothing_run :
  evaluate_adj_component (sample_block false [] [] PNone) [] []
    (block_variable 0 u_ (object Function "du")) 0 PNone = Ok PNone
  /\ evaluate_hessian_component (sample_block false [] [] PNone) [] [] []
       (block_variable 0 u_ (object Function "du")) 0 [] PNone = Ok PNone.
Proof.
  destruct (unknown_dependency_contributes_nothing (sample_block false [] [] PNone)
              [] [] [] (block_variable 0 u_ (object Function "du")) 0 [] PNone)
    as (Hadj & Hhess & _); [vm_compute; reflexivity..|].
  split; assumption.
Defined.


(** A block whose only dependencies are the unknown, without a
    tangent-linear value, and a boundary condition. *)
Lemma evaluate_tlm_component_zero_rhs_run :
  exists sol call,
    evaluate_tlm_component [] [] (block_variable 1 u_ PNone) 0
      (PDict (<["form" := F_linear]> (<["dFdu" := dFdu_]> ∅)))
      (running (sample_block false
                  [block_variable 0 u_ PNone; block_variable 2 bc_ PNone]
                  [block_variable 1 u_ PNone] PNone))
    = (Ok sol,
       {| self := sample_block false
                    [block_variable 0 u_ PNone; block_variable 2 bc_ PNone]
                    [block_variable 1 u_ PNone] PNone;
          calls := [call] |}).
Proof.
  eexists _, _.
  refine (evaluate_tlm_component_zero_rhs
            (running (sample_block false
                        [block_variable 0 u_ PNone; block_variable 2 bc_ PNone]
                        [block_variable 1 u_ PNone] PNone))
            [] [] (block_variable 1 u_ PNone) 0
            (PDict (<["form" := F_linear]> (<["dFdu" := dFdu_]> ∅)))
            F_linear dFdu_ v_ (block_variable 1 u_ PNone) _ _ _ _ _).
  - vm_compute. reflexivity.
  - vm_compute. reflexivity.
  - reflexivity.
  - vm_compute. reflexivity.
  - constructor; [right; left; reflexivity|].
    constructor; [left; vm_compute; reflexivity|].
    constructor.
Defined.

(** C10 fails as stated: called with [annotate=False], [solve] hands the
    backend solve the keyword arguments without [annotate]; called with a
    callback [adj_cb] while annotating, it hands them on without [adj_cb].
    In both runs the keyword arguments of the one backend call are empty
    and so differ from the ones [solve] received. *)
Lemma solve_backend_kwargs_not_original :
  let args := [equation a_form L_form; u_; bc_] in
  let no_annotation : gmap string (pyval term) := {["annotate" := PBool false]} in
  let with_callback : gmap string (pyval term) := {["adj_cb" := object Function "cb"]} in
  backend_calls (solve args no_annotation (empty_world ∅)).2 = [BackendSolve args ∅]
  /\ BackendSolve args ∅ <> BackendSolve args no_annotation
  /\ backend_calls (solve args with_callback (empty_world ∅)).2 = [BackendSolve args ∅]
  /\ BackendSolve args ∅ <> BackendSolve args with_callback.
Proof.
  cbn zeta. split; [|split; [|split]].
  - vm_compute. reflexivity.
  - intros Heq.
    assert (Hk := f_equal (fun e => match e with
                                    | BackendSolve _ k => k !! "annotate"
                                    | _ => None
                                    end) Heq).
    vm_compute in Hk. discriminate Hk.
  - vm_compute. reflexivity.
  - intros Heq.
    assert (Hk := f_equal (fun e => match e with
                                    | BackendSolve _ k => k !! "adj_cb"
                                    | _ => None
                                    end) Heq).
    vm_compute in Hk. discriminate Hk.
Qed.

(** One run without annotation, one with it, and one with it for an
    unknown that has neither [create_block_variable] nor [function]. *)
Lemma solve_annotation_effects_run :
  let args := [equation a_form L_form; u_; bc_] in
  let plain := PObj (Object (Some Function) "plain" ∅) in
  (working_tape (solve args {["annotate" := PBool false]} (empty_world ∅)).2 = []
   /\ created_block_variables
        (solve args {["annotate" := PBool false]} (empty_world ∅)).2 = 0)
  /\ (exists address,
        working_tape (solve args ∅ (empty_world ∅)).2 = [address]
        /\ created_block_variables (solve args ∅ (empty_world ∅)).2 = 1)
  /\ (exists address block,
        solve [equation a_form L_form; plain; bc_] ∅ (empty_world ∅)
        = (Raise AttributeError,
           {| working_tape := [address]; heap := {[address := block]};
              block_variable_of := block_variable_of (empty_world ∅);
              created_block_variables := 0; annotate_off := 0;
              backend_calls := [BackendSolve [equation a_form L_form; plain; bc_] ∅] |})
        /\ _outputs block = []).
Proof.
  intros args plain. split; [|split].
  - rewrite (proj1 (solve_annotation_effects args {["annotate" := PBool false]}
                      (empty_world ∅))) by (vm_compute; reflexivity).
    split; reflexivity.
  - assert (Hok : is_ok (construct SolveVarFormBlock
                           (block_variable_of (empty_world ∅)) args
                           ((pop_kwargs (delete "annotate"
                                           (∅ : gmap string (pyval term)))).2
                            ∪ (pop_kwargs (delete "annotate" ∅)).1)) = true)
      by (vm_compute; reflexivity).
    destruct (construct SolveVarFormBlock (block_variable_of (empty_world ∅)) args
                ((pop_kwargs (delete "annotate" (∅ : gmap string (pyval term)))).2
                 ∪ (pop_kwargs (delete "annotate" ∅)).1)) as [block|e] eqn:Hblock;
      [|discriminate Hok].
    assert (Hon : (if 0 <? annotate_off (empty_world ∅) then false
                   else truthy (default (PBool true)
                                  ((∅ : gmap string (pyval term)) !! "annotate")))
                  = true) by reflexivity.
    pose proof (proj2 (solve_annotation_effects args ∅ (empty_world ∅)) Hon
                  (equation a_form L_form) u_ block eq_refl eq_refl Hblock) as Hsolve.
    cbv zeta in Hsolve. destruct Hsolve as [Hgood _].
    destruct (Hgood u_ (or_introl (conj eq_refl eq_refl)))
      as (w' & Hrun & _ & Htape & _ & _ & _ & Hcreated & _).
    rewrite Hrun. cbn [snd]. rewrite Htape, Hcreated. eauto.
  - set (args' := [equation a_form L_form; plain; bc_]).
    assert (Hok : is_ok (construct SolveVarFormBlock
                           (block_variable_of (empty_world ∅)) args'
                           ((pop_kwargs (delete "annotate"
                                           (∅ : gmap string (pyval term)))).2
                            ∪ (pop_kwargs (delete "annotate" ∅)).1)) = true)
      by (vm_compute; reflexivity).
    destruct (construct SolveVarFormBlock (block_variable_of (empty_world ∅)) args'
                ((pop_kwargs (delete "annotate" (∅ : gmap string (pyval term)))).2
                 ∪ (pop_kwargs (delete "annotate" ∅)).1)) as [block|e] eqn:Hblock;
      [|discriminate Hok].
    assert (Hon : (if 0 <? annotate_off (empty_world ∅) then false
                   else truthy (default (PBool true)
                                  ((∅ : gmap string (pyval term)) !! "annotate")))
                  = true) by reflexivity.
    pose proof (proj2 (solve_annotation_effects args' ∅ (empty_world ∅)) Hon
                  (equation a_form L_form) plain block eq_refl eq_refl Hblock) as Hsolve.
    cbv zeta in Hsolve. destruct Hsolve as [_ Hbad].
    destruct Hbad as (Hrun & _ & Houts).
    + reflexivity.
    + intros function Hfun. discriminate Hfun.
    + eexists _, block. split; [|exact Houts]. rewrite Hrun. reflexivity.
Defined.

End SolvingRuns.

(** * Further properties of the verifier *)

Section VerificationMore.

Import Verification.
Context {F : Type} `{Scalar F} {C : Type} `{OverloadedType C F}.

(** X1: for residuals at least as many as the step sizes: when none of
    the residuals and step sizes that are divided by (all but the last
    position of the step sizes) is a divisor that raises,
    [convergence_rates] returns one rate less than there are step sizes
    (none for an empty or one-element list of step sizes), the rate for
    position i being that of the entries i and i-1, and prints them once;
    when one of them raises, the call ends in the ZeroDivisionError and
    nothing is printed. *)
Theorem convergence_rates_any_length (E_values eps_values : list F) (w : World F C) :
  length eps_values <= length E_values ->
  ((forall j y, j < length eps_values - 1 ->
                E_values !! j = Some y \/ eps_values !! j = Some y ->
                fzero_divisor y = false) ->
   exists r,
     convergence_rates E_values eps_values w =
       (Ok r, {| trace := trace w ++ [Print "Computed convergence rates: {}" r];
                 annotate_off := annotate_off w |})
     /\ length r = length eps_values - 1
     /\ forall i Ei Eprev si sprev,
          1 <= i < length eps_values ->
          E_values !! i = Some Ei -> E_values !! (i - 1) = Some Eprev ->
          eps_values !! i = Some si -> eps_values !! (i - 1) = Some sprev ->
          r !! (i - 1) = Some (fdiv (flog (fdiv Ei Eprev)) (flog (fdiv si sprev))))
  /\ ((exists j y, j < length eps_values - 1
                   /\ (E_values !! j = Some y \/ eps_values !! j = Some y)
                   /\ fzero_divisor y = true) ->
      convergence_rates E_values eps_values w = (Raise ZeroDivisionError, w)).
Proof.
  intros Hlen. split.
  - exact (convergence_rates_spec E_values eps_values w Hlen).
  - exact (convergence_rates_zero E_values eps_values w Hlen).
Qed.

(** The loop of [convergence_rates] runs out of residuals. *)
Lemma rates_loop_fails (E_values eps_values : list F) (w : World F C) :
  forall n a r,
    1 <= a -> 0 < n -> length E_values < a + n -> a + n <= length eps_values ->
    (forall j y, a - 1 <= j < length E_values - 1 ->
                 E_values !! j = Some y \/ eps_values !! j = Some y ->
                 fzero_divisor y = false) ->
    for_each (seq a n) (rates_step E_values eps_values) r w = (Raise IndexError, w).
Proof.
  induction n as [|n IH]; intros a r Ha Hn HE Heps Hnz; [lia|].
  cbn [seq for_each]. unfold bind at 1.
  destruct (decide (length E_values <= a)) as [Hshort|Hlong].
  - unfold rates_step, bind, lift, getitem.
    now rewrite (lookup_ge_None_2 E_values a) by lia.
  - destruct (lookup_lt_is_Some_2 E_values a) as [Ei HEi]; [lia|].
    destruct (lookup_lt_is_Some_2 E_values (a - 1)) as [Ep HEp]; [lia|].
    destruct (lookup_lt_is_Some_2 eps_values a) as [si Hsi]; [lia|].
    destruct (lookup_lt_is_Some_2 eps_values (a - 1)) as [sp Hsp]; [lia|].
    rewrite (rates_step_run _ _ _ _ _ _ _ _ _ HEi HEp Hsi Hsp).
    rewrite (Hnz (a - 1) Ep) by (lia || now left).
    rewrite (Hnz (a - 1) sp) by (lia || now right).
    apply IH; try lia. intros j y Hj. apply Hnz. lia.
Qed.

(** ... unless a divisor raises before that. *)
Lemma rates_loop_fails_zero (E_values eps_values : list F) (w : World F C) :
  forall n a r,
    1 <= a -> length E_values < a + n -> a + n <= length eps_values ->
    (exists j y, a - 1 <= j < length E_values - 1
                 /\ (E_values !! j = Some y \/ eps_values !! j = Some y)
                 /\ fzero_divisor y = true) ->
    for_each (seq a n) (rates_step E_values eps_values) r w
    = (Raise ZeroDivisionError, w).
Proof.
  induction n as [|n IH]; intros a r Ha HE Heps (j & y & Hj & Hy & Hz); [lia|].
  destruct (lookup_lt_is_Some_2 E_values a) as [Ei HEi]; [lia|].
  destruct (lookup_lt_is_Some_2 E_values (a - 1)) as [Ep HEp]; [lia|].
  destruct (lookup_lt_is_Some_2 eps_values a) as [si Hsi]; [lia|].
  destruct (lookup_lt_is_Some_2 eps_values (a - 1)) as [sp Hsp]; [lia|].
  cbn [seq for_each]. unfold bind at 1.
  rewrite (rates_step_run _ _ _ _ _ _ _ _ _ HEi HEp Hsi Hsp).
  destruct (fzero_divisor Ep) eqn:HzE; [reflexivity|].
  destruct (fzero_divisor sp) eqn:Hzs; [reflexivity|].
  apply IH; [lia..|].
  exists j, y. split; [|now split].
  destruct (decide (j = a - 1)) as [->|Hne]; [|lia].
  destruct Hy as [Hy|Hy]; congruence.
Qed.

(** X2: with fewer residuals than step sizes (and at least two step
    sizes), [convergence_rates] returns nothing and prints nothing: it ends
    in the IndexError of the first residual that is missing, unless one of
    the residuals and step sizes that are divided by before that (the
    positions before the last residual) is a divisor that raises, and then
    in the ZeroDivisionError. *)
Theorem convergence_rates_too_few_residuals (E_values eps_values : list F)
    (w : World F C) :
  length E_values < length eps_values -> 1 < length eps_values ->
  ((forall j y, j < length E_values - 1 ->
                E_values !! j = Some y \/ eps_values !! j = Some y ->
                fzero_divisor y = false) ->
   convergence_rates E_values eps_values w = (Raise IndexError, w))
  /\ ((exists j y, j < length E_values - 1
                   /\ (E_values !! j = Some y \/ eps_values !! j = Some y)
                   /\ fzero_divisor y = true) ->
      convergence_rates E_values eps_values w = (Raise ZeroDivisionError, w)).
Proof.
  intros HE Heps. unfold convergence_rates. split.
  - intros Hnz. apply bind_raise. apply rates_loop_fails; try lia.
    intros j y Hj. apply Hnz. lia.
  - intros (j & y & Hj & Hy & Hz). apply bind_raise.
    apply rates_loop_fails_zero; try lia.
    exists j, y. split; [lia|now split].
Qed.

(** X3: on lists or tuples, [perturbe] pairs the entries of the point and
    of the direction as far as both go: the perturbed point is a list with
    as many entries as the shorter of the two. *)
Theorem perturbe_pairs_entries (m h : pyobj C) (eps : F) :
  is_list_or_tuple m = true ->
  exists l,
    perturbe m h eps = Ok (PyList l)
    /\ length l = length (Enlist m) `min` length (Enlist h)
    /\ forall i mi hi,
         Enlist m !! i = Some mi -> Enlist h !! i = Some hi ->
         l !! i = Some (_ad_add mi (_ad_mul hi eps)).
Proof.
  intros Hm. unfold perturbe, delist. rewrite Hm.
  eexists. split; [reflexivity|]. split.
  - apply length_zip_with.
  - intros i mi hi Hmi Hhi. rewrite lookup_zip_with, Hmi. cbn. now rewrite Hhi.
Qed.

Lemma frames_ret {A} (a : A) : frames (F:=F) (C:=C) (ret a).
Proof. intros w. split; [reflexivity|]. exists []. cbn. now rewrite app_nil_r. Qed.

Lemma frames_raise {A} (e : exn) : frames (F:=F) (C:=C) (A:=A) (raise e).
Proof. intros w. split; [reflexivity|]. exists []. cbn. now rewrite app_nil_r. Qed.

Lemma frames_lift {A} (r : result A) : frames (F:=F) (C:=C) (lift r).
Proof. intros w. split; [reflexivity|]. exists []. cbn. now rewrite app_nil_r. Qed.

Lemma frames_gets {A} (f : World F C -> A) : frames (gets f).
Proof. intros w. split; [reflexivity|]. exists []. cbn. now rewrite app_nil_r. Qed.

Lemma frames_emit (e : event F C) : frames (emit e).
Proof. intros w. split; [reflexivity|]. now exists [e]. Qed.

Lemma frames_bind {A B} (c : M (World F C) A) (k : A -> M (World F C) B) :
  frames c -> (forall a, frames (k a)) -> frames (bind c k).
Proof.
  intros Hc Hk w. unfold bind.
  destruct (Hc w) as (Hd & t & Ht). destruct (c w) as [[a|e] w1]; cbn in *.
  - destruct (Hk a w1) as (Hd' & t' & Ht').
    split; [congruence|]. exists (t ++ t'). now rewrite Ht', Ht, app_assoc.
  - split; [exact Hd|]. now exists t.
Qed.

Lemma frames_for_each {A X} (xs : list X) (body : A -> X -> M (World F C) A) :
  (forall a x, frames (body a x)) -> forall acc, frames (for_each xs body acc).
Proof.
  intros Hbody. induction xs as [|x xs IH]; intros acc; cbn [for_each].
  - apply frames_ret.
  - apply frames_bind; [apply Hbody | exact IH].
Qed.

(** Inside [stop_annotating] the switch is one deeper; afterwards it is
    back where it was, also when the body raised. *)
Lemma frames_stop_annotating {A} (c : M (World F C) A) :
  frames c -> frames (stop_annotating c).
Proof.
  intros Hc w. unfold stop_annotating.
  destruct (Hc (set_stop_depth (S (stop_depth w)) w)) as (Hd & t & Ht).
  destruct (c _) as [r w1]. cbn in *. split; [now rewrite Hd|]. now exists t.
Qed.

Lemma frames_J_call (J : ReducedFunctional F C) p : frames (J_call J p).
Proof.
  unfold J_call. apply frames_bind; [apply frames_gets | intros v].
  apply frames_bind; [apply frames_emit | intros ?; apply frames_ret].
Qed.

Lemma frames_J_derivative (J : ReducedFunctional F C) : frames (J_derivative J).
Proof.
  unfold J_derivative. apply frames_bind; [apply frames_gets | intros v].
  apply frames_bind; [apply frames_emit | intros ?; apply frames_ret].
Qed.

Lemma frames_convergence_rates (E_values eps_values : list F) :
  frames (convergence_rates (C:=C) E_values eps_values).
Proof.
  unfold convergence_rates. apply frames_bind.
  - apply frames_for_each. intros r i. unfold rates_step.
    repeat (apply frames_bind; [apply frames_lift | intros ?]). apply frames_ret.
  - intros r. apply frames_bind; [apply frames_emit | intros ?; apply frames_ret].
Qed.

(** X4: however [taylor_test] ends (with a rate, with the ValueError of
    the validation, or with an error in between), the annotation switch is
    back at the depth it had, and the events recorded before are still
    there, in front of the new ones. *)
Theorem taylor_test_frames
    (J : ReducedFunctional F C) (m h : pyobj C) (dJdm : option F) (Hm : F)
    (w : World F C) :
  annotate_off (snd (taylor_test J m h dJdm Hm w)) = annotate_off w
  /\ exists t, trace (snd (taylor_test J m h dJdm Hm w)) = trace w ++ t.
Proof.
  revert w. change (frames (taylor_test J m h dJdm Hm)). unfold taylor_test.
  destruct (_ && _); [apply frames_raise|].
  destruct (_ && _); [apply frames_raise|].
  apply frames_bind; [apply frames_emit | intros _].
  apply frames_bind.
  - apply frames_stop_annotating.
    apply frames_bind; [apply frames_J_call | intros Jm].
    apply frames_bind.
    { destruct dJdm; [apply frames_ret|].
      apply frames_bind; [apply frames_J_derivative | intros d'; apply frames_ret]. }
    intros d. apply frames_bind.
    { apply frames_for_each. intros r e.
      apply frames_bind; [apply frames_lift | intros p].
      apply frames_bind; [apply frames_J_call | intros Jp; apply frames_ret]. }
    intros residuals. apply frames_bind; [apply frames_lift | intros smallest].
    apply frames_bind.
    { destruct (flt _ _); [apply frames_emit | apply frames_ret]. }
    intros _. apply frames_bind; [apply frames_emit | intros _; apply frames_ret].
  - intros residuals.
    apply frames_bind; [apply frames_convergence_rates | intros rates; apply frames_lift].
Qed.

(** X5: the advisory is no failure.  Past the validation and with the
    four perturbed points defined, the warning is logged exactly when the
    smallest residual is below 1e-15, after the four calls of J and before
    the residuals are printed.  What follows does not depend on it: when
    none of the first three residuals and step sizes is a divisor that
    raises, the minimum of the three rates is returned, and when one of
    them is, the call ends in the ZeroDivisionError. *)
Theorem taylor_test_advisory
    (J : ReducedFunctional F C) (m h : pyobj C) (dJdm : option F) (Hm : F)
    (w : World F C) (ps : list (pyobj C)) :
  length (controls J) <= 1
    \/ (is_list_or_tuple m = true /\ is_list_or_tuple h = true) ->
  Forall2 (fun e p => perturbe m h e = Ok p) epsilons ps ->
  let t1 := trace w ++ [Print "Running Taylor test" []] in
  let Jm := call J t1 m in
  let t2 := t1 ++ [CallJ m] in
  let d := match dJdm with
           | Some d => d
           | None => fold_left fadd
                       (zip_with _ad_dot (Enlist h) (Enlist (derivative J t2)))
                       (fconst 0)
           end in
  let t3 := match dJdm with Some _ => t2 | None => t2 ++ [CallDerivative] end in
  let residuals := residuals_after J Jm d Hm t3 epsilons ps in
  exists smallest,
    pymin residuals = Ok smallest
    /\ length residuals = 4
    /\ let printed :=
         t3 ++ map CallJ ps
         ++ (if flt smallest (fconst 1e-15)
             then [Warning "The taylor remainder is close to machine precision."]
             else [])
         ++ [Print "Computed residuals: {}" residuals] in
       ((forall j y, j < 3 ->
                     residuals !! j = Some y \/ epsilons !! j = Some y ->
                     fzero_divisor y = false) ->
        exists rates,
          length rates = 3
          /\ taylor_test J m h dJdm Hm w =
             (pymin rates,
              {| trace := printed ++ [Print "Computed convergence rates: {}" rates];
                 annotate_off := annotate_off w |}))
       /\ ((exists j y, j < 3
                        /\ (residuals !! j = Some y \/ epsilons !! j = Some y)
                        /\ fzero_divisor y = true) ->
           taylor_test J m h dJdm Hm w
           = (Raise ZeroDivisionError,
              {| trace := printed; annotate_off := annotate_off w |})).
Proof.
  intros Hvalid Hall t1 Jm t2 d t3 residuals.
  destruct (taylor_test_run_at J m h dJdm Hm w ps t1 Jm t2 d t3
              Hvalid Hall eq_refl eq_refl eq_refl eq_refl eq_refl)
    as (r0 & rest & Hres & Hlen & Hrun).
  fold residuals in Hres.
  exists (fold_left (fun cur y => if flt y cur then y else cur) rest r0).
  rewrite Hres. split; [reflexivity|]. split; [cbn; now rewrite Hlen|].
  intros printed.
  assert (Heps : length epsilons = 4) by reflexivity.
  assert (HE : length (r0 :: rest) = 4) by (cbn; now rewrite Hlen).
  split.
  - intros Hnz.
    destruct (convergence_rates_spec (C:=C) (r0 :: rest) epsilons
                {| trace := printed; annotate_off := annotate_off w |})
      as (rates & Hrates & Hrl & _); [rewrite HE, Heps; lia| |].
    { intros j y Hj. apply Hnz. rewrite Heps in Hj. lia. }
    exists rates. split; [now rewrite Hrl, Heps|].
    rewrite Hrun. fold printed. now rewrite (bind_ok _ _ _ _ _ Hrates).
  - intros (j & y & Hj & Hy & Hz).
    rewrite Hrun. fold printed. apply bind_raise.
    apply convergence_rates_zero; [rewrite HE, Heps; lia|].
    exists j, y. rewrite Heps. split; [lia|now split].
Qed.

End VerificationMore.

(** * Further properties of the solve block *)

Section SolvingMore.

Import Solving.
Context {obj : Type} `{Backend obj}.

Abbreviation value := (pyval obj).
Abbreviation dict := (gmap string (pyval obj)).

(** Registering with [no_duplicates] keeps the identifiers distinct, and
    registers nothing but the block variables of the given objects. *)
Lemma add_dependencies_spec (block_variable : value -> BlockVariable obj) :
  forall xs deps,
    NoDup (map bv_id deps) ->
    let deps' := fold_left (add_dependency block_variable true) xs deps in
    NoDup (map bv_id deps')
    /\ (forall d, In d deps' -> In d deps \/ exists x, In x xs /\ d = block_variable x)
    /\ (forall d, In d deps -> In d deps').
Proof.
  induction xs as [|x xs IH]; intros deps Hnd; cbn [fold_left].
  - repeat split; auto.
  - unfold add_dependency at 2 4 6. cbn [andb].
    destruct (existsb _ deps) eqn:Hex.
    + destruct (IH deps Hnd) as (H1 & H2 & H3). repeat split; [exact H1| |exact H3].
      intros d Hd. destruct (H2 d Hd) as [?|(y & Hy & ->)]; [now left|].
      right. exists y. split; [now right | reflexivity].
    + assert (Hnd' : NoDup (map bv_id (deps ++ [block_variable x]))).
      { rewrite map_app. cbn. apply NoDup_app. split; [exact Hnd|].
        split; [|apply NoDup_singleton].
        intros i Hi Hk. apply list_elem_of_In in Hk. destruct Hk as [Hk|[]].
        subst i.
        apply list_elem_of_In, in_map_iff in Hi as (d & Hd & Hin).
        assert (existsb (fun d0 => bv_id d0 =? bv_id (block_variable x)) deps = true)
          as Hc; [|congruence].
        apply existsb_exists. exists d. split; [exact Hin|]. now apply Nat.eqb_eq. }
      destruct (IH _ Hnd') as (H1 & H2 & H3). repeat split; [exact H1| |].
      * intros d Hd. destruct (H2 d Hd) as [Hin|(y & Hy & ->)].
        -- apply in_app_or in Hin as [Hin|[<-|[]]]; [now left|].
           right. exists x. split; [now left | reflexivity].
        -- right. exists y. split; [now right | reflexivity].
      * intros d Hd. apply H3, in_or_app. now left.
Qed.

(** X6: the dependencies of a new block.  The mesh is registered last,
    whether or not it was registered before; the dependencies before it
    have pairwise distinct block variables, and each of them belongs to a
    coefficient of the right-hand side (for a block flagged linear only),
    to a coefficient of the left-hand side, or to a boundary condition. *)
Theorem init_registers_dependencies cls (block_variable : value -> BlockVariable obj)
    (lhs rhs func bcs : value) (args : list value) (kwargs : dict) b :
  GenericSolveBlock__init__ cls block_variable lhs rhs func bcs args kwargs = Ok b ->
  let mesh := if negb is_firedrake
              then PObj (ufl_cargo (PObj (ufl_domain lhs)))
              else PObj (ufl_domain lhs) in
  let sources := (if linear b then coefficients rhs else [])
                 ++ coefficients lhs
                 ++ (if is_none bcs then [] else Enlist bcs) in
  exists deps,
    _dependencies b = deps ++ [block_variable mesh]
    /\ NoDup (map bv_id deps)
    /\ forall d, In d deps -> exists x, In x sources /\ d = block_variable x.
Proof.
  intros Hinit mesh sources.
  pose proof (GenericSolveBlock_init_fields _ _ _ _ _ _ _ _ _ Hinit) as (Hlin & _).
  revert Hinit. unfold GenericSolveBlock__init__.
  repeat match goal with |- context [dict_pop ?k ?d ?m] => destruct (dict_pop k d m) end.
  intros Hinit. apply result_bind_ok in Hinit as (sp & _ & Hb).
  injection Hb as <-. cbn [_dependencies]. unfold add_dependency at 1. cbn [andb].
  eexists. split; [reflexivity|].
  subst sources. rewrite Hlin. clear Hlin.
  set (bl := if is_none bcs then [] else Enlist bcs).
  set (d0 := if isinstance lhs Form && isinstance rhs Form
             then fold_left (add_dependency block_variable true) (coefficients rhs) []
             else []).
  assert (H0 : NoDup (map bv_id d0)
               /\ forall d, In d d0 ->
                    exists x, In x (if isinstance lhs Form && isinstance rhs Form
                                    then coefficients rhs else [])
                              /\ d = block_variable x).
  { subst d0. destruct (_ && _).
    - destruct (add_dependencies_spec block_variable (coefficients rhs) [])
        as (H1 & H2 & _); [constructor|].
      split; [exact H1|]. intros d Hd. destruct (H2 d Hd) as [[]|Hx]. exact Hx.
    - split; [constructor | intros d []]. }
  destruct H0 as (Hnd0 & Hin0).
  destruct (add_dependencies_spec block_variable (coefficients lhs) d0 Hnd0)
    as (Hnd1 & Hin1 & _).
  destruct (add_dependencies_spec block_variable bl _ Hnd1) as (Hnd2 & Hin2 & _).
  split; [exact Hnd2|].
  intros d Hd. destruct (Hin2 d Hd) as [Hd1|(x & Hx & ->)].
  - destruct (Hin1 d Hd1) as [Hd0|(x & Hx & ->)].
    + destruct (Hin0 d Hd0) as (x & Hx & ->). exists x. split; [|reflexivity].
      apply in_or_app. now left.
    + exists x. split; [|reflexivity]. apply in_or_app. right. apply in_or_app. now left.
  - exists x. split; [|reflexivity]. apply in_or_app. right. apply in_or_app. now right.
Qed.

(** Without the four solver keywords, the generic initialisation leaves
    the defaults and the keyword arguments as they are. *)
Lemma generic_init_defaults (args : list value) (kwargs : dict) :
  kwargs !! "forward_args" = None -> kwargs !! "forward_kwargs" = None ->
  kwargs !! "adj_args" = None -> kwargs !! "adj_kwargs" = None ->
  generic_init_solver_parameters args kwargs
  = ({| sp_forward_args := PList []; sp_forward_kwargs := PDict ∅;
        sp_adj_args := PList []; sp_adj_kwargs := PDict ∅;
        sp_assemble_kwargs := ∅ |}, kwargs).
Proof.
  intros Hfa Hfk Haa Hak. unfold generic_init_solver_parameters, dict_pop.
  rewrite Hfa. cbn [default].
  rewrite !delete_id by (repeat rewrite delete_id by assumption; assumption).
  rewrite Hfk, Haa, Hak. reflexivity.
Qed.

(** What the generic initialisation pops. *)
Lemma generic_init_pops (args : list value) (kwargs : dict) :
  generic_init_solver_parameters args kwargs
  = ({| sp_forward_args := default (PList []) (kwargs !! "forward_args");
        sp_forward_kwargs := default (PDict ∅) (kwargs !! "forward_kwargs");
        sp_adj_args := default (PList []) (kwargs !! "adj_args");
        sp_adj_kwargs := default (PDict ∅) (kwargs !! "adj_kwargs");
        sp_assemble_kwargs := ∅ |},
     delete "adj_kwargs"
       (delete "adj_args" (delete "forward_kwargs" (delete "forward_args" kwargs)))).
Proof.
  unfold generic_init_solver_parameters, dict_pop.
  now rewrite !lookup_delete_ne by discriminate.
Qed.

(** X7: a linear-system block that is given no solver keywords replays the
    solve and solves the adjoint equation with the positional arguments of
    the recorded call (the tuple of them); nothing is taken from the
    keyword arguments. *)
Theorem linear_system_solver_defaults (args : list value) (kwargs : dict) :
  kwargs !! "forward_args" = None -> kwargs !! "forward_kwargs" = None ->
  kwargs !! "adj_args" = None -> kwargs !! "adj_kwargs" = None ->
  linear_system_init_solver_parameters args kwargs
  = Ok ({| sp_forward_args := PTuple args; sp_forward_kwargs := PDict ∅;
           sp_adj_args := PTuple args; sp_adj_kwargs := PDict ∅;
           sp_assemble_kwargs := ∅ |}, kwargs).
Proof.
  intros Hfa Hfk Haa Hak. unfold linear_system_init_solver_parameters.
  rewrite generic_init_defaults by assumption. reflexivity.
Qed.

(** X8: a variational block that is given [solver_parameters] and none of
    the solver keywords keeps all keyword arguments for the replay, solves
    the adjoint equation with the [linear_solver] (and [preconditioner]) of
    the solver parameters and with the solver parameters as keywords, and
    assembles with their [mat_type]. *)
Theorem var_form_solver_parameters (args : list value) (kwargs params : dict) :
  kwargs !! "forward_args" = None -> kwargs !! "forward_kwargs" = None ->
  kwargs !! "adj_args" = None -> kwargs !! "adj_kwargs" = None ->
  kwargs !! "solver_parameters" = Some (PDict params) ->
  var_form_init_solver_parameters args kwargs
  = Ok ({| sp_forward_args := PTuple args;
           sp_forward_kwargs := PDict kwargs;
           sp_adj_args :=
             match params !! "linear_solver" with
             | Some linear_solver =>
                 match params !! "preconditioner" with
                 | Some preconditioner => PTuple [linear_solver; preconditioner]
                 | None => PTuple [linear_solver]
                 end
             | None => PList []
             end;
           sp_adj_kwargs := PDict params;
           sp_assemble_kwargs :=
             match params !! "mat_type" with
             | Some mat_type => <["mat_type" := mat_type]> ∅
             | None => ∅
             end |}, kwargs).
Proof.
  intros Hfa Hfk Haa Hak Hsp. unfold var_form_init_solver_parameters.
  rewrite generic_init_defaults by assumption.
  cbn [result_bind sp_forward_args sp_forward_kwargs sp_adj_args sp_adj_kwargs
       sp_assemble_kwargs py_len length].
  rewrite map_size_empty. cbn [Nat.leb py_in subscript result_bind].
  rewrite Hsp. cbn [default py_in subscript result_bind bool_decide].
  destruct (params !! "mat_type") as [mt|]; cbn;
    destruct (params !! "linear_solver") as [ls|]; cbn;
    destruct (params !! "preconditioner") as [pc|]; cbn; reflexivity.
Qed.

(** X9: adjoint solver settings that are given win over the solver
    parameters.  Whenever the initialisation of a variational block
    returns and the [adj_kwargs] that it was given have a positive length,
    the adjoint arguments and keywords of the block are the given ones,
    whatever [solver_parameters] holds.  It returns, for one, when no
    forward settings are given, the adjoint settings are a list and a
    non-empty dict, and [solver_parameters] is absent or a dict; with
    [solver_parameters=None] instead, it ends in a TypeError. *)
Theorem var_form_adjoint_override (args : list value) (kwargs : dict) :
  (forall sp rest n,
     var_form_init_solver_parameters args kwargs = Ok (sp, rest) ->
     py_len (default (PDict ∅) (kwargs !! "adj_kwargs")) = Ok n -> 0 < n ->
     sp_adj_args sp = default (PList []) (kwargs !! "adj_args")
     /\ sp_adj_kwargs sp = default (PDict ∅) (kwargs !! "adj_kwargs")
     /\ rest = delete "adj_kwargs"
                 (delete "adj_args"
                    (delete "forward_kwargs" (delete "forward_args" kwargs))))
  /\ (forall aa ak,
        kwargs !! "forward_args" = None -> kwargs !! "forward_kwargs" = None ->
        kwargs !! "adj_args" = Some (PList aa) ->
        kwargs !! "adj_kwargs" = Some (PDict ak) ->
        0 < size ak ->
        ((forall v, kwargs !! "solver_parameters" = Some v ->
                    exists params, v = PDict params) ->
         exists sp rest,
           var_form_init_solver_parameters args kwargs = Ok (sp, rest)
           /\ sp_adj_args sp = PList aa
           /\ sp_adj_kwargs sp = PDict ak
           /\ rest = delete "adj_kwargs" (delete "adj_args" kwargs))
        /\ (kwargs !! "solver_parameters" = Some PNone ->
            var_form_init_solver_parameters args kwargs = Raise TypeError)).
Proof.
  split.
  - intros sp rest n Hinit Hlen Hn. revert Hinit.
    unfold var_form_init_solver_parameters. rewrite generic_init_pops.
    cbn [sp_forward_args sp_forward_kwargs sp_adj_args sp_adj_kwargs sp_assemble_kwargs].
    intros Hinit.
    apply result_bind_ok in Hinit as (n1 & _ & Hinit).
    apply result_bind_ok in Hinit as (n2 & _ & Hinit).
    apply result_bind_ok in Hinit as (hp & _ & Hinit).
    apply result_bind_ok in Hinit as (asm & _ & Hinit).
    rewrite Hlen in Hinit. cbn [result_bind] in Hinit.
    replace (n <=? 0) with false in Hinit by (symmetry; apply Nat.leb_gt; lia).
    cbn [result_bind fst snd] in Hinit. injection Hinit as <- <-.
    repeat split.
  - intros aa ak Hfa Hfk Haa Hak Hsize.
    assert (Hgen : generic_init_solver_parameters args kwargs
                   = ({| sp_forward_args := PList []; sp_forward_kwargs := PDict ∅;
                         sp_adj_args := PList aa; sp_adj_kwargs := PDict ak;
                         sp_assemble_kwargs := ∅ |},
                      delete "adj_kwargs" (delete "adj_args" kwargs))).
    { rewrite generic_init_pops, Hfa, Hfk, Haa, Hak. cbn [default].
      now rewrite (delete_id kwargs "forward_args"),
        (delete_id kwargs "forward_kwargs") by assumption. }
    set (rest := delete "adj_kwargs" (delete "adj_args" kwargs)) in *.
    assert (Hrest : rest !! "solver_parameters" = kwargs !! "solver_parameters").
    { subst rest. now rewrite !lookup_delete_ne by discriminate. }
    unfold var_form_init_solver_parameters. rewrite Hgen.
    cbn [result_bind sp_forward_args sp_forward_kwargs sp_adj_args sp_adj_kwargs
         sp_assemble_kwargs py_len length].
    rewrite map_size_empty. cbn [Nat.leb py_in subscript result_bind].
    replace (size ak <=? 0) with false by (symmetry; apply Nat.leb_gt; lia).
    rewrite Hrest. split.
    + intros Hsp. destruct (kwargs !! "solver_parameters") as [v|] eqn:Hv.
      * destruct (Hsp v eq_refl) as [params ->].
        cbn [py_in subscript result_bind bool_decide].
        destruct (params !! "mat_type"); cbn; eexists _, _; repeat split.
      * cbn. eexists _, _; repeat split.
    + intros ->. reflexivity.
Qed.

Lemma dict_assign_keys (key v : value) (d : list (value * value)) (k w : value) :
  In (k, w) (dict_assign key v d) ->
  (exists w', In (k, w') d) \/ (k = key /\ w = v).
Proof.
  unfold dict_assign. destruct (existsb _ d).
  - intros Hin. apply in_map_iff in Hin as ([k0 w0] & Heq & Hin). cbn in Heq.
    destruct (py_eq k0 key); injection Heq as <- <-; left; eauto.
  - intros Hin. apply in_app_or in Hin as [Hin|[[= <- <-]|[]]]; [left; eauto | now right].
Qed.

Lemma dict_assign_values (key v : value) (d : list (value * value)) (k w : value) :
  In (k, w) (dict_assign key v d) -> In (k, w) d \/ w = v.
Proof.
  unfold dict_assign. destruct (existsb _ d).
  - intros Hin. apply in_map_iff in Hin as ([k0 w0] & Heq & Hin). cbn in Heq.
    destruct (py_eq k0 key); injection Heq as <- <-; [now right | now left].
  - intros Hin. apply in_app_or in Hin as [Hin|[[= <- <-]|[]]]; [now left | now right].
Qed.

(** X10: the replace map of a form mentions nothing but dependencies that
    are coefficients of the form, and maps them to checkpoints of
    dependencies; for a form without coefficients it is empty. *)
Theorem replace_map_entries (self : SolveBlock obj) (form : value) :
  (forall k v, In (k, v) (_replace_map self form) ->
     (exists bv, In bv (get_dependencies self) /\ k = output bv
                 /\ existsb (py_eq k) (coefficients form) = true)
     /\ (exists bv, In bv (get_dependencies self) /\ v = saved_output bv))
  /\ (coefficients form = [] -> _replace_map self form = []).
Proof.
  unfold _replace_map.
  set (step := fun (replace_coeffs : list (value * value)) block_variable =>
                 let coeff := output block_variable in
                 if existsb (py_eq coeff) (coefficients form)
                 then dict_assign coeff (saved_output block_variable) replace_coeffs
                 else replace_coeffs).
  assert (Hinv : forall deps m,
             (forall k v, In (k, v) m ->
                (exists bv, In bv (get_dependencies self) /\ k = output bv
                            /\ existsb (py_eq k) (coefficients form) = true)
                /\ (exists bv, In bv (get_dependencies self) /\ v = saved_output bv)) ->
             (forall bv, In bv deps -> In bv (get_dependencies self)) ->
             forall k v, In (k, v) (fold_left step deps m) ->
                (exists bv, In bv (get_dependencies self) /\ k = output bv
                            /\ existsb (py_eq k) (coefficients form) = true)
                /\ (exists bv, In bv (get_dependencies self) /\ v = saved_output bv)).
  { induction deps as [|d deps IH]; intros m Hm Hsub; [exact Hm|].
    cbn [fold_left]. apply IH; [|intros bv Hbv; apply Hsub; now right].
    intros k v Hin. unfold step in Hin. cbn zeta in Hin.
    destruct (existsb (py_eq (output d)) (coefficients form)) eqn:Hc; [|now apply Hm].
    split.
    - apply dict_assign_keys in Hin as [(w' & Hw')|(-> & _)];
        [exact (proj1 (Hm _ _ Hw'))|].
      exists d. split; [apply Hsub; now left | now split].
    - apply dict_assign_values in Hin as [Hin| ->]; [exact (proj2 (Hm _ _ Hin))|].
      exists d. split; [apply Hsub; now left | reflexivity]. }
  split.
  - apply Hinv; [intros k v [] | auto].
  - intros Hnil. clear Hinv.
    assert (Hstep : forall d m, step m d = m).
    { intros d m. unfold step. now rewrite Hnil. }
    induction (get_dependencies self) as [|d deps IH]; [reflexivity|].
    cbn [fold_left]. now rewrite Hstep.
Qed.

Lemma dict_item_assign (key v : value) (d : list (value * value)) :
  py_eq key key = true ->
  Replay.dict_item key (dict_assign key v d) = Some v.
Proof.
  intros Hrefl. unfold Replay.dict_item, dict_assign.
  destruct (existsb (fun e => py_eq e.1 key) d) eqn:Hex.
  - induction d as [|[k0 w0] d IH]; [discriminate Hex|].
    cbn in Hex |- *. destruct (py_eq k0 key) eqn:Hk; cbn [fst]; rewrite Hk.
    + reflexivity.
    + cbn in Hex. now apply IH.
  - induction d as [|[k0 w0] d IH]; cbn in Hex |- *.
    + now rewrite Hrefl.
    + apply orb_false_iff in Hex as [Hk Hex]. rewrite Hk. now apply IH.
Qed.

(** X11: the residual is put together around the checkpoint of the
    solution.  In the form that [_create_F_form] hands to [ufl.replace],
    the unknown (for a block flagged linear: the function that stands in
    for the trial function) is mapped to the checkpoint of the block's
    output, whatever checkpoint a dependency holds for it; without an
    output the call ends in an IndexError. *)
Theorem create_F_form_at_solution (self : SolveBlock obj) :
  let tmp_u := if linear self
               then PObj (create_function (function_space self))
               else func self in
  let F_form := if linear self
                then PObj (sub (PObj (action (lhs self) tmp_u)) (rhs self))
                else lhs self in
  (get_outputs self = [] -> _create_F_form self = Raise IndexError)
  /\ (forall out,
        get_outputs self !! 0 = Some out ->
        py_eq tmp_u tmp_u = true ->
        exists replace_map,
          _create_F_form self = Ok (PObj (ufl_replace F_form replace_map))
          /\ Replay.dict_item tmp_u replace_map = Some (saved_output out)).
Proof.
  intros tmp_u F_form. split.
  - intros Hnil. unfold _create_F_form. now rewrite Hnil.
  - intros out Hout Hrefl. unfold _create_F_form.
    rewrite (getitem_lookup _ _ _ Hout). cbn [result_bind].
    eexists. split; [reflexivity|]. now apply dict_item_assign.
Qed.

(** X12: the adjoint pass on a block whose adjoint arguments are a list or
    a tuple and whose adjoint keywords are a dict.  With an output and a
    seed, [prepare_evaluate_adj] makes one solver call, caches the adjoint
    solution on the block, then calls [adj_cb] with the adjoint solution if
    it was given, then [adj_bdy_cb] with the boundary adjoint solution if
    it was given and a relevant dependency is a DirichletBC: each at most
    once, and nothing else.  It returns the form, the adjoint solution and
    the boundary adjoint solution, which is [None] exactly when no relevant
    dependency is a DirichletBC. *)
Theorem prepare_evaluate_adj_effects
    (w : Running obj) (inputs adj_inputs : list value)
    (relevant_dependencies : list (value * BlockVariable obj))
    (fwd : BlockVariable obj) (dJdu : value) :
  get_outputs (self w) !! 0 = Some fwd ->
  adj_inputs !! 0 = Some dJdu ->
  (exists aa, adj_args (self w) = PList aa \/ adj_args (self w) = PTuple aa) ->
  (exists ak, adj_kwargs (self w) = PDict ak) ->
  (class_of (self w) = SolveLinearSystemBlock ->
   truthy (assemble_system_flag (self w)) = false) ->
  let compute := _should_compute_boundary_adjoint relevant_dependencies in
  exists F_form adj bdy ev,
    prepare_evaluate_adj inputs adj_inputs relevant_dependencies w
    = (Ok (PDict (<["form" := F_form]>
                  (<["adj_sol" := adj]> (<["adj_sol_bdy" := bdy]> ∅)))),
       {| self := set_adj_sol adj (self w);
          calls := (calls w ++ [ev])
                   ++ (if negb (is_none (adj_cb (self w))) && true
                       then [Callback (adj_cb (self w)) adj] else [])
                   ++ (if negb (is_none (adj_bdy_cb (self w))) && compute
                       then [Callback (adj_bdy_cb (self w)) bdy] else []) |})
    /\ _create_F_form (self w) = Ok F_form
    /\ is_callback ev = false
    /\ is_none adj = false
    /\ is_none bdy = negb compute.
Proof.
  intros Hout Hin Hs Hd Hls compute.
  assert (HF : exists F_form, _create_F_form (self w) = Ok F_form).
  { unfold _create_F_form. rewrite (getitem_lookup _ _ _ Hout). cbn. eauto. }
  destruct HF as [F_form HF].
  unfold prepare_evaluate_adj. unfold bind at 1. cbn [gets].
  rewrite (bind_ok _ _ _ fwd w) by (unfold lift; now rewrite (getitem_lookup _ _ _ Hout)).
  rewrite (bind_ok _ _ _ dJdu w) by (unfold lift; now rewrite (getitem_lookup _ _ _ Hin)).
  rewrite (bind_ok _ _ _ F_form w) by (unfold lift; now rewrite HF).
  fold compute.
  match goal with
  | |- context [_assemble_and_solve_adj_eq ?form ?seed compute] =>
      destruct (assemble_and_solve_adj_eq_run w form seed compute Hs Hd)
        as (adj & ev & Hrun & Hev & Hadj);
        [intros Hc Hflag; rewrite (Hls Hc) in Hflag; discriminate Hflag|];
      rewrite (bind_ok _ _ _ _ _ Hrun)
  end.
  cbn [fst snd]. unfold bind at 1. cbn [modify self calls].
  unfold bind at 1. rewrite call_if_given_run. cbn [self calls].
  unfold bind at 1. rewrite call_if_given_run. cbn [self calls ret].
  eexists F_form, adj, _, ev.
  split; [rewrite <- !app_assoc; reflexivity|].
  split; [exact HF|]. split; [exact Hev|]. split; [exact Hadj|].
  now destruct compute.
Qed.

(** ** The passes either complete or leave no trace *)

Lemma lookup_error_not_runtime (e : exn) (message : string) :
  lookup_error e -> e <> RuntimeError message.
Proof. intros [->|[->|[->|[key ->]]]]; discriminate. Qed.

(** X13: the Hessian pass after the adjoint pass.  Once
    [prepare_evaluate_adj] has returned on a block, [prepare_evaluate_hessian]
    on that block never fails for want of an adjoint solution, whatever it
    is called with; and when it returns a dict, the [adj_sol] entry is the
    adjoint solution that the adjoint pass returned, the block is left as
    the adjoint pass left it, and the calls made are added to the ones
    before. *)
Theorem hessian_after_adjoint
    (w w' : Running obj) (inputs adj_inputs : list value)
    (relevant_dependencies : list (value * BlockVariable obj)) (prepared : value) :
  prepare_evaluate_adj inputs adj_inputs relevant_dependencies w = (Ok prepared, w') ->
  forall (inputs2 hessian_inputs adj_inputs2 : list value)
         (relevant_dependencies2 : list (value * BlockVariable obj)),
    let run := prepare_evaluate_hessian inputs2 hessian_inputs adj_inputs2
                 relevant_dependencies2 w' in
    (forall message, fst run <> Raise (RuntimeError message))
    /\ (forall prepared2,
          fst run = Ok prepared2 ->
          is_none prepared2 = false ->
          (exists adj, subscript prepared "adj_sol" = Ok adj
                       /\ subscript prepared2 "adj_sol" = Ok adj
                       /\ is_none adj = false)
          /\ self (snd run) = self w'
          /\ exists new_calls, calls (snd run) = calls w' ++ new_calls).
Proof.
  intros Hadj inputs2 hessian_inputs adj_inputs2 relevant_dependencies2 run.
  assert (Hcached : exists adj,
             subscript prepared "adj_sol" = Ok adj
             /\ adj_sol (self w') = adj /\ is_none adj = false).
  { destruct (prepare_evaluate_adj_outcome w inputs adj_inputs relevant_dependencies)
      as [(F_form & adj & bdy & cs & Hrun & Hnone)|(e & Hrun & _)];
      rewrite Hrun in Hadj; [|discriminate Hadj].
    injection Hadj as <- <-. exists adj. split; [|split; [reflexivity|exact Hnone]].
    cbn [subscript]. rewrite lookup_insert_ne by discriminate.
    now rewrite lookup_insert_eq. }
  destruct Hcached as (adj & Hsub & Hself & Hnone).
  destruct (prepare_evaluate_hessian_outcome w' inputs2 hessian_inputs adj_inputs2
              relevant_dependencies2)
    as [Hrun|[(F_form & adj2 & bdy2 & cs & Hrun & _)
             |[(e & Hrun & Herr & _)|[Hrun Hbefore]]]];
    subst run; rewrite Hrun; cbn [fst snd].
  - split; [discriminate|]. intros ? [= <-]. discriminate.
  - split; [discriminate|]. intros ? [= <-] _. cbn [self calls].
    split; [|split; [reflexivity|now exists cs]].
    exists adj. split; [exact Hsub|]. split; [|exact Hnone].
    cbn [subscript]. rewrite !lookup_insert_ne by discriminate.
    rewrite lookup_insert_eq. now rewrite Hself.
  - split; [|discriminate].
    intros message [= He]. now apply (lookup_error_not_runtime e message).
  - rewrite Hself, Hnone in Hbefore. discriminate Hbefore.
Qed.


(** X15: the second-order adjoint pass on a block whose adjoint arguments
    are a list or a tuple and whose adjoint keywords are a dict, and that
    does not assemble with [assemble_system] or has an argument in its
    transposed Jacobian form.  With an output that carries a
    tangent-linear value, a Hessian seed and a cached adjoint solution,
    [prepare_evaluate_hessian] makes one solver call, then calls [adj2_cb]
    with the second-order adjoint solution if it was given, then
    [adj2_bdy_cb] with its boundary part if it was given and a relevant
    dependency is a DirichletBC.  The block keeps its adjoint solution, and
    the boundary part is computed from the right-hand side that
    [_assemble_soa_eq_rhs] put together, or is [None]. *)
Theorem prepare_evaluate_hessian_effects
    (w : Running obj) (inputs hessian_inputs adj_inputs : list value)
    (relevant_dependencies : list (value * BlockVariable obj))
    (fwd : BlockVariable obj) (hessian_input F_form : value) :
  get_outputs (self w) !! 0 = Some fwd ->
  hessian_inputs !! 0 = Some hessian_input ->
  is_none hessian_input = false ->
  is_none (tlm_value fwd) = false ->
  is_none (adj_sol (self w)) = false ->
  _create_F_form (self w) = Ok F_form ->
  (exists aa, adj_args (self w) = PList aa \/ adj_args (self w) = PTuple aa) ->
  (exists ak, adj_kwargs (self w) = PDict ak) ->
  let dFdu_form := PObj (derivative F_form (saved_output fwd) PNone) in
  let d2Fdu2 :=
    PObj (expand_derivatives
            (PObj (derivative dFdu_form (saved_output fwd) (tlm_value fwd)))) in
  (class_of (self w) = SolveLinearSystemBlock ->
   truthy (assemble_system_flag (self w)) = true ->
   arguments (PObj (adjoint dFdu_form)) <> []) ->
  let compute := _should_compute_boundary_adjoint relevant_dependencies in
  exists adj2 bdy2 ev,
    prepare_evaluate_hessian inputs hessian_inputs adj_inputs relevant_dependencies w
    = (Ok (PDict (<["adj_sol2" := adj2]>
                  (<["adj_sol2_bdy" := bdy2]>
                   (<["form" := F_form]>
                    (<["adj_sol" := adj_sol (self w)]> ∅))))),
       {| self := self w;
          calls := (calls w ++ [ev])
                   ++ (if negb (is_none (adj2_cb (self w))) && true
                       then [Callback (adj2_cb (self w)) adj2] else [])
                   ++ (if negb (is_none (adj2_bdy_cb (self w))) && compute
                       then [Callback (adj2_bdy_cb (self w)) bdy2] else []) |})
    /\ is_callback ev = false
    /\ is_none adj2 = false
    /\ bdy2 = (if compute
               then boundary_adjoint (self w) (PObj (adjoint dFdu_form))
                      (_assemble_soa_eq_rhs (self w) dFdu_form (adj_sol (self w))
                         hessian_input d2Fdu2)
                      adj2
               else PNone).
Proof.
  intros Hout Hin Hseed Htlm Hadj HF Hs Hd dFdu_form d2Fdu2 Hargs compute.
  destruct (assemble_and_solve_soa_eq_cases w dFdu_form (adj_sol (self w))
              hessian_input d2Fdu2 compute)
    as [(adj2 & bdy2 & ev & Hrun & Hev & Hadj2 & Hbdy)|(e & _ & _ & Hwhy)].
  2:{ destruct (Hwhy Hs Hd) as (_ & Hc & Hflag & Hnil).
      now destruct (Hargs Hc Hflag). }
  exists adj2, bdy2, ev.
  split; [|split; [exact Hev|split; [exact Hadj2|exact Hbdy]]].
  exact (prepare_evaluate_hessian_run w inputs hessian_inputs adj_inputs
           relevant_dependencies fwd hessian_input F_form _ _ _
           Hout Hin Hseed Htlm HF Hadj Hrun).
Qed.

(** ** The tangent-linear pass *)

(** The collected boundary conditions, read as a list comprehension. *)
Lemma tangent_bcs_filter (deps : list (BlockVariable obj)) :
  tangent_bcs deps
  = map (fun d => if is_none (tlm_value d)
                  then PObj (create_bc (output d) PNone (PBool true))
                  else tlm_value d)
        (filter (fun d => isinstance (output d) DirichletBC = true) deps).
Proof.
  induction deps as [|d deps IH]; [reflexivity|].
  cbn [tangent_bcs]. rewrite filter_cons.
  destruct (isinstance (output d) DirichletBC) eqn:Hbc.
  - rewrite decide_True by reflexivity. cbn [map]. now rewrite IH.
  - rewrite decide_False by discriminate. exact IH.
Qed.

(** What a call of [evaluate_tlm_component] can come to. *)
Lemma evaluate_tlm_component_outcome
    (w : Running obj) (inputs tlm_inputs : list value) (bv : BlockVariable obj)
    (idx : nat) (prepared : value) :
  let run := evaluate_tlm_component inputs tlm_inputs bv idx prepared w in
  let bcs :=
    map (fun d => if is_none (tlm_value d)
                  then PObj (create_bc (output d) PNone (PBool true))
                  else tlm_value d)
        (filter (fun d => isinstance (output d) DirichletBC = true)
                (get_dependencies (self w))) in
  (forall e, fst run = Raise e ->
     snd run = w
     /\ (subscript prepared "form" = Raise e
         \/ subscript prepared "dFdu" = Raise e
         \/ e = IndexError))
  /\ (forall dudm, fst run = Ok dudm ->
        exists dFdu out dFdm,
          subscript prepared "dFdu" = Ok dFdu
          /\ get_outputs (self w) !! idx = Some out
          /\ is_float dFdm = false
          /\ let A := PObj (assemble_adjoint_value dFdu (<["bcs" := PList bcs]> ∅)) in
             let func := PObj (backend_Function (PObj (function_space_of (output out)))) in
             let rhs := fold_left (fun r bc => PObj (bc_apply bc r)) bcs
                          (PObj (assemble_adjoint_value
                                   (PObj (expand_derivatives dFdm)) ∅)) in
             dudm = PObj (solution A func rhs [] ∅)
             /\ snd run
                = {| self := self w;
                     calls := calls w ++ [BackendSolve [A; PObj (vector func); rhs] ∅] |}).
Proof.
  intros run bcs. subst run bcs. rewrite <- tangent_bcs_filter.
  unfold evaluate_tlm_component. rewrite bind_gets; cbv beta.
  destruct (subscript prepared "form") as [F_form|e0] eqn:Hform.
  2:{ rewrite (bind_raise _ _ w e0 w) by reflexivity. split; [|discriminate].
      intros e [= <-]. split; [reflexivity|now left]. }
  rewrite (bind_ok _ _ _ F_form w) by reflexivity.
  destruct (subscript prepared "dFdu") as [dFdu|e0] eqn:HdFdu.
  2:{ rewrite (bind_raise _ _ w e0 w) by reflexivity. split; [|discriminate].
      intros e [= <-]. split; [reflexivity|right; now left]. }
  rewrite (bind_ok _ _ _ dFdu w) by reflexivity.
  destruct (getitem (get_outputs (self w)) idx) as [out|e0] eqn:Hout.
  2:{ rewrite (bind_raise _ _ w e0 w) by reflexivity. split; [|discriminate].
      intros e [= <-]. split; [reflexivity|].
      right; right. now apply getitem_raise in Hout. }
  rewrite (bind_ok _ _ _ out w) by reflexivity.
  assert (Hlook : get_outputs (self w) !! idx = Some out).
  { unfold getitem in Hout. destruct (_ !! idx); [now injection Hout as ->|discriminate]. }
  pose proof (tlm_loop_bcs (self w) F_form (get_dependencies (self w)) [] (PFloat 0)) as Hb.
  destruct (fold_left (tlm_step _ _) _ _) as [bcs' dFdm].
  cbn [fst app] in Hb. subst bcs'.
  destruct (is_float dFdm) eqn:Hfl.
  - destruct (getitem (arguments dFdu) 0) as [v|e0] eqn:Hv.
    + cbn. split; [discriminate|]. intros dudm [= <-].
      exists dFdu, out, (zero_rhs v). repeat split; assumption.
    + cbn. split; [|discriminate]. intros e [= <-]. split; [reflexivity|].
      right; right. now apply getitem_raise in Hv.
  - cbn. split; [discriminate|]. intros dudm [= <-].
    exists dFdu, out, dFdm. repeat split; assumption.
Qed.

(** X16: the tangent-linear solve, whatever the dependencies.  A call of
    [evaluate_tlm_component] that raises has called no solver and left the
    block alone; the exception is that of a missing prepared entry, or an
    IndexError.  A call that returns has made exactly one backend solve,
    without keyword arguments, for a new function of the output's space;
    the boundary conditions go into the assembly of the Jacobian and onto
    the right-hand side, and they are, in the order of the dependencies,
    the tangent-linear value of each DirichletBC dependency, or the
    homogenized condition where it has none. *)
Theorem evaluate_tlm_component_single_solve
    (w : Running obj) (inputs tlm_inputs : list value) (bv : BlockVariable obj)
    (idx : nat) (prepared : value) :
  let run := evaluate_tlm_component inputs tlm_inputs bv idx prepared w in
  let bcs :=
    map (fun d => if is_none (tlm_value d)
                  then PObj (create_bc (output d) PNone (PBool true))
                  else tlm_value d)
        (filter (fun d => isinstance (output d) DirichletBC = true)
                (get_dependencies (self w))) in
  (forall e, fst run = Raise e ->
     snd run = w
     /\ (subscript prepared "form" = Raise e
         \/ subscript prepared "dFdu" = Raise e
         \/ e = IndexError))
  /\ (forall dudm, fst run = Ok dudm ->
        exists dFdu out dFdm,
          subscript prepared "dFdu" = Ok dFdu
          /\ get_outputs (self w) !! idx = Some out
          /\ is_float dFdm = false
          /\ let A := PObj (assemble_adjoint_value dFdu (<["bcs" := PList bcs]> ∅)) in
             let func := PObj (backend_Function (PObj (function_space_of (output out)))) in
             let rhs := fold_left (fun r bc => PObj (bc_apply bc r)) bcs
                          (PObj (assemble_adjoint_value
                                   (PObj (expand_derivatives dFdm)) ∅)) in
             dudm = PObj (solution A func rhs [] ∅)
             /\ snd run
                = {| self := self w;
                     calls := calls w ++ [BackendSolve [A; PObj (vector func); rhs] ∅] |}).
Proof. exact (evaluate_tlm_component_outcome w inputs tlm_inputs bv idx prepared). Qed.

(** X21: the two halves of the tangent-linear pass fit.  What
    [prepare_evaluate_tlm] returns has the entries that
    [evaluate_tlm_component] reads, so that the component can only fail
    with an IndexError; and the matrix of the one solve it makes is
    assembled from the derivative of the residual form at the checkpoint of
    the block's first output, in the direction of a trial function of that
    output's space. *)
Theorem tlm_pass_composes
    (w : Running obj) (inputs tlm_inputs : list value)
    (relevant_outputs : list (value * BlockVariable obj))
    (bv : BlockVariable obj) (idx : nat) (prepared : value) :
  prepare_evaluate_tlm (self w) inputs tlm_inputs relevant_outputs = Ok prepared ->
  exists fwd F_form,
    get_outputs (self w) !! 0 = Some fwd
    /\ _create_F_form (self w) = Ok F_form
    /\ let dFdu :=
         PObj (derivative F_form (saved_output fwd)
                 (PObj (TrialFunction (PObj (function_space_of (output fwd)))))) in
       let run := evaluate_tlm_component inputs tlm_inputs bv idx prepared w in
       (forall e, fst run = Raise e -> e = IndexError /\ snd run = w)
       /\ (forall dudm, fst run = Ok dudm ->
             exists bcs rest,
               calls (snd run)
               = calls w
                 ++ [BackendSolve
                       (PObj (assemble_adjoint_value dFdu (<["bcs" := PList bcs]> ∅))
                        :: rest) ∅]).
Proof.
  unfold prepare_evaluate_tlm. intros Hprep.
  destruct (getitem (get_outputs (self w)) 0) as [fwd|] eqn:Hout; [|discriminate Hprep].
  cbn [result_bind] in Hprep.
  destruct (_create_F_form (self w)) as [F_form|] eqn:HF; [|discriminate Hprep].
  cbn [result_bind] in Hprep. injection Hprep as <-.
  exists fwd, F_form.
  split. { unfold getitem in Hout. destruct (_ !! 0); [now injection Hout as ->|discriminate]. }
  split; [reflexivity|].
  cbv zeta.
  set (dFdu := PObj (derivative F_form (saved_output fwd)
                       (PObj (TrialFunction (PObj (function_space_of (output fwd))))))).
  set (run := evaluate_tlm_component _ _ _ _ _ _).
  assert (Hform : forall e, subscript (PDict (<["form" := F_form]> (<["dFdu" := dFdu]> ∅)))
                              "form" <> Raise e).
  { intros e. cbn [subscript]. now rewrite lookup_insert_eq. }
  assert (HdFdu : subscript (PDict (<["form" := F_form]> (<["dFdu" := dFdu]> ∅))) "dFdu"
                  = Ok dFdu).
  { cbn [subscript]. rewrite lookup_insert_ne by discriminate.
    now rewrite lookup_insert_eq. }
  destruct (evaluate_tlm_component_outcome w inputs tlm_inputs bv idx
              (PDict (<["form" := F_form]> (<["dFdu" := dFdu]> ∅))))
    as [Hfail Hok].
  split.
  - intros e He. destruct (Hfail e He) as [Hw [Hbad|[Hbad| -> ]]].
    + now destruct (Hform e).
    + fold dFdu in Hbad. rewrite HdFdu in Hbad. discriminate Hbad.
    + split; [reflexivity|exact Hw].
  - intros dudm Hd.
    destruct (Hok dudm Hd) as (dFdu' & out & dFdm & Hsub & _ & _ & _ & Hcalls).
    fold dFdu in Hsub. rewrite HdFdu in Hsub. injection Hsub as <-.
    subst run. rewrite Hcalls. cbn [calls]. eauto.
Qed.

(** ** The adjoint component *)

(** X17: the kinds of dependency that [evaluate_adj_component] knows.  For
    a dependency that is not the unknown of a nonlinear residual, and with
    the three prepared entries at hand, the call returns exactly when the
    dependency is a Function, a Constant, an Expression, a DirichletBC or a
    mesh; for anything else it ends in an UnboundLocalError, the name
    [trial_function] never having been bound. *)
Theorem evaluate_adj_component_supported_kinds
    (self : SolveBlock obj) (inputs adj_inputs : list value)
    (bv : BlockVariable obj) (idx : nat) (prepared F_form adj adj_bdy : value) :
  subscript prepared "form" = Ok F_form ->
  subscript prepared "adj_sol" = Ok adj ->
  subscript prepared "adj_sol_bdy" = Ok adj_bdy ->
  negb (linear self) && py_eq (func self) (output bv) = false ->
  let c := output bv in
  (isinstance c ExpressionType = true ->
   isinstance c Function = false /\ isinstance c Constant = false) ->
  let run := evaluate_adj_component self inputs adj_inputs bv idx prepared in
  (is_ok run = true
   <-> isinstance c Function = true \/ isinstance c Constant = true
       \/ isinstance c ExpressionType = true \/ isinstance c DirichletBC = true
       \/ isinstance c MeshType = true)
  /\ (is_ok run = false -> run = Raise (UnboundLocalError "trial_function")).
Proof.
  intros Hform Hadj Hbdy Hskip c Hexpr run. subst run.
  unfold evaluate_adj_component. rewrite Hskip, Hform, Hadj, Hbdy.
  cbn [result_bind]. fold c.
  destruct (isinstance c ExpressionType) eqn:He.
  - destruct (Hexpr eq_refl) as [-> ->]. cbn [is_ok].
    split; [|discriminate]. split; [auto|reflexivity].
  - clear Hexpr.
    destruct (isinstance c Function) eqn:Hf; [rewrite ?He; cbn [is_ok];
      split; [split; [auto|reflexivity]|discriminate]|].
    destruct (isinstance c Constant) eqn:Hc; [rewrite ?He; cbn [is_ok];
      split; [split; [auto|reflexivity]|discriminate]|].
    destruct (isinstance c DirichletBC) eqn:Hd; [cbn [is_ok];
      split; [split; [auto 6|reflexivity]|discriminate]|].
    destruct (isinstance c MeshType) eqn:Hm; [cbn [is_ok];
      split; [split; [auto 6|reflexivity]|discriminate]|].
    cbn [is_ok]. split; [|reflexivity].
    split; [discriminate|]. intros [?|[?|[?|[?|?]]]]; discriminate.
Qed.

(** ** Annotated solves that cannot be recorded *)


(** ** A recorded block is ready for the passes *)

(** An annotated [solve] whose block can be made, for an unknown that has
    [create_block_variable] or a [function] that has it. *)
Lemma solve_annotated_run (args : list value) (kwargs : dict) (w : World obj)
    (first second target : value) (block : SolveBlock obj) :
  (0 <? annotate_off w) = false ->
  truthy (default (PBool true) (kwargs !! "annotate")) = true ->
  args !! 0 = Some first -> args !! 1 = Some second ->
  let kwargs1 := delete "annotate" kwargs in
  construct (if negb (isinstance first Equation)
             then SolveLinearSystemBlock else SolveVarFormBlock)
            (block_variable_of w) args
            ((pop_kwargs kwargs1).2 ∪ (pop_kwargs kwargs1).1) = Ok block ->
  (hasattr second "create_block_variable" = true /\ target = second)
  \/ (hasattr second "create_block_variable" = false
      /\ getattr second "function" = Ok target
      /\ hasattr target "create_block_variable" = true) ->
  let kwargs2 := (pop_kwargs kwargs1).2 in
  let address := fresh (dom (heap w)) in
  let bv := {| bv_id := created_block_variables w; output := target;
               saved_output := target; tlm_value := PNone |} in
  solve args kwargs w
  = (Ok (backend_solve args kwargs2),
     {| working_tape := working_tape w ++ [address];
        heap := <[address := add_output bv block]> (heap w);
        block_variable_of := fun y => if py_eq y target then bv else block_variable_of w y;
        created_block_variables := S (created_block_variables w);
        annotate_off := annotate_off w;
        backend_calls := backend_calls w ++ [BackendSolve args kwargs2] |}).
Proof.
  intros Hdepth Hann Hfirst Hsecond kwargs1 Hblock Htarget kwargs2 address bv.
  unfold solve.
  rewrite (bind_ok _ _ _ _ _ (annotate_tape_run kwargs w)). cbn [fst snd].
  rewrite Hdepth, Hann. fold kwargs1.
  unfold bind at 1. unfold bind at 1. unfold lift at 1.
  rewrite (getitem_lookup _ _ _ Hfirst).
  unfold bind at 1. cbn [gets]. unfold bind at 1. unfold lift at 1.
  rewrite Hblock.
  unfold bind at 1. cbn [add_block ret fst snd].
  unfold bind at 1. unfold stop_annotating, call_backend_solve.
  cbn [bind modify ret set_stop_depth stop_depth World_annotating
       working_tape heap block_variable_of created_block_variables
       annotate_off backend_calls Init.Nat.pred].
  unfold bind at 1. unfold bind at 1. unfold bind at 1. unfold lift at 1.
  rewrite (getitem_lookup _ _ _ Hsecond).
  fold kwargs2 address.
  unfold bv.
  destruct Htarget as [(Hhas & ->)|(Hhas & Hfun & Hhas')]; rewrite Hhas.
  - cbn [create_block_variable block_add_output bind modify ret
         working_tape heap block_variable_of created_block_variables
         annotate_off backend_calls].
    now rewrite alter_insert_eq.
  - rewrite Hfun. cbv [bind lift]. rewrite Hhas'.
    cbn [create_block_variable block_add_output bind modify ret
         working_tape heap block_variable_of created_block_variables
         annotate_off backend_calls].
    now rewrite alter_insert_eq.
Qed.

(** X22: a block recorded by [solve] is ready for the passes.  After an
    annotated [solve] whose block could be made, for a second argument
    that has [create_block_variable] or a [function] that has it, the last
    entry of the tape is a block with exactly one output, the block
    variable made for that object (the solved function), checkpointed, and
    with no adjoint solution yet.  On that block [_create_F_form] and
    [prepare_evaluate_tlm] return: the lookup of the first output cannot
    fail. *)
Theorem recorded_block_is_ready (args : list value) (kwargs : dict) (w : World obj)
    (first second target : value) (block : SolveBlock obj) :
  (0 <? annotate_off w) = false ->
  truthy (default (PBool true) (kwargs !! "annotate")) = true ->
  args !! 0 = Some first -> args !! 1 = Some second ->
  let kwargs1 := delete "annotate" kwargs in
  construct (if negb (isinstance first Equation)
             then SolveLinearSystemBlock else SolveVarFormBlock)
            (block_variable_of w) args
            ((pop_kwargs kwargs1).2 ∪ (pop_kwargs kwargs1).1) = Ok block ->
  (hasattr second "create_block_variable" = true /\ target = second)
  \/ (hasattr second "create_block_variable" = false
      /\ getattr second "function" = Ok target
      /\ hasattr target "create_block_variable" = true) ->
  let w' := snd (solve args kwargs w) in
  exists address recorded out,
    last (working_tape w') = Some address
    /\ heap w' !! address = Some recorded
    /\ get_outputs recorded = [out]
    /\ output out = target
    /\ saved_output out = PObj (create_checkpoint target)
    /\ is_none (adj_sol recorded) = true
    /\ get_dependencies recorded = get_dependencies block
    /\ is_ok (_create_F_form recorded) = true
    /\ (forall inputs tlm_inputs relevant_outputs,
          is_ok (prepare_evaluate_tlm recorded inputs tlm_inputs relevant_outputs) = true).
Proof.
  intros Hdepth Hann Hfirst Hsecond kwargs1 Hblock Htarget w'.
  subst w'.
  rewrite (solve_annotated_run args kwargs w first second target block
             Hdepth Hann Hfirst Hsecond Hblock Htarget).
  cbn [snd working_tape heap block_variable_of].
  destruct (construct_adj_sol_none _ _ _ _ _ Hblock) as [Hadj Houts].
  eexists _, _, _. split; [apply last_snoc|].
  split; [apply lookup_insert_eq|].
  split; [unfold get_outputs; cbn [add_output _outputs]; rewrite Houts; reflexivity|].
  split; [reflexivity|]. split; [reflexivity|].
  split; [cbn [add_output adj_sol]; now rewrite Hadj|].
  split; [reflexivity|].
  assert (HF : is_ok (_create_F_form
                        (add_output
                           {| bv_id := created_block_variables w; output := target;
                              saved_output := target; tlm_value := PNone |} block))
               = true).
  { unfold _create_F_form, get_outputs. cbn [add_output _outputs].
    rewrite Houts. reflexivity. }
  split; [exact HF|].
  intros inputs tlm_inputs relevant_outputs. unfold prepare_evaluate_tlm.
  unfold get_outputs at 1. cbn [add_output _outputs]. rewrite Houts.
  cbn [app getitem lookup list_lookup result_bind].
  destruct (_create_F_form _); [reflexivity|discriminate HF].
Qed.

End SolvingMore.

(** * Properties of the forward replay *)

Section ReplayMore.

Import Solving Replay.
Context {obj : Type} `{Backend obj} `{ReplayBackend obj}.

Abbreviation value := (pyval obj).
Abbreviation dict := (gmap string (pyval obj)).

Lemma recover_bcs_filter (self : SolveBlock obj) :
  _recover_bcs self
  = map saved_output
        (filter (fun d => isinstance (output d) DirichletBC = true)
                (get_dependencies self)).
Proof.
  unfold _recover_bcs.
  assert (Hloop : forall deps acc,
             fold_left
               (fun bcs block_variable =>
                  if isinstance (output block_variable) DirichletBC
                  then bcs ++ [saved_output block_variable] else bcs)
               deps acc
             = acc ++ map saved_output
                        (filter (fun d => isinstance (output d) DirichletBC = true) deps)).
  { induction deps as [|d deps IH]; intros acc; cbn [fold_left].
    - now rewrite app_nil_r.
    - rewrite IH, filter_cons.
      destruct (isinstance (output d) DirichletBC) eqn:Hbc.
      + rewrite decide_True by reflexivity. cbn [map]. now rewrite <- app_assoc.
      + now rewrite decide_False by discriminate. }
  apply (Hloop _ []).
Qed.

Lemma dict_item_member (key : value) (d : list (value * value)) (v : value) :
  dict_item key d = Some v -> existsb (fun e => py_eq e.1 key) d = true /\ exists k, In (k, v) d.
Proof.
  unfold dict_item. induction d as [|[k0 w0] d IH]; cbn; [discriminate|].
  destruct (py_eq k0 key); cbn.
  - intros [= <-]. split; [reflexivity|]. exists k0. now left.
  - intros Hfind. destruct (IH Hfind) as [Hex [k Hin]]. split; [exact Hex|].
    exists k. now right.
Qed.

Lemma dict_item_reassign (key v : value) (d : list (value * value)) :
  existsb (fun e => py_eq e.1 key) d = true ->
  dict_item key (dict_assign key v d) = Some v.
Proof.
  intros Hex. unfold dict_item, dict_assign. rewrite Hex.
  induction d as [|[k0 w0] d IH]; [discriminate Hex|].
  cbn in Hex |- *. destruct (py_eq k0 key) eqn:Hk; cbn [fst]; rewrite Hk.
  - reflexivity.
  - cbn in Hex. now apply IH.
Qed.

Lemma replace_map_checkpoints (self : SolveBlock obj) (form k v : value) :
  In (k, v) (_replace_map self form) ->
  exists bv, In bv (get_dependencies self) /\ v = saved_output bv.
Proof.
  unfold _replace_map.
  assert (Hinv : forall deps m,
             (forall k v, In (k, v) m ->
                exists bv, In bv (get_dependencies self) /\ v = saved_output bv) ->
             (forall bv, In bv deps -> In bv (get_dependencies self)) ->
             forall k v,
               In (k, v)
                  (fold_left
                     (fun replace_coeffs block_variable =>
                        if existsb (py_eq (output block_variable)) (coefficients form)
                        then dict_assign (output block_variable)
                               (saved_output block_variable) replace_coeffs
                        else replace_coeffs) deps m) ->
               exists bv, In bv (get_dependencies self) /\ v = saved_output bv).
  { induction deps as [|d deps IH]; intros m Hm Hsub; [exact Hm|].
    cbn [fold_left]. apply IH; [|intros bv Hbv; apply Hsub; now right].
    intros k' v' Hin.
    destruct (existsb (py_eq (output d)) (coefficients form)); [|now apply (Hm k')].
    unfold dict_assign in Hin. destruct (existsb _ m).
    - apply in_map_iff in Hin as ([k0 w0] & Heq & Hin). cbn in Heq.
      destruct (py_eq k0 (output d)); injection Heq as <- <-.
      + exists d. split; [apply Hsub; now left | reflexivity].
      + now apply (Hm k0).
    - apply in_app_or in Hin as [Hin|[[= <- <-]|[]]]; [now apply (Hm k')|].
      exists d. split; [apply Hsub; now left | reflexivity]. }
  apply Hinv; [intros ? ? [] | auto].
Qed.

(** X19: what the replay is prepared with.  [_replace_recompute_form]
    returns the left-hand side, the right-hand side, the initial guess and
    the boundary conditions.  The boundary conditions are the checkpoints of
    the DirichletBC dependencies, in their order.  The right-hand side is
    the number zero unless the block is flagged linear.  When the unknown is
    in the replace map of the left-hand side, the initial guess is a new
    function that has been assigned the checkpoint held there, a checkpoint
    of one of the dependencies, and the unknown is replaced by that guess;
    otherwise the guess is the new function as it is. *)
Theorem replay_starts_from_checkpoint (self : SolveBlock obj) :
  let guess := _create_initial_guess self in
  let replace_map := _replace_map self (lhs self) in
  exists lhs' rhs' func',
    _replace_recompute_form self
    = PTuple [lhs'; rhs'; func';
              PList (map saved_output
                       (filter (fun d => isinstance (output d) DirichletBC = true)
                               (get_dependencies self)))]
    /\ rhs' = (if linear self
               then PObj (ufl_replace (rhs self) (_replace_map self (rhs self)))
               else PInt 0)
    /\ (dict_item (func self) replace_map = None ->
        func' = guess /\ lhs' = PObj (ufl_replace (lhs self) replace_map))
    /\ (forall checkpoint,
          dict_item (func self) replace_map = Some checkpoint ->
          func' = PObj (function_assign guess checkpoint)
          /\ (exists bv, In bv (get_dependencies self) /\ checkpoint = saved_output bv)
          /\ exists m, lhs' = PObj (ufl_replace (lhs self) m)
                       /\ dict_item (func self) m = Some func').
Proof.
  intros guess replace_map.
  unfold _replace_recompute_form. rewrite recover_bcs_filter.
  eexists _, _, _. split; [reflexivity|]. split.
  - destruct (linear self); [|reflexivity].
    unfold _replace_form. destruct (dict_item _ _); reflexivity.
  - unfold _replace_form. fold replace_map. fold guess.
    destruct (dict_item (func self) replace_map) as [cp|] eqn:Hitem.
    + split; [discriminate|]. intros checkpoint [= <-].
      cbn [is_none guess _create_initial_guess negb fst snd].
      split; [reflexivity|].
      apply dict_item_member in Hitem as [Hex (k & Hin)].
      split; [exact (replace_map_checkpoints _ _ _ _ Hin)|].
      eexists. split; [reflexivity|]. now apply dict_item_reassign.
    + split; [|discriminate]. intros _. split; reflexivity.
Qed.

(** X20: the replay of the forward solve.  With forward arguments that
    can be unpacked and forward keywords that are a dict,
    [recompute_component] on what [prepare_recompute_component] returned
    never fails: it calls the backend solve once, with the positional
    arguments of the forward solve after three arguments of its own and
    with the keyword arguments of the forward solve, and leaves the block
    alone.  Unless the block is a [SolveLinearSystemBlock], the three
    arguments are the equation of the replaced sides, the initial guess and
    the recovered boundary conditions, and the result is that guess after
    the solve.  With other forward settings the call ends in a TypeError
    and no solve is made. *)
Theorem recompute_replays_forward_solve
    (w : Running obj) (inputs : list value)
    (relevant_outputs : list (value * BlockVariable obj))
    (bv : BlockVariable obj) (idx : nat) :
  let prepared := prepare_recompute_component (self w) inputs relevant_outputs in
  (forall forward_args forward_kwargs,
     star_args (Solving.forward_args (self w)) = Ok forward_args ->
     entries_of (Solving.forward_kwargs (self w)) = Ok forward_kwargs ->
     exists lhs' rhs' func' bcs result head,
       prepared = PTuple [lhs'; rhs'; func'; PList bcs]
       /\ recompute_component inputs bv idx prepared w
          = (Ok result,
             {| self := self w;
                calls := calls w ++ [BackendSolve (head ++ forward_args)
                                                  forward_kwargs] |})
       /\ length head = 3
       /\ (class_of (self w) <> SolveLinearSystemBlock ->
           head = [PObj (ufl_equation lhs' rhs'); func'; PList bcs]
           /\ result = PObj (forward_solution (head ++ forward_args)
                               forward_kwargs func')))
  /\ (is_ok (star_args (Solving.forward_args (self w)))
      && is_ok (entries_of (Solving.forward_kwargs (self w))) = false ->
      recompute_component inputs bv idx prepared w = (Raise TypeError, w)).
Proof.
  intros prepared. subst prepared.
  unfold prepare_recompute_component, _replace_recompute_form.
  set (lhs' := fst _). set (func' := snd _). set (rhs' := if linear _ then _ else _).
  set (bcs := _recover_bcs _).
  unfold recompute_component.
  rewrite (bind_ok _ _ _ lhs' w) by reflexivity.
  rewrite (bind_ok _ _ _ rhs' w) by reflexivity.
  rewrite (bind_ok _ _ _ func' w) by reflexivity.
  rewrite (bind_ok _ _ _ (PList bcs) w) by reflexivity.
  unfold _forward_solve. unfold bind at 1. cbn [gets].
  split.
  - intros fa fk Hfa Hfk.
    destruct (class_of (self w)) eqn:Hcls.
    + cbv [generic_forward_solve bind gets log modify ret lift]. rewrite Hfa, Hfk.
      cbn [self calls].
      eexists lhs', rhs', func', bcs, _, [_; _; _].
      split; [reflexivity|]. split; [reflexivity|]. split; [reflexivity|].
      intros _. split; reflexivity.
    + unfold linear_system_forward_solve. unfold bind at 1. cbn [gets].
      unfold bind at 1.
      destruct (truthy (assemble_system_flag (self w)));
        cbv [bind gets log modify ret lift items_of]; rewrite Hfa, Hfk;
        cbn [fst snd self calls];
        (eexists lhs', rhs', func', bcs, _, [_; _; _];
         split; [reflexivity|]; split; [reflexivity|]; split; [reflexivity|];
         intros Hc; now destruct Hc).
    + cbv [generic_forward_solve bind gets log modify ret lift]. rewrite Hfa, Hfk.
      cbn [self calls].
      eexists lhs', rhs', func', bcs, _, [_; _; _].
      split; [reflexivity|]. split; [reflexivity|]. split; [reflexivity|].
      intros _. split; reflexivity.
  - intros Hbad. rewrite bind_gets.
    assert (Hcases : (exists e, star_args (Solving.forward_args (self w)) = Raise e)
                     \/ (exists fa e,
                           star_args (Solving.forward_args (self w)) = Ok fa
                           /\ entries_of (Solving.forward_kwargs (self w)) = Raise e)).
    { destruct (star_args (Solving.forward_args (self w))) as [fa|e]; [|eauto].
      destruct (entries_of (Solving.forward_kwargs (self w))) as [fk|e];
        [discriminate Hbad|eauto]. }
    assert (Htype : forall e, star_args (Solving.forward_args (self w)) = Raise e
                              -> e = TypeError).
    { intros e. destruct (Solving.forward_args (self w)); cbn; try discriminate;
        now intros [= <-]. }
    assert (Htype' : forall e, entries_of (Solving.forward_kwargs (self w)) = Raise e
                               -> e = TypeError).
    { intros e. destruct (Solving.forward_kwargs (self w)); cbn; try discriminate;
        now intros [= <-]. }
    destruct (class_of (self w)) eqn:Hcls.
    + cbv [generic_forward_solve bind gets log modify ret lift].
      destruct Hcases as [(e & He)|(fa & e & Hfa & He)].
      * rewrite He. now rewrite (Htype e He).
      * rewrite Hfa, He. now rewrite (Htype' e He).
    + unfold linear_system_forward_solve. unfold bind at 1. cbn [gets].
      unfold bind at 1.
      destruct (truthy (assemble_system_flag (self w)));
        cbv [bind gets log modify ret lift items_of];
        (destruct Hcases as [(e & He)|(fa & e & Hfa & He)];
         [rewrite He; now rewrite (Htype e He)
         |rewrite Hfa, He; now rewrite (Htype' e He)]).
    + cbv [generic_forward_solve bind gets log modify ret lift].
      destruct Hcases as [(e & He)|(fa & e & Hfa & He)].
      * rewrite He. now rewrite (Htype e He).
      * rewrite Hfa, He. now rewrite (Htype' e He).
Qed.

End ReplayMore.

(** * Further concrete runs *)

Section VerificationMoreRuns.

Import Verification Sym.

(** Five residuals over four step sizes. *)
Lemma convergence_rates_any_length_run :
  exists r,
    fst (convergence_rates (C:=num) [Lit 8; Lit 4; Lit 2; Lit 1; Lit 0.5]
           [Lit 1; Lit 0.5; Lit 0.25; Lit 0.125] world0) = Ok r
    /\ length r = 3.
Proof.
  assert (Hlen : length [Lit 1; Lit 0.5; Lit 0.25; Lit 0.125]
                 <= length [Lit 8; Lit 4; Lit 2; Lit 1; Lit 0.5]) by (cbn; lia).
  destruct (proj1 (convergence_rates_any_length (C:=num)
                     [Lit 8; Lit 4; Lit 2; Lit 1; Lit 0.5]
                     [Lit 1; Lit 0.5; Lit 0.25; Lit 0.125] world0 Hlen))
    as (r & Hr & Hr3 & _).
  { intros j y Hj [Hy|Hy];
      (do 3 (destruct j as [|j]; [cbn in Hy; injection Hy as <-; reflexivity|]));
      cbn in Hj; lia. }
  exists r. rewrite Hr. split; [reflexivity|exact Hr3].
Defined.

(** One residual over two step sizes. *)
Lemma convergence_rates_too_few_residuals_run :
  convergence_rates (C:=num) [Lit 8] [Lit 1; Lit 0.5] world0
  = (Raise IndexError, world0).
Proof.
  assert (HE : length [Lit 8] < length [Lit 1; Lit 0.5]) by (cbn; lia).
  assert (Heps : 1 < length [Lit 1; Lit 0.5]) by (cbn; lia).
  apply (proj1 (convergence_rates_too_few_residuals (C:=num) [Lit 8] [Lit 1; Lit 0.5]
                  world0 HE Heps)).
  intros j y Hj. cbn in Hj. lia.
Defined.

(** A point of two entries and a direction of one. *)
Lemma perturbe_pairs_entries_run :
  exists l,
    perturbe (PyList [Lit 1; Lit 2]) (PyList [Lit 3]) (Lit 0.5) = Ok (PyList l)
    /\ length l = 1
    /\ l !! 0 = Some (Add (Lit 1) (Mul (Lit 3) (Lit 0.5))).
Proof.
  destruct (perturbe_pairs_entries (PyList [Lit 1; Lit 2]) (PyList [Lit 3]) (Lit 0.5)
              eq_refl) as (l & Hl & Hlen & Hnth).
  exists l. split; [exact Hl|]. split; [exact Hlen|].
  apply (Hnth 0); reflexivity.
Defined.

(** [J(m) = m*m] with its own derivative, on a list of one control. *)
Lemma taylor_test_advisory_run :
  exists rates t,
    taylor_test (J_square 1) (PyList [Lit 1]) (PyList [Lit 1]) None (Lit 0) world0
    = (pymin rates,
       {| trace := t ++ [Print "Computed convergence rates: {}" rates];
          annotate_off := 0 |})
    /\ length rates = 3.
Proof.
  destruct (taylor_test_advisory (J_square 1) (PyList [Lit 1]) (PyList [Lit 1]) None
              (Lit 0) world0
              [PyList [Add (Lit 1) (Mul (Lit 1) (step_size 0))];
               PyList [Add (Lit 1) (Mul (Lit 1) (step_size 1))];
               PyList [Add (Lit 1) (Mul (Lit 1) (step_size 2))];
               PyList [Add (Lit 1) (Mul (Lit 1) (step_size 3))]]
              (or_introl (le_n 1))
              ltac:(repeat constructor))
    as (smallest & _ & _ & Hcases).
  cbv zeta in Hcases. destruct Hcases as [Hreturns _].
  destruct Hreturns as (rates & Hrates & Hrun).
  { intros j y Hj [Hy|Hy];
      (do 3 (destruct j as [|j];
             [vm_compute in Hy; injection Hy as <-; reflexivity|]));
      lia. }
  exists rates. eexists. split; [exact Hrun|exact Hrates].
Defined.

End VerificationMoreRuns.

Section SolvingMoreRuns.

Import Solving SymBackend SymSamples.

(** The block for [a == L] with a boundary condition. *)
Lemma init_registers_dependencies_run :
  exists (b : SolveBlock term) (deps : list (BlockVariable term)),
    GenericSolveBlock__init__ SolveVarFormBlock (initial_block_variable sample_ids)
      a_form L_form u_ (PList [bc_]) [] ∅ = Ok b
    /\ length (_dependencies b) = length deps + 1
    /\ NoDup (map bv_id deps).
Proof.
  assert (Hok : is_ok (GenericSolveBlock__init__ SolveVarFormBlock
                         (initial_block_variable sample_ids) a_form L_form u_
                         (PList [bc_]) [] ∅) = true) by (vm_compute; reflexivity).
  destruct (GenericSolveBlock__init__ SolveVarFormBlock (initial_block_variable sample_ids)
              a_form L_form u_ (PList [bc_]) [] ∅) as [b|e] eqn:Hinit;
    [|discriminate Hok].
  destruct (init_registers_dependencies _ _ _ _ _ _ _ _ _ Hinit) as (deps & Hdeps & Hnd & _).
  exists b, deps. split; [reflexivity|]. split; [|exact Hnd].
  rewrite Hdeps, length_app. reflexivity.
Defined.

(** A linear-system block recorded with the solver method ["lu"]. *)
Lemma linear_system_solver_defaults_run :
  linear_system_init_solver_parameters [PStr "lu"] (∅ : gmap string (pyval term))
  = Ok ({| sp_forward_args := PTuple [PStr "lu"]; sp_forward_kwargs := PDict ∅;
           sp_adj_args := PTuple [PStr "lu"]; sp_adj_kwargs := PDict ∅;
           sp_assemble_kwargs := ∅ |}, ∅).
Proof.
  apply (linear_system_solver_defaults [PStr "lu"] (∅ : gmap string (pyval term)));
    apply lookup_empty.
Defined.

(** Solver parameters that name a linear solver. *)
Lemma var_form_solver_parameters_run :
  exists sp rest,
    var_form_init_solver_parameters []
      ({["solver_parameters" := PDict {["linear_solver" := PStr "mumps"]}]}
         : gmap string (pyval term)) = Ok (sp, rest)
    /\ sp_adj_args sp = PTuple [PStr "mumps"].
Proof.
  eexists _, _. split.
  - apply (var_form_solver_parameters []
             ({["solver_parameters" := PDict {["linear_solver" := PStr "mumps"]}]}
                : gmap string (pyval term))
             {["linear_solver" := PStr "mumps"]});
      vm_compute; reflexivity.
  - vm_compute. reflexivity.
Defined.

(** Adjoint settings given besides solver parameters. *)
Lemma var_form_adjoint_override_run :
  exists sp rest,
    var_form_init_solver_parameters []
      (<["adj_args" := PList [PStr "cg"]]>
       (<["adj_kwargs" := PDict {["krylov_solver" := PDict ∅]}]>
        ({["solver_parameters" := PDict {["linear_solver" := PStr "mumps"]}]}
           : gmap string (pyval term)))) = Ok (sp, rest)
    /\ sp_adj_args sp = PList [PStr "cg"]
    /\ sp_adj_kwargs sp = PDict {["krylov_solver" := PDict ∅]}.
Proof.
  set (kwargs := <["adj_args" := PList [PStr "cg"]]>
                 (<["adj_kwargs" := PDict {["krylov_solver" := PDict ∅]}]>
                  ({["solver_parameters" := PDict {["linear_solver" := PStr "mumps"]}]}
                     : gmap string (pyval term)))).
  assert (Hfa : kwargs !! "forward_args" = None) by (vm_compute; reflexivity).
  assert (Hfk : kwargs !! "forward_kwargs" = None) by (vm_compute; reflexivity).
  assert (Haa : kwargs !! "adj_args" = Some (PList [PStr "cg"]))
    by (vm_compute; reflexivity).
  assert (Hak : kwargs !! "adj_kwargs" = Some (PDict {["krylov_solver" := PDict ∅]}))
    by (vm_compute; reflexivity).
  assert (Hsize : 0 < size ({["krylov_solver" := PDict ∅]} : gmap string (pyval term)))
    by (rewrite map_size_singleton; lia).
  destruct (proj1 (proj2 (var_form_adjoint_override [] kwargs)
                     [PStr "cg"] {["krylov_solver" := PDict ∅]}
                     Hfa Hfk Haa Hak Hsize))
    as (sp & rest & Hrun & Hsp_aa & Hsp_ak & _).
  { intros v Hv. vm_compute in Hv. injection Hv as <-. eexists. reflexivity. }
  exists sp, rest. split; [exact Hrun|]. split; [exact Hsp_aa|exact Hsp_ak].
Defined.

(** The bilinear form [a] has no coefficients. *)
Lemma replace_map_entries_run :
  _replace_map (recorded_block PNone) a_form = [].
Proof.
  apply (proj2 (replace_map_entries (recorded_block PNone) a_form)). reflexivity.
Defined.

(** The unknown is mapped to the checkpoint [u1] of the output, not to the
    checkpoint [u0] that the dependency holds. *)
Lemma create_F_form_at_solution_run :
  exists replace_map,
    _create_F_form (recorded_block PNone) = Ok (PObj (ufl_replace F_linear replace_map))
    /\ Replay.dict_item u_ replace_map = Some (object Function "u1").
Proof.
  apply (proj2 (create_F_form_at_solution (recorded_block PNone))
           (checkpointed 1 u_ (object Function "u1") (object Function "du"))).
  - reflexivity.
  - vm_compute. reflexivity.
Defined.

(** The adjoint pass with a boundary condition among the relevant
    dependencies: one solve and both callbacks. *)
Lemma prepare_evaluate_adj_effects_run :
  exists prepared,
    fst (prepare_evaluate_adj [] [object Function "seed"]
           [(PInt 0, checkpointed 2 bc_ (object DirichletBC "bc0") PNone)]
           (running (recorded_block PNone))) = Ok prepared
    /\ length (calls (snd (prepare_evaluate_adj [] [object Function "seed"]
                             [(PInt 0, checkpointed 2 bc_ (object DirichletBC "bc0") PNone)]
                             (running (recorded_block PNone))))) = 3.
Proof.
  destruct (prepare_evaluate_adj_effects (running (recorded_block PNone)) []
              [object Function "seed"]
              [(PInt 0, checkpointed 2 bc_ (object DirichletBC "bc0") PNone)]
              (checkpointed 1 u_ (object Function "u1") (object Function "du"))
              (object Function "seed") eq_refl eq_refl
              (ex_intro _ [] (or_introl eq_refl)) (ex_intro _ ∅ eq_refl)
              ltac:(intros Hc; discriminate Hc))
    as (F_form & adj & bdy & ev & Hrun & _).
  eexists. rewrite Hrun. split; reflexivity.
Defined.

(** The Hessian pass on the block that the adjoint pass has left. *)
Lemma hessian_after_adjoint_run :
  exists prepared prepared2 adj,
    fst (prepare_evaluate_adj [] [object Function "seed"] []
           (running (recorded_block PNone))) = Ok prepared
    /\ fst (prepare_evaluate_hessian [] [object Function "seed2"] [] []
              (snd (prepare_evaluate_adj [] [object Function "seed"] []
                      (running (recorded_block PNone))))) = Ok prepared2
    /\ subscript prepared "adj_sol" = Ok adj
    /\ subscript prepared2 "adj_sol" = Ok adj.
Proof.
  set (after := prepare_evaluate_adj [] [object Function "seed"] []
                  (running (recorded_block PNone))).
  set (prepared := match fst after with Ok p => p | Raise _ => PNone end).
  assert (Hadj : prepare_evaluate_adj [] [object Function "seed"] []
                   (running (recorded_block PNone)) = (Ok prepared, snd after))
    by (vm_compute; reflexivity).
  set (prepared2 := match fst (prepare_evaluate_hessian [] [object Function "seed2"] [] []
                                 (snd after)) with
                    | Ok p => p
                    | Raise _ => PNone
                    end).
  assert (Hhess : fst (prepare_evaluate_hessian [] [object Function "seed2"] [] []
                         (snd after)) = Ok prepared2)
    by (vm_compute; reflexivity).
  assert (Hsome : is_none prepared2 = false) by (vm_compute; reflexivity).
  destruct (proj2 (hessian_after_adjoint _ _ _ _ _ _ Hadj []
                     [object Function "seed2"] [] []) prepared2 Hhess Hsome)
    as ((adj & Hsub & Hsub2 & _) & _).
  exists prepared, prepared2, adj.
  split; [exact (f_equal fst Hadj)|]. split; [exact Hhess|]. split; assumption.
Defined.


(** The second-order adjoint pass with a cached adjoint solution. *)
Lemma prepare_evaluate_hessian_effects_run :
  exists prepared,
    fst (prepare_evaluate_hessian [] [object Function "seed2"] [] []
           (running (recorded_block (object Function "adj")))) = Ok prepared
    /\ length (calls (snd (prepare_evaluate_hessian [] [object Function "seed2"] [] []
                             (running (recorded_block (object Function "adj")))))) = 2.
Proof.
  set (F_form := match _create_F_form (recorded_block (object Function "adj")) with
                 | Ok f => f
                 | Raise _ => PNone
                 end).
  assert (HF : _create_F_form (self (running (recorded_block (object Function "adj"))))
               = Ok F_form) by (vm_compute; reflexivity).
  destruct (prepare_evaluate_hessian_effects
              (running (recorded_block (object Function "adj"))) []
              [object Function "seed2"] [] []
              (checkpointed 1 u_ (object Function "u1") (object Function "du"))
              (object Function "seed2") F_form
              eq_refl eq_refl eq_refl eq_refl eq_refl HF
              (ex_intro _ [] (or_introl eq_refl)) (ex_intro _ ∅ eq_refl)
              ltac:(intros Hc; discriminate Hc))
    as (adj2 & bdy2 & ev & Hrun & _).
  eexists. rewrite Hrun. split; reflexivity.
Defined.

(** A tangent-linear component asked for an output that is not there. *)
Lemma evaluate_tlm_component_single_solve_run :
  snd (evaluate_tlm_component [] [] (block_variable 1 u_ PNone) 7
         (PDict (<["form" := F_linear]> (<["dFdu" := dFdu_]> ∅)))
         (running (recorded_block PNone)))
  = running (recorded_block PNone).
Proof.
  refine (proj1 (proj1 (evaluate_tlm_component_single_solve
                          (running (recorded_block PNone)) [] []
                          (block_variable 1 u_ PNone) 7
                          (PDict (<["form" := F_linear]> (<["dFdu" := dFdu_]> ∅))))
                   IndexError _)).
  vm_compute. reflexivity.
Defined.

(** A constant is a known kind of dependency, a number is not. *)
Lemma evaluate_adj_component_supported_kinds_run :
  is_ok (evaluate_adj_component (recorded_block PNone) [] []
           (block_variable 3 (object Constant "nu") PNone) 0
           (PDict (<["form" := F_linear]> (<["adj_sol" := object Function "adj"]>
                   (<["adj_sol_bdy" := PNone]> ∅))))) = true
  /\ evaluate_adj_component (recorded_block PNone) [] []
       (block_variable 3 (PInt 3) PNone) 0
       (PDict (<["form" := F_linear]> (<["adj_sol" := object Function "adj"]>
               (<["adj_sol_bdy" := PNone]> ∅))))
     = Raise (UnboundLocalError "trial_function").
Proof.
  set (prepared := PDict (<["form" := F_linear]> (<["adj_sol" := object Function "adj"]>
                          (<["adj_sol_bdy" := PNone]> ∅)))).
  assert (Hform : subscript prepared "form" = Ok F_linear) by (vm_compute; reflexivity).
  assert (Hadj : subscript prepared "adj_sol" = Ok (object Function "adj"))
    by (vm_compute; reflexivity).
  assert (Hbdy : subscript prepared "adj_sol_bdy" = Ok PNone) by (vm_compute; reflexivity).
  split.
  - assert (Hskip : negb (linear (recorded_block PNone))
                    && py_eq (func (recorded_block PNone))
                         (output (block_variable 3 (object Constant "nu") PNone))
                    = false) by (vm_compute; reflexivity).
    assert (Hexpr : isinstance (output (block_variable 3 (object Constant "nu") PNone))
                      ExpressionType = true ->
                    isinstance (output (block_variable 3 (object Constant "nu") PNone))
                      Function = false
                    /\ isinstance (output (block_variable 3 (object Constant "nu") PNone))
                         Constant = false)
      by (intros Hc; vm_compute in Hc; discriminate Hc).
    apply (proj1 (evaluate_adj_component_supported_kinds (recorded_block PNone) [] []
                    (block_variable 3 (object Constant "nu") PNone) 0
                    prepared F_linear (object Function "adj") PNone
                    Hform Hadj Hbdy Hskip Hexpr)).
    right. left. vm_compute. reflexivity.
  - assert (Hskip : negb (linear (recorded_block PNone))
                    && py_eq (func (recorded_block PNone))
                         (output (block_variable 3 (PInt 3) PNone))
                    = false) by (vm_compute; reflexivity).
    assert (Hexpr : isinstance (output (block_variable 3 (PInt 3) PNone))
                      ExpressionType = true ->
                    isinstance (output (block_variable 3 (PInt 3) PNone))
                      Function = false
                    /\ isinstance (output (block_variable 3 (PInt 3) PNone))
                         Constant = false)
      by (intros Hc; vm_compute in Hc; discriminate Hc).
    apply (proj2 (evaluate_adj_component_supported_kinds (recorded_block PNone) [] []
                    (block_variable 3 (PInt 3) PNone) 0
                    prepared F_linear (object Function "adj") PNone
                    Hform Hadj Hbdy Hskip Hexpr)).
    vm_compute. reflexivity.
Defined.


(** A block with a source [f] that carries a tangent-linear value: the
    tangent-linear pass end to end. *)
Lemma tlm_pass_composes_run :
  exists prepared dudm,
    prepare_evaluate_tlm (forced_block PNone) [] [] [] = Ok prepared
    /\ fst (evaluate_tlm_component [] [] (block_variable 1 u_ PNone) 0 prepared
              (running (forced_block PNone))) = Ok dudm
    /\ length (calls (snd (evaluate_tlm_component [] []
                             (block_variable 1 u_ PNone) 0 prepared
                             (running (forced_block PNone))))) = 1.
Proof.
  set (prepared := match prepare_evaluate_tlm (forced_block PNone) [] [] [] with
                   | Ok p => p
                   | Raise _ => PNone
                   end).
  assert (Hprep : prepare_evaluate_tlm (forced_block PNone) [] [] [] = Ok prepared)
    by (vm_compute; reflexivity).
  assert (Hok : is_ok (fst (evaluate_tlm_component [] [] (block_variable 1 u_ PNone) 0
                              prepared (running (forced_block PNone)))) = true)
    by (vm_compute; reflexivity).
  destruct (tlm_pass_composes (running (forced_block PNone)) [] [] []
              (block_variable 1 u_ PNone) 0 prepared Hprep)
    as (fwd & F_form & _ & _ & _ & Hsolve).
  destruct (fst (evaluate_tlm_component [] [] (block_variable 1 u_ PNone) 0 prepared
                   (running (forced_block PNone)))) as [dudm|e] eqn:Hrun;
    [|discriminate Hok].
  destruct (Hsolve dudm eq_refl) as (bcs & rest & Hcalls).
  exists prepared, dudm. split; [exact Hprep|]. split; [exact Hrun|].
  rewrite Hcalls. reflexivity.
Defined.

(** The block that [solve] records for [a == L]. *)
Lemma recorded_block_is_ready_run :
  exists address recorded,
    last (working_tape (snd (solve [equation a_form L_form; u_; bc_] ∅
                               (empty_world sample_ids)))) = Some address
    /\ heap (snd (solve [equation a_form L_form; u_; bc_] ∅ (empty_world sample_ids)))
         !! address = Some recorded
    /\ length (get_outputs recorded) = 1
    /\ is_ok (_create_F_form recorded) = true.
Proof.
  assert (Hok : is_ok (construct SolveVarFormBlock
                         (block_variable_of (empty_world sample_ids))
                         [equation a_form L_form; u_; bc_]
                         ((pop_kwargs (delete "annotate"
                                         (∅ : gmap string (pyval term)))).2
                          ∪ (pop_kwargs (delete "annotate" ∅)).1)) = true)
    by (vm_compute; reflexivity).
  destruct (construct SolveVarFormBlock (block_variable_of (empty_world sample_ids))
              [equation a_form L_form; u_; bc_]
              ((pop_kwargs (delete "annotate" (∅ : gmap string (pyval term)))).2
               ∪ (pop_kwargs (delete "annotate" ∅)).1)) as [block|e] eqn:Hblock;
    [|discriminate Hok].
  assert (Hann : truthy (default (PBool true)
                           ((∅ : gmap string (pyval term)) !! "annotate")) = true)
    by (vm_compute; reflexivity).
  destruct (recorded_block_is_ready [equation a_form L_form; u_; bc_] ∅
              (empty_world sample_ids) (equation a_form L_form) u_ u_ block
              eq_refl Hann eq_refl eq_refl Hblock
              (or_introl (conj eq_refl eq_refl)))
    as (address & recorded & out & Hlast & Hheap & Houts & _ & _ & _ & _ & HF & _).
  exists address, recorded. split; [exact Hlast|]. split; [exact Hheap|].
  split; [now rewrite Houts | exact HF].
Defined.

End SolvingMoreRuns.

Section ReplayMoreRuns.

Import Solving Replay SymBackend SymReplay SymSamples.

(** The initial guess of the replay is assigned the checkpoint [u0]. *)
Lemma replay_starts_from_checkpoint_run :
  exists lhs' rhs' bcs,
    _replace_recompute_form (recorded_block PNone)
    = PTuple [lhs'; rhs';
              PObj (function_assign (_create_initial_guess (recorded_block PNone))
                      (object Function "u0"));
              PList bcs]
    /\ rhs' = PInt 0
    /\ bcs = [object DirichletBC "bc0"].
Proof.
  destruct (replay_starts_from_checkpoint (recorded_block PNone))
    as (lhs' & rhs' & func' & Hform & Hrhs & _ & Hguess).
  destruct (Hguess (object Function "u0") ltac:(vm_compute; reflexivity))
    as (Hfunc & _).
  eexists lhs', rhs', _. rewrite Hform, Hfunc.
  split; [reflexivity|]. split; [exact Hrhs|]. vm_compute. reflexivity.
Defined.

(** The replay of the recorded block. *)
Lemma recompute_replays_forward_solve_run :
  exists result,
    fst (recompute_component [] (block_variable 1 u_ PNone) 0
           (prepare_recompute_component (recorded_block PNone) [] [])
           (running (recorded_block PNone))) = Ok result
    /\ length (calls (snd (recompute_component [] (block_variable 1 u_ PNone) 0
                             (prepare_recompute_component (recorded_block PNone) [] [])
                             (running (recorded_block PNone))))) = 1.
Proof.
  destruct (proj1 (recompute_replays_forward_solve (running (recorded_block PNone))
                     [] [] (block_variable 1 u_ PNone) 0) [] ∅ eq_refl eq_refl)
    as (lhs' & rhs' & func' & bcs & result & head & _ & Hrun & _).
  exists result. cbn [self running] in Hrun. rewrite Hrun. split; reflexivity.
Defined.

End ReplayMoreRuns.
